(** * The aggregate definition of node-cqrs-domain (lib/definitions/aggregate.js)

    A shallow embedding of the aggregate: its registries, the apply
    capability handed to command handlers, the command pipeline [handle],
    event replay and the loading of snapshots and history.

    JavaScript data is embedded as the inductive type [value]; objects keep
    their own properties in insertion order.  Numbers are restricted to
    integers; JavaScript computes with integers exactly as long as they
    stay within 2^53 in absolute value, and the statements about sums of
    revisions carry that bound.  The code mutates one aggregate model, appends to one trace of
    calls into business code and hands command objects around by reference:
    these three live in an explicit state threaded through a state and
    exception monad. *)

From Stdlib Require Import ZArith List String Ascii Bool Lia.
From Stdlib Require Import Sorting.Sorted Sorting.Permutation.
Import ListNotations.

Local Open Scope string_scope.
Local Open Scope Z_scope.

Set Warnings "-register-all".

(** ** JavaScript values *)

Module JS.

Inductive value : Type :=
| VUndefined
| VNull
| VBool (b : bool)
| VNum (n : Z)
| VStr (s : string)
| VArr (items : list value)
| VObj (fields : list (string * value)).

(** [!!v] *)
Definition truthy (v : value) : bool :=
  match v with
  | VUndefined | VNull => false
  | VBool b => b
  | VNum n => negb (n =? 0)
  | VStr s => negb (s =? "")%string
  | VArr _ | VObj _ => true
  end.

(** [a || b] *)
Definition or_else (a b : value) : value := if truthy a then a else b.

(** lodash type tests *)
Definition isString (v : value) : bool :=
  match v with VStr _ => true | _ => false end.

Definition isNumber (v : value) : bool :=
  match v with VNum _ => true | _ => false end.

Definition isObject (v : value) : bool :=
  match v with VArr _ | VObj _ => true | _ => false end.

(** [s === v] for a string [s], [n === v] for a number [n] *)
Definition str_eq (s : string) (v : value) : bool :=
  match v with VStr t => (s =? t)%string | _ => false end.

Definition num_eq (n : Z) (v : value) : bool :=
  match v with VNum m => n =? m | _ => false end.

(** [v.length], [None] standing for [undefined] *)
Definition length_of (v : value) : option Z :=
  match v with
  | VArr items => Some (Z.of_nat (List.length items))
  | VStr s => Some (Z.of_nat (String.length s))
  | _ => None
  end.

(** String conversion in [+] concatenations of error messages *)
Definition to_display (v : value) : string :=
  match v with
  | VStr s => s
  | VUndefined => "undefined"
  | VNull => "null"
  | VBool true => "true"
  | VBool false => "false"
  | _ => "[object]"
  end.

(** [new Error(msg)] *)
Definition Error (msg : string) : value := VObj [("message", VStr msg)].

(** Own properties of an object, in insertion order *)
Fixpoint own (k : string) (fs : list (string * value)) : option value :=
  match fs with
  | [] => None
  | (k', v) :: rest => if (k =? k')%string then Some v else own k rest
  end.

(** [o[k] = v] on the property list: overwrite in place or append *)
Fixpoint assign (k : string) (v : value) (fs : list (string * value))
  : list (string * value) :=
  match fs with
  | [] => [(k, v)]
  | (k', v') :: rest =>
      if (k =? k')%string then (k, v) :: rest else (k', v') :: assign k v rest
  end.

End JS.

Import JS.

(** ** dotty: access by dotted path

    Array elements are not addressed by paths here: a path that runs into
    an array finds nothing and writes nothing. *)

Module Dotty.

(** [path.split(".")] *)
Fixpoint split (s : string) : list string :=
  match s with
  | EmptyString => [EmptyString]
  | String c rest =>
      if Ascii.eqb c "."%char then EmptyString :: split rest
      else match split rest with
           | [] => [String c EmptyString]
           | k :: ks => String c k :: ks
           end
  end.

Fixpoint get_keys (o : value) (ks : list string) : value :=
  match ks with
  | [] => VUndefined
  | k :: rest =>
      match o with
      | VObj fs =>
          let child := match own k fs with Some v => v | None => VUndefined end in
          match rest with
          | [] => child
          | _ :: _ => get_keys child rest
          end
      | _ => VUndefined
      end
  end.

Fixpoint exists_keys (o : value) (ks : list string) : bool :=
  match ks with
  | [] => false
  | k :: rest =>
      match o with
      | VObj fs =>
          match rest with
          | [] => match own k fs with Some _ => true | None => false end
          | _ :: _ =>
              exists_keys
                (match own k fs with Some v => v | None => VUndefined end) rest
          end
      | _ => false
      end
  end.

(** [None] when dotty's put returns [false]; nothing is written then *)
Fixpoint put_keys (o : value) (ks : list string) (v : value) : option value :=
  match ks with
  | [] => None
  | k :: rest =>
      match o with
      | VObj fs =>
          match rest with
          | [] => Some (VObj (assign k v fs))
          | _ :: _ =>
              let child :=
                match own k fs with
                | Some VUndefined | None => VObj []
                | Some c => c
                end in
              match put_keys child rest v with
              | Some child' => Some (VObj (assign k child' fs))
              | None => None
              end
          end
      | _ => None
      end
  end.

(** A configured path: [None] is an absent (undefined) entry of the
    field-mapping table *)
Definition path := option string.

(** [!!path] *)
Definition configured (p : path) : bool :=
  match p with Some s => negb (s =? "")%string | None => false end.

Definition keys (p : path) : list string :=
  match p with Some s => split s | None => [] end.

Definition get (o : value) (p : path) : value := get_keys o (keys p).

Definition exists_ (o : value) (p : path) : bool := exists_keys o (keys p).

Definition put (o : value) (p : path) (v : value) : value :=
  match put_keys o (keys p) v with Some o' => o' | None => o end.

Definition path_display (p : path) : string :=
  match p with Some s => s | None => "undefined" end.

End Dotty.

(** ** The state container *)

Module AggregateModel.

(** Modelled from the spec: the contents of the state container of
    lib/aggregateModel.js, which lies outside lib/definitions.  The
    spec (data model, State Container) lists an id assigned at creation, a
    revision counter starting at 0, a bag of domain fields and an ordered
    list of uncommitted events; the mutation gate is the explicit phase
    flag of the spec's design notes ([true] is open).  The revision is kept
    as a counter of its own, next to the field bag. *)
Record t : Type := mk {
  id : string;
  revision : Z;
  attributes : list (string * value);
  uncommittedEvents : list value;
  gate : bool
}.

(** Modelled from the spec: [new AggregateModel(id, modelInitValues)], whose
    constructor is missing: a fresh container with revision 0, a copy of the
    given fields, no uncommitted events and an open gate. *)
Definition new (i : string) (init : list (string * value)) : t :=
  mk i 0 init [] true.

(** Modelled from the spec: [getRevision()] of the missing
    lib/aggregateModel.js, the plain accessor of the counter. *)
Definition getRevision (m : t) : Z := revision m.

(** Modelled from the spec: [setRevision(n)] of the missing
    lib/aggregateModel.js, which sets the counter without any check. *)
Definition setRevision (r : Z) (m : t) : t :=
  mk (id m) r (attributes m) (uncommittedEvents m) (gate m).

(** Modelled from the spec: [addUncommittedEvent(evt)] of the missing
    lib/aggregateModel.js; the buffer is ordered, the event goes to its
    end. *)
Definition addUncommittedEvent (evt : value) (m : t) : t :=
  mk (id m) (revision m) (attributes m) (uncommittedEvents m ++ [evt]) (gate m).

(** Modelled from the spec: [getUncommittedEvents()] of the missing
    lib/aggregateModel.js, the buffer itself. *)
Definition getUncommittedEvents (m : t) : list value := uncommittedEvents m.

(** Modelled from the spec: [clearUncommittedEvents()] of the missing
    lib/aggregateModel.js empties the buffer. *)
Definition clearUncommittedEvents (m : t) : t :=
  mk (id m) (revision m) (attributes m) [] (gate m).

(** Replaces the event buffer; used where the code writes into the event
    objects of the array that [getUncommittedEvents] returned. *)
Definition withUncommittedEvents (evts : list value) (m : t) : t :=
  mk (id m) (revision m) (attributes m) evts (gate m).

(** Modelled from the spec: [toJSON] of the missing lib/aggregateModel.js, a
    deep copy of the current field bag.  Values are trees, so the copy of a
    bag is the bag. *)
Definition toJSON (m : t) : list (string * value) := attributes m.

(** Modelled from the spec: [reset(data)] of the missing
    lib/aggregateModel.js replaces the field bag wholesale. *)
Definition reset (data : list (string * value)) (m : t) : t :=
  mk (id m) (revision m) data (uncommittedEvents m) (gate m).

(** Modelled from the spec: [set(data)] of the missing
    lib/aggregateModel.js while the gate is open, the assignment of the
    given fields into the bag.  Data that is not an object assigns
    nothing. *)
Definition assignFields (data : value) (attrs : list (string * value))
  : list (string * value) :=
  match data with
  | VObj fs => fold_left (fun acc kv => assign (fst kv) (snd kv) acc) fs attrs
  | _ => attrs
  end.

(** Modelled from the spec: the prototype's [set(data)] of the missing
    lib/aggregateModel.js, on the container. *)
Definition setFields (data : value) (m : t) : t :=
  mk (id m) (revision m) (assignFields data (attributes m))
     (uncommittedEvents m) (gate m).

(** The aggregate stores one of two functions in [aggregateModel.set]: one
    that calls the prototype's set (the gate is open) or one that throws
    (the gate is closed). *)
Definition withGate (g : bool) (m : t) : t :=
  mk (id m) (revision m) (attributes m) (uncommittedEvents m) g.

End AggregateModel.

Definition Model : Type := AggregateModel.t.

(** ** Calls into business code, and the state of a run *)

(** A reference to a JavaScript object held in the object store *)
Definition loc := nat.

(** One entry per call that leaves the aggregate.  Definitions are named by
    the reference of the registered object; the checks that receive the
    command also record which object they were handed. *)
Inductive call : Type :=
| PreConditionCheck (ref : nat) (cmdArg : loc)
| CommandPreConditions (ref : nat) (cmdArg : loc)
| CommandHandle (ref : nat) (cmdArg : loc)
| EventApply (ref : nat)
| BusinessRuleCheck (ref : nat) (cmdArg : loc)
| NewId (n : nat)
| SnapshotConversion (version : Z).

Record State : Type := mkState {
  model : Model;
  store : list value;
  trace : list call;
  ids : nat
}.

Inductive result (A : Type) : Type :=
| Ok (a : A)
| Throw (e : value).

Arguments Ok {A} a.
Arguments Throw {A} e.

(** Computations that read and write the state and may throw; the state at
    the throw is kept. *)
Definition M (A : Type) : Type := State -> result A * State.

Definition ret {A} (a : A) : M A := fun s => (Ok a, s).

Definition bind {A B} (c : M A) (k : A -> M B) : M B :=
  fun s => match c s with
           | (Ok a, s') => k a s'
           | (Throw e, s') => (Throw e, s')
           end.

Definition throw {A} (e : value) : M A := fun s => (Throw e, s).

Definition lift {A} (r : result A) : M A := fun s => (r, s).

Notation "x <- c ;; k" := (bind c (fun x => k))
  (at level 61, c at next level, right associativity).
Notation "c ;; k" := (bind c (fun _ => k))
  (at level 61, right associativity).

Definition getModel : M Model := fun s => (Ok (model s), s).

Definition updateModel (f : Model -> Model) : M unit :=
  fun s => (Ok tt, mkState (f (model s)) (store s) (trace s) (ids s)).

Definition record (c : call) : M unit :=
  fun s => (Ok tt, mkState (model s) (store s) (trace s ++ [c]) (ids s)).

(** The object store: dereference, overwrite, allocate *)
Definition deref (h : list value) (l : loc) : value := nth l h VUndefined.

Fixpoint overwrite (h : list value) (l : loc) (v : value) : list value :=
  match h, l with
  | [], _ => []
  | _ :: rest, O => v :: rest
  | x :: rest, S l' => x :: overwrite rest l' v
  end.

Definition readObject (l : loc) : M value :=
  fun s => (Ok (deref (store s) l), s).

Definition writeObject (l : loc) (v : value) : M unit :=
  fun s => (Ok tt, mkState (model s) (overwrite (store s) l v) (trace s) (ids s)).

Definition allocObject (v : value) : M loc :=
  fun s => (Ok (List.length (store s)),
            mkState (model s) (store s ++ [v]) (trace s) (ids s)).

(** [_.cloneDeep(obj)]: a new object with the same contents *)
Definition cloneDeep (l : loc) : M loc :=
  v <- readObject l ;; allocObject v.

(** [aggregateModel.set(data)]: the prototype's set while the gate is open,
    the function that throws while it is closed *)
Definition set (data : value) : M unit :=
  m <- getModel ;;
  if AggregateModel.gate m
  then updateModel (AggregateModel.setFields data)
  else throw (Error "You are not allowed to set a value in this step!").

(** [items.forEach(f)] *)
Fixpoint forEach {A} (items : list A) (f : A -> M unit) : M unit :=
  match items with
  | [] => ret tt
  | x :: rest => f x ;; forEach rest f
  end.

(** [async.eachSeries(items, iteratee, callback)]: one item after the other,
    the first error ends the chain.  The value is the argument of the final
    callback. *)
Fixpoint eachSeries {A} (items : list A) (iteratee : A -> M value) : M value :=
  match items with
  | [] => ret VNull
  | x :: rest =>
      err <- iteratee x ;;
      if truthy err then ret err else eachSeries rest iteratee
  end.

(** ** Definitions registered with an aggregate

    The operations of a definition are business code.  They are embedded by
    what they do through the interface the aggregate grants them: a check
    reads its arguments and answers with the error it passes to its
    callback (a falsy value when it passes); an event's apply and a snapshot
    conversion issue [set] calls on the model; a command's handle drives
    the apply capability. *)

(** What a command's handle does with the model it is given: it reads the
    model and calls [aggregateModel.apply(name, payload)] any number of
    times, each time going on with the model as that call left it.  An
    event object passed as [name] is an object of its own: the handler
    passes no object twice. *)
Inductive script : Type :=
| Done
| Emit (name payload : value) (next : Model -> script).

Record Command : Type := {
  cmd_ref : nat;
  cmd_name : string;
  cmd_version : Z;
  cmd_checkPreConditions : value -> Model -> value;
  cmd_handle : value -> Model -> script
}.

Record Event : Type := {
  evt_ref : nat;
  evt_name : string;
  evt_version : Z;
  evt_payload : string;
  (** the data of the [set] calls that [apply(evt, aggregateModel)] makes *)
  evt_apply : value -> Model -> list value
}.

Record BusinessRule : Type := {
  br_ref : nat;
  br_priority : Z;
  br_check : Model -> Model -> list value -> value -> value
}.

Record PreCondition : Type := {
  pc_ref : nat;
  pc_priority : Z;
  pc_payload : string;
  (** from the contents of the command object it is handed and the model:
      the contents it leaves in that object, and the error *)
  pc_check : value -> Model -> value * value
}.

Record CommandHandler : Type := {
  ch_ref : nat;
  ch_name : string;
  ch_version : Z
}.

(** The field-mapping table [definitions] of the definition base, with the
    entries the aggregate reads. *)
Record CommandPaths : Type := {
  c_id : Dotty.path;
  c_name : Dotty.path;
  c_version : Dotty.path;
  c_meta : Dotty.path;
  c_aggregate : Dotty.path;
  c_context : Dotty.path
}.

Record EventPaths : Type := {
  e_id : Dotty.path;
  e_name : Dotty.path;
  e_payload : Dotty.path;
  e_revision : Dotty.path;
  e_version : Dotty.path;
  e_meta : Dotty.path;
  e_aggregateId : Dotty.path;
  e_correlationId : Dotty.path;
  e_aggregate : Dotty.path;
  e_context : Dotty.path
}.

Record Definitions : Type := {
  command : CommandPaths;
  event : EventPaths
}.

(** [options] of the definition base; [None] is an absent option *)
Record Options : Type := {
  snapshotThreshold : option Z;
  snapshotThresholdMs : option Z
}.

Record Context : Type := { ctx_name : string }.

Record Snapshot : Type := {
  snap_version : Z;
  snap_revision : Z;
  snap_data : value
}.

Module Aggregate.

Record t : Type := mk {
  name : string;
  version : Z;
  options : Options;
  definitions : Definitions;
  context : option Context;
  defaultCommandPayload : string;
  defaultEventPayload : string;
  defaultPreConditionPayload : string;
  commands : list Command;
  events : list Event;
  businessRules : list BusinessRule;
  preConditions : list PreCondition;
  commandHandlers : list CommandHandler;
  (** [snapshotConversions], keyed by the version of the snapshot; a
      conversion is given by the [set] calls it makes on the model *)
  snapshotConversions : list (Z * (value -> Model -> list value));
  (** the outcome [(err, id)] of the n-th call of the injected generator *)
  getNewId : nat -> value * value;
  (** the function installed by [defineSnapshotNeed], if any *)
  snapshotNeed : option (Z -> value -> list (string * value) -> bool);
  defaultCommandHandler : CommandHandler
}.

(** [_.sortBy(list, key)]: a stable ascending sort *)
Section SortBy.
Context {A : Type} (key : A -> Z).

Fixpoint insertBy (x : A) (l : list A) : list A :=
  match l with
  | [] => [x]
  | y :: rest => if key y <=? key x then y :: insertBy x rest else x :: y :: rest
  end.

Definition sortBy (l : list A) : list A :=
  fold_left (fun acc x => insertBy x acc) l [].
End SortBy.

(** [list.indexOf(obj) < 0], objects compared by reference *)
Definition absent {A} (ref : A -> nat) (x : A) (l : list A) : bool :=
  negb (existsb (fun y => Nat.eqb (ref y) (ref x)) l).

Definition withPreConditions (pcs : list PreCondition) (a : t) : t :=
  mk (name a) (version a) (options a) (definitions a) (context a)
     (defaultCommandPayload a) (defaultEventPayload a)
     (defaultPreConditionPayload a) (commands a) (events a)
     (businessRules a) pcs (commandHandlers a) (snapshotConversions a)
     (getNewId a) (snapshotNeed a) (defaultCommandHandler a).

Definition withBusinessRules (brs : list BusinessRule) (a : t) : t :=
  mk (name a) (version a) (options a) (definitions a) (context a)
     (defaultCommandPayload a) (defaultEventPayload a)
     (defaultPreConditionPayload a) (commands a) (events a)
     brs (preConditions a) (commandHandlers a) (snapshotConversions a)
     (getNewId a) (snapshotNeed a) (defaultCommandHandler a).

(** [addPreCondition(preCond)].  The argument is a precondition object, so
    the guard against a missing or non-object argument never fires. *)
Definition addPreCondition (preCond : PreCondition) (a : t) : t :=
  let preCond :=
    if (pc_payload preCond =? "")%string
    then {| pc_ref := pc_ref preCond; pc_priority := pc_priority preCond;
            pc_payload := defaultPreConditionPayload a;
            pc_check := pc_check preCond |}
    else preCond in
  if absent pc_ref preCond (preConditions a)
  then withPreConditions (sortBy pc_priority (preConditions a ++ [preCond])) a
  else a.

(** [addBusinessRule(businessRule)] *)
Definition addBusinessRule (businessRule : BusinessRule) (a : t) : t :=
  if absent br_ref businessRule (businessRules a)
  then withBusinessRules (sortBy br_priority (businessRules a ++ [businessRule])) a
  else a.

(** [getCommand(name, version)] *)
Definition getCommand (a : t) (name version : value) : result (option Command) :=
  if negb (truthy name) || negb (isString name)
  then Throw (Error "Please pass a valid string as name!")
  else
    let version := or_else version (VNum 0) in
    if negb (isNumber version)
    then Throw (Error "Please pass a valid number as version!")
    else Ok (find (fun cmd => str_eq (cmd_name cmd) name
                              && num_eq (cmd_version cmd) version)
                  (commands a)).

(** [getEvent(name, version)] *)
Definition getEvent (a : t) (name version : value) : result (option Event) :=
  if negb (truthy name) || negb (isString name)
  then Throw (Error "Please pass a valid string as name!")
  else
    let version := or_else version (VNum 0) in
    if negb (isNumber version)
    then Throw (Error "Please pass a valid number as version!")
    else Ok (find (fun evt => str_eq (evt_name evt) name
                              && num_eq (evt_version evt) version)
                  (events a)).

(** [getCommandHandler(name, version)] *)
Definition getCommandHandler (a : t) (name version : value)
  : result CommandHandler :=
  if negb (truthy name) || negb (isString name)
  then Throw (Error "Please pass a valid string as name!")
  else
    let version := or_else version (VNum 0) in
    if negb (isNumber version)
    then Throw (Error "Please pass a valid number as version!")
    else
      match find (fun cmdHnd => str_eq (ch_name cmdHnd) name
                                && num_eq (ch_version cmdHnd) version)
                 (commandHandlers a) with
      | Some handler => Ok handler
      | None => Ok (defaultCommandHandler a)
      end.

Definition cp (a : t) : CommandPaths := command (definitions a).
Definition ep (a : t) : EventPaths := event (definitions a).

(** The double quote of the error messages *)
Definition dquote : string := String (Ascii.ascii_of_nat 34) EmptyString.

(** *** The apply capability, [applyHelper] *)

(** The event object that the call starts from *)
Definition newEvent (a : t) (name payload : value) : value :=
  if negb (truthy payload) then
    if isString name then Dotty.put (VObj []) (e_name (ep a)) name
    else if isObject name then name
    else VUndefined
  else
    Dotty.put (Dotty.put (VObj []) (e_name (ep a)) name)
              (e_payload (ep a)) payload.

Definition stampMeta (a : t) (cmd evt : value) : value :=
  if Dotty.configured (e_meta (ep a)) && Dotty.configured (c_meta (cp a))
  then Dotty.put evt (e_meta (ep a)) (Dotty.get cmd (c_meta (cp a)))
  else evt.

(** The reduction over [aggregate.getEvents()] that looks for the latest
    version of the event's name *)
Definition maxVersion (a : t) (evtName : value) : Z :=
  fold_left
    (fun res e =>
       if negb (str_eq (evt_name e) evtName) then res
       else
         let v := if evt_version e =? 0 then 0 else evt_version e in
         if res <? v then v else res)
    (events a) 0.

Definition stampVersion (a : t) (evt : value) : value :=
  if Dotty.configured (e_version (ep a)) then
    if negb (Dotty.exists_ evt (e_version (ep a))) then
      let evtName := Dotty.get evt (e_name (ep a)) in
      Dotty.put evt (e_version (ep a)) (VNum (maxVersion a evtName))
    else evt
  else evt.

Definition stampAggregate (a : t) (cmd evt : value) : value :=
  if Dotty.configured (e_aggregate (ep a))
     && Dotty.configured (c_aggregate (cp a))
  then
    let aggName := Dotty.get cmd (c_aggregate (cp a)) in
    Dotty.put evt (e_aggregate (ep a)) (or_else aggName (VStr (name a)))
  else evt.

(** [aggregate.context.name] is read only when the command names no
    context; without an injected context the read throws. *)
Definition stampContext (a : t) (cmd evt : value) : result value :=
  if Dotty.configured (e_context (ep a))
     && Dotty.configured (c_context (cp a))
  then
    let ctxName := Dotty.get cmd (c_context (cp a)) in
    if truthy ctxName
    then Ok (Dotty.put evt (e_context (ep a)) ctxName)
    else match context a with
         | Some ctx => Ok (Dotty.put evt (e_context (ep a)) (VStr (ctx_name ctx)))
         | None => Throw (Error "Cannot read property 'name' of undefined")
         end
  else Ok evt.

(** [event.apply(evt, aggregateModel)] of a registered event *)
Definition runEventApply (e : Event) (evt : value) : M unit :=
  record (EventApply (evt_ref e)) ;;
  m <- getModel ;;
  forEach (evt_apply e evt m) set.

(** The body of the loop of [apply] *)
Definition applyEvent (a : t) (evt : value) : M unit :=
  let evtName := Dotty.get evt (e_name (ep a)) in
  if negb (truthy evtName)
  then throw (Error ("event has no event name in "
                     ++ Dotty.path_display (e_name (ep a))))
  else
    let version :=
      if Dotty.configured (e_version (ep a))
      then Dotty.get evt (e_version (ep a))
      else VNum 0 in
    event <- lift (getEvent a evtName version) ;;
    match event with
    | None => throw (Error ("Event " ++ dquote ++ to_display evtName
                            ++ dquote ++ " not found!"))
    | Some event => runEventApply event evt
    end.

(** [apply(events, aggregateModel)]: replay of one event or of an array *)
Definition apply (a : t) (events : value) : M unit :=
  if negb (truthy events) then ret tt
  else
    let events := match events with VArr items => items | _ => [events] end in
    forEach events (applyEvent a).

(** The function that [applyHelper(aggregate, aggregateModel, cmd)]
    returns, called with [(name, payload)].  The sum
    [aggregateModel.getRevision() + 1] is the integer sum, which is what
    JavaScript computes for revisions below 2^53. *)
Definition applyHelper (a : t) (cmd : loc) (name payload : value) : M unit :=
  updateModel (AggregateModel.withGate true) ;;
  c <- readObject cmd ;;
  let evt := newEvent a name payload in
  let evt := stampMeta a c evt in
  m <- getModel ;;
  let revision := AggregateModel.getRevision m + 1 in
  updateModel (AggregateModel.setRevision revision) ;;
  let evt := Dotty.put evt (e_revision (ep a)) (VNum revision) in
  let evt := Dotty.put evt (e_aggregateId (ep a)) (VStr (AggregateModel.id m)) in
  let evt := Dotty.put evt (e_correlationId (ep a)) (Dotty.get c (c_id (cp a))) in
  let evt := stampVersion a evt in
  let evt := stampAggregate a c evt in
  evt <- lift (stampContext a c evt) ;;
  updateModel (AggregateModel.addUncommittedEvent evt) ;;
  apply a evt ;;
  updateModel (AggregateModel.withGate false).

(** [command.handle(cmd, aggregateModel)] with the apply function attached *)
Fixpoint runScript (a : t) (cmd : loc) (s : script) : M unit :=
  match s with
  | Done => ret tt
  | Emit name payload next =>
      applyHelper a cmd name payload ;;
      m <- getModel ;;
      runScript a cmd (next m)
  end.

(** *** Preconditions and business rules *)

(** [preCondition.check(cmd, aggregateModel, callback)] on the command
    object [arg] *)
Definition runPreCondition (preCondition : PreCondition) (arg : loc) : M value :=
  record (PreConditionCheck (pc_ref preCondition) arg) ;;
  c <- readObject arg ;;
  m <- getModel ;;
  writeObject arg (fst (pc_check preCondition c m)) ;;
  ret (snd (pc_check preCondition c m)).

(** [checkAggregatePreConditions(cmd, aggregateModel, callback)]; the value
    is the argument of the callback *)
Definition checkAggregatePreConditions (a : t) (cmd : loc) : M value :=
  if (List.length (preConditions a) =? 0)%nat then ret VNull
  else
    eachSeries (preConditions a)
      (fun preCondition =>
         copy <- cloneDeep cmd ;;
         runPreCondition preCondition copy).

(** [checkPreConditions(cmd, aggregateModel, callback)] *)
Definition checkPreConditions (a : t) (cmd : loc) : M value :=
  err <- checkAggregatePreConditions a cmd ;;
  if truthy err then ret err
  else
    c <- readObject cmd ;;
    let cmdName := Dotty.get c (c_name (cp a)) in
    if negb (truthy cmdName)
    then throw (Error ("command has no command name in "
                       ++ Dotty.path_display (c_name (cp a))))
    else
      let version :=
        if Dotty.configured (c_version (cp a))
        then Dotty.get c (c_version (cp a))
        else VNum 0 in
      command <- lift (getCommand a cmdName version) ;;
      match command with
      | None => throw (Error ("Command " ++ dquote ++ to_display cmdName
                              ++ dquote ++ " not found!"))
      | Some command =>
          record (CommandPreConditions (cmd_ref command) cmd) ;;
          m <- getModel ;;
          ret (cmd_checkPreConditions command c m)
      end.

(** [checkBusinessRules(changed, previous, events, command, callback)];
    [changed] is the model of the state. *)
Definition checkBusinessRules (a : t) (previous : Model) (events : list value)
    (command : loc) : M value :=
  eachSeries (businessRules a)
    (fun rule =>
       record (BusinessRuleCheck (br_ref rule) command) ;;
       changed <- getModel ;;
       c <- readObject command ;;
       ret (br_check rule changed previous events c)).

(** *** The command pipeline, [handle] *)

(** [self.getNewId(callback)]: the arguments [(err, id)] of the callback *)
Definition newId (a : t) : M (value * value) :=
  fun s => (Ok (getNewId a (ids s)),
            mkState (model s) (store s) (trace s ++ [NewId (ids s)]) (S (ids s))).

(** [async.each(items, iteratee, callback)].  The iteratee answers with its
    error and with the item as it leaves it.  The calls complete in the
    order in which they were started, as they do with a synchronous id
    generator.  The value is the argument of the final callback and the
    items as they are when it is called. *)
Fixpoint each (items : list value) (iteratee : value -> M (value * value))
  : M (value * list value) :=
  match items with
  | [] => ret (VNull, [])
  | x :: rest =>
      r <- iteratee x ;;
      if truthy (fst r) then ret (fst r, snd r :: rest)
      else
        r' <- each rest iteratee ;;
        ret (fst r', snd r :: snd r')
  end.

(** The iteratee of the id-assignment step *)
Definition assignEventId (a : t) (evt : value) : M (value * value) :=
  let isEvtIdDefined := truthy (Dotty.get evt (e_id (ep a))) in
  if isEvtIdDefined then ret (VNull, evt)
  else
    r <- newId a ;;
    if truthy (fst r) then ret (fst r, evt)
    else ret (VNull, Dotty.put evt (e_id (ep a)) (snd r)).

(** The id-assignment step with its effect on the event objects of the
    model's buffer *)
Definition assignEventIds (a : t) : M value :=
  m <- getModel ;;
  let uncommittedEvents := AggregateModel.getUncommittedEvents m in
  r <- each uncommittedEvents (assignEventId a) ;;
  updateModel (AggregateModel.withUncommittedEvents (snd r)) ;;
  ret (fst r).

(** [handle(aggregateModel, cmd, callback)].  [Ok err] stands for the call
    [callback(err)], [Throw e] for an exception that leaves [handle]. *)
Definition handle (a : t) (cmd : loc) : M value :=
  c <- readObject cmd ;;
  let cmdName := Dotty.get c (c_name (cp a)) in
  if negb (truthy cmdName)
  then ret (Error ("command has no command name in "
                   ++ Dotty.path_display (c_name (cp a))))
  else
    let version :=
      if Dotty.configured (c_version (cp a))
      then Dotty.get c (c_version (cp a))
      else VNum 0 in
    command <- lift (getCommand a cmdName version) ;;
    match command with
    | None => ret (Error ("Command " ++ dquote ++ to_display cmdName
                          ++ dquote ++ " not found!"))
    | Some command =>
        updateModel (AggregateModel.withGate false) ;;
        err <- checkPreConditions a cmd ;;
        if truthy err then ret err
        else
          m <- getModel ;;
          let previousModel :=
            AggregateModel.new (AggregateModel.id m) (AggregateModel.toJSON m) in
          c <- readObject cmd ;;
          record (CommandHandle (cmd_ref command) cmd) ;;
          runScript a cmd (cmd_handle command c m) ;;
          err <- assignEventIds a ;;
          if truthy err then ret err
          else
            m <- getModel ;;
            err <- checkBusinessRules a previousModel
                     (AggregateModel.getUncommittedEvents m) cmd ;;
            if negb (truthy err) then ret VNull
            else
              updateModel
                (AggregateModel.reset (AggregateModel.toJSON previousModel)) ;;
              updateModel AggregateModel.clearUncommittedEvents ;;
              ret err
    end.

(** *** Snapshots and history *)

(** The default [isSnapshotNeeded(loadingTime, events, aggregateModel)].
    [events] is the array that [loadFromHistory] passes on; the count is
    read from its length.  Where the source would read the length of
    [undefined] or [null] it fails, a call that the statements leave
    aside. *)
Definition isSnapshotNeeded (a : t) (loadingTime : Z) (events : value)
    (aggregateModel : list (string * value)) : bool :=
  let snapshotThreshold :=
    match snapshotThreshold (options a) with
    | Some n => if negb (n =? 0) then n else 100
    | None => 100
    end in
  let byCount :=
    match length_of events with
    | Some len => snapshotThreshold <=? len
    | None => false
    end in
  match snapshotThresholdMs (options a) with
  | Some ms => if negb (ms =? 0) then ms <=? loadingTime else byCount
  | None => byCount
  end.

(** [this.isSnapshotNeeded]: the default, or the function that
    [defineSnapshotNeed] put in its place *)
Definition snapshotNeeded (a : t) : Z -> value -> list (string * value) -> bool :=
  match snapshotNeed a with
  | Some fn => fn
  | None => isSnapshotNeeded a
  end.

(** [this.snapshotConversions[version]] *)
Fixpoint conversionFor (convs : list (Z * (value -> Model -> list value)))
    (v : Z) : option (value -> Model -> list value) :=
  match convs with
  | [] => None
  | (v', fn) :: rest => if v =? v' then Some fn else conversionFor rest v
  end.

(** The reduction of [loadFromHistory] over the revisions of the events.
    An event whose revision is a number takes part with that number, an
    event without a revision never compares greater.  A revision of
    another type, which JavaScript would convert for the comparison and
    which could then become the revision of the model, has no counterpart
    in a model with integer revisions: the statements about this
    reduction are about events whose revision is a number or missing. *)
Definition maxRevision (a : t) (events : list value) : Z :=
  fold_left
    (fun res evt =>
       match Dotty.get evt (e_revision (ep a)) with
       | VNum rev => if res <? rev then rev else res
       | _ => res
       end)
    events 0.

(** The branch of [loadFromHistory] for a given snapshot; the value is the
    flag [isSnapshotNeeded] that the branch leaves. *)
Definition loadSnapshot (a : t) (snapshot : Snapshot) : M bool :=
  isSnapshotNeeded <-
    (if snap_version snapshot =? version a
     then set (snap_data snapshot) ;; ret false
     else
       match conversionFor (snapshotConversions a) (snap_version snapshot) with
       | None => throw (Error "No snapshot conversion defined!")
       | Some conversion =>
           record (SnapshotConversion (snap_version snapshot)) ;;
           m <- getModel ;;
           forEach (conversion (snap_data snapshot) m) set ;;
           ret true
       end) ;;
  updateModel (AggregateModel.setRevision (snap_revision snapshot)) ;;
  ret isSnapshotNeeded.

(** [loadFromHistory(aggregateModel, snapshot, events, loadingTime)] *)
Definition loadFromHistory (a : t) (snapshot : option Snapshot)
    (events : value) (loadingTime : Z) : M bool :=
  isSnapshotNeeded <-
    match snapshot with
    | Some snapshot => loadSnapshot a snapshot
    | None => ret false
    end ;;
  if truthy events
     && match length_of events with Some len => 0 <? len | None => false end
  then
    let maxRevision :=
      maxRevision a (match events with VArr items => items | _ => [] end) in
    apply a events ;;
    updateModel (AggregateModel.setRevision maxRevision) ;;
    if negb isSnapshotNeeded
    then
      m <- getModel ;;
      ret (snapshotNeeded a loadingTime events (AggregateModel.toJSON m))
    else ret isSnapshotNeeded
  else ret isSnapshotNeeded.

(** *** Further registry and bootstrap operations *)

Definition withEvents (evts : list Event) (a : t) : t :=
  mk (name a) (version a) (options a) (definitions a) (context a)
     (defaultCommandPayload a) (defaultEventPayload a)
     (defaultPreConditionPayload a) (commands a) evts
     (businessRules a) (preConditions a) (commandHandlers a)
     (snapshotConversions a) (getNewId a) (snapshotNeed a)
     (defaultCommandHandler a).

Definition withSnapshotConversions
    (convs : list (Z * (value -> Model -> list value))) (a : t) : t :=
  mk (name a) (version a) (options a) (definitions a) (context a)
     (defaultCommandPayload a) (defaultEventPayload a)
     (defaultPreConditionPayload a) (commands a) (events a)
     (businessRules a) (preConditions a) (commandHandlers a)
     convs (getNewId a) (snapshotNeed a) (defaultCommandHandler a).

Definition withGetNewId (fn : nat -> value * value) (a : t) : t :=
  mk (name a) (version a) (options a) (definitions a) (context a)
     (defaultCommandPayload a) (defaultEventPayload a)
     (defaultPreConditionPayload a) (commands a) (events a)
     (businessRules a) (preConditions a) (commandHandlers a)
     (snapshotConversions a) fn (snapshotNeed a) (defaultCommandHandler a).

Definition withSnapshotNeed
    (fn : option (Z -> value -> list (string * value) -> bool)) (a : t) : t :=
  mk (name a) (version a) (options a) (definitions a) (context a)
     (defaultCommandPayload a) (defaultEventPayload a)
     (defaultPreConditionPayload a) (commands a) (events a)
     (businessRules a) (preConditions a) (commandHandlers a)
     (snapshotConversions a) (getNewId a) fn (defaultCommandHandler a).

(** The function handed to [idGenerator(fn)]: one that declares no
    parameter and returns the id, or one that takes the callback.  Either
    is given by what its n-th call yields. *)
Inductive generator : Type :=
| Synchronous (fn : nat -> value)
| WithCallback (fn : nat -> value * value).

(** [idGenerator(fn)]: a function without parameters is wrapped into
    [callback(null, func())]. *)
Definition idGenerator (fn : generator) (a : t) : t :=
  withGetNewId
    (match fn with
     | Synchronous func => fun n => (VNull, func n)
     | WithCallback fn => fn
     end)
    a.

(** [addEvent(event)].  The argument is an event definition, so the guard
    against a missing or non-object argument never fires. *)
Definition addEvent (event : Event) (a : t) : t :=
  let event :=
    if (evt_payload event =? "")%string
    then {| evt_ref := evt_ref event; evt_name := evt_name event;
            evt_version := evt_version event;
            evt_payload := defaultEventPayload a;
            evt_apply := evt_apply event |}
    else event in
  if absent evt_ref event (events a)
  then withEvents (events a ++ [event]) a
  else a.

(** [getCommandsByName(name)] *)
Definition getCommandsByName (a : t) (name : value) : result (list Command) :=
  if negb (truthy name) || negb (isString name)
  then Throw (Error "Please pass a valid string as name!")
  else Ok (filter (fun cmd => str_eq (cmd_name cmd) name) (commands a)).

(** [validateCommand(cmd)]; [validate] stands for the [validate] operation
    of the command definitions. *)
Definition validateCommand (validate : Command -> value -> value) (a : t)
    (cmd : value) : result value :=
  let cmdName := Dotty.get cmd (c_name (cp a)) in
  if negb (truthy cmdName)
  then Throw (Error ("command has no command name in "
                     ++ Dotty.path_display (c_name (cp a))))
  else
    let version :=
      if Dotty.configured (c_version (cp a))
      then Dotty.get cmd (c_version (cp a))
      else VNum 0 in
    match getCommand a cmdName version with
    | Throw e => Throw e
    | Ok None => Throw (Error ("Command " ++ dquote ++ to_display cmdName
                               ++ dquote ++ " not found!"))
    | Ok (Some command) => Ok (validate command cmd)
    end.

(** [defineSnapshotNeed(fn)]; the argument is a function. *)
Definition defineSnapshotNeed
    (fn : Z -> value -> list (string * value) -> bool) (a : t) : t :=
  withSnapshotNeed (Some fn) a.

(** [this.snapshotConversions[version] = fn] *)
Fixpoint setConversion (v : Z) (fn : value -> Model -> list value)
    (convs : list (Z * (value -> Model -> list value)))
  : list (Z * (value -> Model -> list value)) :=
  match convs with
  | [] => [(v, fn)]
  | (v', fn') :: rest =>
      if v =? v' then (v, fn) :: rest else (v', fn') :: setConversion v fn rest
  end.

(** [defineSnapshotConversion(meta, fn)]; [fn] is a function. *)
Definition defineSnapshotConversion (meta : value)
    (fn : value -> Model -> list value) (a : t) : result t :=
  match meta with
  | VObj fields =>
      match own "version" fields with
      | Some (VNum v) =>
          Ok (withSnapshotConversions
                (setConversion v fn (snapshotConversions a)) a)
      | _ => Throw (Error "Please pass in a version")
      end
  | _ => Throw (Error "Please pass in a version")
  end.

End Aggregate.

(** ** A small aggregate for closed examples *)

Module Sample.

(** The field mapping that the definition base starts with *)
Definition definitions : Definitions :=
  {| command := {| c_id := Some "id"; c_name := Some "name";
                   c_version := None; c_meta := None;
                   c_aggregate := None; c_context := None |};
     event := {| e_id := Some "id"; e_name := Some "name";
                 e_payload := Some "payload"; e_revision := Some "revision";
                 e_version := None; e_meta := None;
                 e_aggregateId := Some "aggregate.id";
                 e_correlationId := Some "correlationId";
                 e_aggregate := None; e_context := None |} |}.

(** The same mapping with versions of commands and events switched on *)
Definition versionedDefinitions : Definitions :=
  {| command := {| c_id := Some "id"; c_name := Some "name";
                   c_version := Some "version"; c_meta := None;
                   c_aggregate := None; c_context := None |};
     event := {| e_id := Some "id"; e_name := Some "name";
                 e_payload := Some "payload"; e_revision := Some "revision";
                 e_version := Some "version"; e_meta := None;
                 e_aggregateId := Some "aggregate.id";
                 e_correlationId := Some "correlationId";
                 e_aggregate := None; e_context := None |} |}.

Definition noOptions : Options :=
  {| snapshotThreshold := None; snapshotThresholdMs := None |}.

Definition defaultHandler : CommandHandler :=
  {| ch_ref := 0; ch_name := ""; ch_version := 0 |}.

(** An id generator that numbers its ids *)
Definition countingIds (n : nat) : value * value :=
  (VNull, VNum (Z.of_nat n + 1000)).

(** An id generator that fails *)
Definition failingIds (n : nat) : value * value :=
  (Error "no id", VUndefined).

(** [personEntered] puts its payload into the model. *)
Definition personEntered : Event :=
  {| evt_ref := 10; evt_name := "personEntered"; evt_version := 0;
     evt_payload := "payload";
     evt_apply := fun evt _ => [Dotty.get evt (Some "payload")] |}.

Definition personEnteredV2 : Event :=
  {| evt_ref := 11; evt_name := "personEntered"; evt_version := 2;
     evt_payload := "payload";
     evt_apply := fun evt _ => [Dotty.get evt (Some "payload")] |}.

(** [enterPerson] applies one [personEntered] event with the command's
    payload. *)
Definition enterPerson : Command :=
  {| cmd_ref := 20; cmd_name := "enterPerson"; cmd_version := 0;
     cmd_checkPreConditions := fun _ _ => VNull;
     cmd_handle := fun cmd _ =>
       Emit (VStr "personEntered") (Dotty.get cmd (Some "payload"))
            (fun _ => Done) |}.

Definition empty (opts : Options) (defs : Definitions)
    (gen : nat -> value * value) : Aggregate.t :=
  Aggregate.mk "person" 0 opts defs None "" "" "" [] [] [] [] [] []
               gen None defaultHandler.

Definition person (gen : nat -> value * value) : Aggregate.t :=
  Aggregate.mk "person" 0 noOptions definitions None "" "" ""
               [enterPerson] [personEntered] [] [] [] []
               gen None defaultHandler.

(** The command [{ id: 'c1', name: 'enterPerson', payload: { name: 'Jo' } }] *)
Definition enterJo : value :=
  VObj [("id", VStr "c1"); ("name", VStr "enterPerson");
        ("payload", VObj [("name", VStr "Jo")])].

Definition start (m : Model) (cmd : value) : State :=
  mkState m [cmd] [] 0.

(** A precondition that wipes the command object it is handed, and passes *)
Definition wiping : PreCondition :=
  {| pc_ref := 30; pc_priority := 2; pc_payload := "";
     pc_check := fun _ _ => (VObj [], VNull) |}.

(** A precondition that rejects every command *)
Definition rejecting : PreCondition :=
  {| pc_ref := 31; pc_priority := 1; pc_payload := "";
     pc_check := fun c _ => (c, Error "rejected") |}.

Definition wiped (gen : nat -> value * value) : Aggregate.t :=
  Aggregate.addPreCondition wiping (person gen).

Definition guarded (gen : nat -> value * value) : Aggregate.t :=
  Aggregate.addPreCondition rejecting (wiped gen).

(** An aggregate with two versions of [personEntered] and versioned events *)
Definition versioned : Aggregate.t :=
  Aggregate.mk "person" 0 noOptions versionedDefinitions None "" "" ""
               [enterPerson] [personEntered; personEnteredV2] [] [] [] []
               countingIds None defaultHandler.

(** A business rule that no change satisfies *)
Definition rejectingRule : BusinessRule :=
  {| br_ref := 40; br_priority := 0;
     br_check := fun _ _ _ _ => Error "rule broken" |}.

Definition ruled (gen : nat -> value * value) : Aggregate.t :=
  Aggregate.addBusinessRule rejectingRule (person gen).

(** An event that an earlier handling left in the buffer *)
Definition leftOver : value :=
  VObj [("name", VStr "personEntered"); ("id", VStr "e0")].



(** A command handler of its own for [enterPerson] *)
Definition enterPersonHandler : CommandHandler :=
  {| ch_ref := 50; ch_name := "enterPerson"; ch_version := 0 |}.

Definition handled : Aggregate.t :=
  Aggregate.mk "person" 0 noOptions definitions None "" "" ""
               [enterPerson] [personEntered] [] [] [enterPersonHandler] []
               countingIds None defaultHandler.

(** An aggregate with versioned events whose only definition of
    [personEntered] has a negative version *)
Definition personEnteredOld : Event :=
  {| evt_ref := 12; evt_name := "personEntered"; evt_version := -1;
     evt_payload := "payload";
     evt_apply := fun evt _ => [Dotty.get evt (Some "payload")] |}.

Definition outdated : Aggregate.t :=
  Aggregate.mk "person" 0 noOptions versionedDefinitions None "" "" ""
               [enterPerson] [personEnteredOld] [] [] [] []
               countingIds None defaultHandler.

End Sample.

(** ** Vocabulary of the statements *)

(** A handler registered for this name and version *)
Definition handlerMatches (name : string) (version : Z) (h : CommandHandler) : bool :=
  str_eq (ch_name h) (VStr name) && num_eq (ch_version h) (VNum version).


(** The trace of the aggregate-level checks of [pcs] when the first of them
    is handed the object [l] and each following one the next object *)
Fixpoint checkEntries (l : loc) (pcs : list PreCondition) : list call :=
  match pcs with
  | [] => []
  | pc :: rest => PreConditionCheck (pc_ref pc) l :: checkEntries (S l) rest
  end.

(** The precondition answers without an error for the command contents [c]
    and the model [m]. *)
Definition passes (c : value) (m : Model) (pc : PreCondition) : Prop :=
  truthy (snd (pc_check pc c m)) = false.

(** The preconditions of [pcs] up to the first one that answers with an
    error, and that error *)
Fixpoint checked (c : value) (m : Model) (pcs : list PreCondition)
  : list PreCondition :=
  match pcs with
  | [] => []
  | pc :: rest =>
      if truthy (snd (pc_check pc c m)) then [pc] else pc :: checked c m rest
  end.

Fixpoint chainError (c : value) (m : Model) (pcs : list PreCondition) : value :=
  match pcs with
  | [] => VNull
  | pc :: rest =>
      if truthy (snd (pc_check pc c m)) then snd (pc_check pc c m)
      else chainError c m rest
  end.



(** The path can be written in the object: dotty's put succeeds there. *)
Definition writable (o : value) (p : Dotty.path) : Prop :=
  Dotty.put_keys o (Dotty.keys p) VUndefined <> None.

(** Two key sequences part ways at some key: neither leads into the other. *)
Fixpoint diverge (p q : list string) : bool :=
  match p, q with
  | k :: p', k' :: q' => if (k =? k')%string then diverge p' q' else true
  | _, _ => false
  end.

(** A write at [q] stays clear of [p]: [q] is not configured, or the two
    paths part ways. *)
Definition apart (p q : Dotty.path) : bool :=
  match q with
  | None => true
  | Some _ => diverge (Dotty.keys p) (Dotty.keys q)
  end.

(** The event definition is registered under the name that the event
    carries. *)
Definition named (a : Aggregate.t) (evt : value) (e : Event) : Prop :=
  str_eq (evt_name e) (Dotty.get evt (e_name (Aggregate.ep a))) = true.

(** The paths other than the revision at which the apply capability
    writes *)
Definition stampedPaths (a : Aggregate.t) : list Dotty.path :=
  let ev := Aggregate.ep a in
  [e_name ev; e_payload ev; e_meta ev; e_aggregateId ev; e_correlationId ev;
   e_version ev; e_aggregate ev; e_context ev].

(** The revision has a path of its own in the field mapping: it is
    configured and no other stamp is written at it, above it or below
    it. *)
Definition revisionPathOwn (a : Aggregate.t) : Prop :=
  e_revision (Aggregate.ep a) <> None
  /\ Forall (fun q => apart (e_revision (Aggregate.ep a)) q = true)
            (stampedPaths a).

(** A call of the apply function with the name of an event, or with an
    event object in which the revision can be written *)
Definition emits (a : Aggregate.t) (call : value * value) : Prop :=
  isString (fst call) = true
  \/ (truthy (snd call) = false
      /\ writable (fst call) (e_revision (Aggregate.ep a))).

(** The calls [(name, payload)] of the apply function, one after the
    other *)
Fixpoint applyAll (a : Aggregate.t) (cmd : loc) (calls : list (value * value))
  : M unit :=
  match calls with
  | [] => ret tt
  | call :: rest =>
      Aggregate.applyHelper a cmd (fst call) (snd call) ;;
      applyAll a cmd rest
  end.

(** What a stage may change without touching the revision, the buffer of
    uncommitted events, the object store or the id generator *)
Definition bookkeepingKept (s s' : State) : Prop :=
  AggregateModel.revision (model s') = AggregateModel.revision (model s)
  /\ AggregateModel.uncommittedEvents (model s')
     = AggregateModel.uncommittedEvents (model s)
  /\ AggregateModel.id (model s') = AggregateModel.id (model s)
  /\ store s' = store s
  /\ ids s' = ids s.

(** The event object that a call of the apply function completes, for the
    contents [c] of the command, the id of the model and the new
    revision *)
Definition envelope (a : Aggregate.t) (c : value) (aggregateId : string)
    (revision : Z) (name payload : value) : result value :=
  let ev := Aggregate.ep a in
  let evt := Aggregate.stampMeta a c (Aggregate.newEvent a name payload) in
  let evt := Dotty.put evt (e_revision ev) (VNum revision) in
  let evt := Dotty.put evt (e_aggregateId ev) (VStr aggregateId) in
  let evt := Dotty.put evt (e_correlationId ev)
               (Dotty.get c (c_id (Aggregate.cp a))) in
  Aggregate.stampContext a c
    (Aggregate.stampAggregate a c (Aggregate.stampVersion a evt)).

(** The state in which [handle] starts its checks: the gate is closed. *)
Definition gateClosed (s : State) : State :=
  mkState (AggregateModel.withGate false (model s)) (store s) (trace s) (ids s).

(** The copy of the model that [handle] keeps for a rollback *)
Definition previousModelOf (s : State) : Model :=
  AggregateModel.new (AggregateModel.id (model s))
                     (AggregateModel.toJSON (model s)).

(** The state in which the command's handle starts *)
Definition handling (command : Command) (cmd : loc) (s : State) : State :=
  mkState (model s) (store s)
          (trace s ++ [CommandHandle (cmd_ref command) cmd]) (ids s).

(** The state after the clean-up of [handle] *)
Definition rolledBack (previous : Model) (s : State) : State :=
  mkState
    (AggregateModel.clearUncommittedEvents
       (AggregateModel.reset (AggregateModel.toJSON previous) (model s)))
    (store s) (trace s) (ids s).

(** What the id-assignment step makes of an event: an event with a truthy
    value at the id path is left as it is; any other event gets the id of
    a successful call of the generator written at the id path, and
    carries it there if the path can be written in the event. *)
Definition backfilled (a : Aggregate.t) (evt evt' : value) : Prop :=
  let idPath := e_id (Aggregate.ep a) in
  (truthy (Dotty.get evt idPath) = true -> evt' = evt)
  /\ (truthy (Dotty.get evt idPath) = false ->
      exists n : nat,
        truthy (fst (Aggregate.getNewId a n)) = false
        /\ evt' = Dotty.put evt idPath (snd (Aggregate.getNewId a n))
        /\ (writable evt idPath ->
            Dotty.get evt' idPath = snd (Aggregate.getNewId a n))).

Definition isNewId (c : call) : Prop := exists n, c = NewId n.

Definition isBusinessRuleCheck (c : call) : Prop :=
  exists ref l, c = BusinessRuleCheck ref l.

Definition isPreConditionCall (c : call) : Prop :=
  exists ref l, c = PreConditionCheck ref l \/ c = CommandPreConditions ref l.


(** The model after the [set] calls with the given data, in their order *)
Definition afterSets (datas : list value) (m : Model) : Model :=
  fold_left (fun m data => AggregateModel.setFields data m) datas m.

(** ** Vocabulary of the further properties *)

(** The definition as the registry keeps it: an empty payload path is
    replaced by the aggregate's default. *)
Definition registeredPreCondition (a : Aggregate.t) (preCond : PreCondition)
  : PreCondition :=
  if (pc_payload preCond =? "")%string
  then {| pc_ref := pc_ref preCond; pc_priority := pc_priority preCond;
          pc_payload := Aggregate.defaultPreConditionPayload a;
          pc_check := pc_check preCond |}
  else preCond.

Definition registeredEvent (a : Aggregate.t) (event : Event) : Event :=
  if (evt_payload event =? "")%string
  then {| evt_ref := evt_ref event; evt_name := evt_name event;
          evt_version := evt_version event;
          evt_payload := Aggregate.defaultEventPayload a;
          evt_apply := evt_apply event |}
  else event.

(** An event definition registered for this name and version *)
Definition eventMatches (name : string) (version : Z) (e : Event) : bool :=
  str_eq (evt_name e) (VStr name) && num_eq (evt_version e) (VNum version).

(** The name and the version under which [handle], [validateCommand] and
    [checkPreConditions] look up the command *)
Definition commandName (a : Aggregate.t) (c : value) : value :=
  Dotty.get c (c_name (Aggregate.cp a)).

Definition commandVersion (a : Aggregate.t) (c : value) : value :=
  if Dotty.configured (c_version (Aggregate.cp a))
  then Dotty.get c (c_version (Aggregate.cp a))
  else VNum 0.

Definition noNameError (a : Aggregate.t) : value :=
  Error ("command has no command name in "
         ++ Dotty.path_display (c_name (Aggregate.cp a))).

Definition notFoundError (a : Aggregate.t) (c : value) : value :=
  Error ("Command " ++ Aggregate.dquote ++ to_display (commandName a c)
         ++ Aggregate.dquote ++ " not found!").

(** The version under which replay looks up the definition of an event *)
Definition eventVersion (a : Aggregate.t) (evt : value) : value :=
  if Dotty.configured (e_version (Aggregate.ep a))
  then Dotty.get evt (e_version (Aggregate.ep a))
  else VNum 0.

Definition eventNotFoundError (a : Aggregate.t) (evt : value) : value :=
  Error ("Event " ++ Aggregate.dquote
         ++ to_display (Dotty.get evt (e_name (Aggregate.ep a)))
         ++ Aggregate.dquote ++ " not found!").

(** The objects that the aggregate-level preconditions [pcs] leave behind
    in the store, for the command contents [c] and the model [m] *)
Definition copiesLeft (c : value) (m : Model) (pcs : list PreCondition)
  : list value :=
  map (fun pc => fst (pc_check pc c m)) pcs.

Definition isEventApply (c : call) : Prop := exists ref, c = EventApply ref.

(** What replay may do to the state: write fields of the model and call
    event definitions, nothing else. *)
Definition replayed (s s' : State) : Prop :=
  AggregateModel.revision (model s') = AggregateModel.revision (model s)
  /\ AggregateModel.uncommittedEvents (model s')
     = AggregateModel.uncommittedEvents (model s)
  /\ AggregateModel.id (model s') = AggregateModel.id (model s)
  /\ AggregateModel.gate (model s') = AggregateModel.gate (model s)
  /\ store s' = store s
  /\ ids s' = ids s
  /\ exists calls : list call,
       trace s' = (trace s ++ calls)%list /\ Forall isEventApply calls.

(** Aggregates whose business rules were registered through
    [addBusinessRule] *)
Inductive rulesBootstrapped : Aggregate.t -> Prop :=
| rules_new (a : Aggregate.t) :
    Aggregate.businessRules a = [] -> rulesBootstrapped a
| rules_addBusinessRule (rule : BusinessRule) (a : Aggregate.t) :
    rulesBootstrapped a -> rulesBootstrapped (Aggregate.addBusinessRule rule a).

Definition byRulePriority (p q : BusinessRule) : Prop :=
  br_priority p <= br_priority q.

(** The trace of the checks of the business rules [rules] *)
Definition ruleEntries (cmd : loc) (rules : list BusinessRule) : list call :=
  map (fun rule => BusinessRuleCheck (br_ref rule) cmd) rules.

(** A path of the event mapping that is configured and at which, above
    which and below which none of the [others] is written *)
Definition pathOwn (p : Dotty.path) (others : list Dotty.path) : Prop :=
  p <> None /\ Forall (fun q => apart p q = true) others.

Definition aggregateIdPathOwn (a : Aggregate.t) : Prop :=
  let ev := Aggregate.ep a in
  pathOwn (e_aggregateId ev)
    [e_name ev; e_payload ev; e_meta ev; e_revision ev; e_correlationId ev;
     e_version ev; e_aggregate ev; e_context ev].

Definition correlationIdPathOwn (a : Aggregate.t) : Prop :=
  let ev := Aggregate.ep a in
  pathOwn (e_correlationId ev)
    [e_name ev; e_payload ev; e_meta ev; e_revision ev; e_aggregateId ev;
     e_version ev; e_aggregate ev; e_context ev].

(** A call of the apply function with the name of an event, or with an
    event object in which both ids can be written *)
Definition emitsIdentified (a : Aggregate.t) (name payload : value) : Prop :=
  isString name = true
  \/ (truthy payload = false
      /\ writable name (e_aggregateId (Aggregate.ep a))
      /\ writable name (e_correlationId (Aggregate.ep a))).

Definition isCommandHandle (c : call) : Prop :=
  exists ref l, c = CommandHandle ref l.

(** The calls of one handling, stage by stage: the checks of the
    preconditions, the call of the command's handle, the applies of the
    emitted events, the requests for ids, the checks of the business
    rules *)
Definition inStageOrder (calls : list call) : Prop :=
  exists checks handles applies requests rules : list call,
    calls = (checks ++ handles ++ applies ++ requests ++ rules)%list
    /\ Forall isPreConditionCall checks
    /\ Forall isCommandHandle handles
    /\ (List.length handles <= 1)%nat
    /\ Forall isEventApply applies
    /\ Forall isNewId requests
    /\ Forall isBusinessRuleCheck rules
    /\ (handles = [] -> applies = [] /\ requests = [] /\ rules = []).

(** ** Vocabulary of the pinned stages and of the bounds *)

(** An integer that JavaScript's numbers hold exactly and from which the
    sums with 1 that stay in this range are exact *)
Definition safeInteger (z : Z) : Prop := - 2 ^ 53 <= z <= 2 ^ 53.

(** The state in which [handle] leaves the check of the preconditions *)
Definition checkedState (a : Aggregate.t) (cmd : loc) (s : State) : State :=
  snd (Aggregate.checkPreConditions a cmd (gateClosed s)).

(** The run of the handle of the resolved command inside [handle]: it is
    called with the command object and the model as the check of the
    preconditions left them. *)
Definition handlerRun (a : Aggregate.t) (cmd : loc) (command : Command)
    (s : State) : result unit * State :=
  let s1 := checkedState a cmd s in
  Aggregate.runScript a cmd
    (cmd_handle command (deref (store s1) cmd) (model s1))
    (handling command cmd s1).

(** The state in which that run ends: the buffer of its model is what
    enters the id-assignment step. *)
Definition handledState (a : Aggregate.t) (cmd : loc) (command : Command)
    (s : State) : State :=
  snd (handlerRun a cmd command s).

(** The buffer that the id-assignment step leaves when every call of the
    id generator succeeds and the calls are numbered from [n]: an event
    with a truthy id is kept, each other event gets the id of the next
    call. *)
Fixpoint backfill (a : Aggregate.t) (n : nat) (evts : list value) : list value :=
  match evts with
  | [] => []
  | evt :: rest =>
      if truthy (Dotty.get evt (e_id (Aggregate.ep a)))
      then evt :: backfill a n rest
      else Dotty.put evt (e_id (Aggregate.ep a)) (snd (Aggregate.getNewId a n))
           :: backfill a (S n) rest
  end.

(** The event that a call of the apply function has constructed when it
    comes to the version: name, payload, meta data, revision and the two
    ids are in place. *)
Definition constructedEvent (a : Aggregate.t) (c : value) (aggregateId : string)
    (revision : Z) (name payload : value) : value :=
  let ev := Aggregate.ep a in
  let evt := Aggregate.stampMeta a c (Aggregate.newEvent a name payload) in
  let evt := Dotty.put evt (e_revision ev) (VNum revision) in
  let evt := Dotty.put evt (e_aggregateId ev) (VStr aggregateId) in
  Dotty.put evt (e_correlationId ev) (Dotty.get c (c_id (Aggregate.cp a))).

(** The version has a path of its own in the field mapping: it is
    configured and no other stamp is written at it, above it or below
    it. *)
Definition versionPathOwn (a : Aggregate.t) : Prop :=
  let ev := Aggregate.ep a in
  Dotty.configured (e_version ev) = true
  /\ Forall (fun q => apart (e_version ev) q = true)
       [e_name ev; e_payload ev; e_meta ev; e_revision ev; e_aggregateId ev;
        e_correlationId ev; e_aggregate ev; e_context ev].

(** A call of the apply function with the name of an event, or with an
    event object in which the version can be written *)
Definition emitsVersioned (a : Aggregate.t) (name payload : value) : Prop :=
  isString name = true
  \/ (truthy payload = false
      /\ writable name (e_version (Aggregate.ep a))).

(** The largest of 0 and the versions of the event definitions registered
    under the name that the event carries *)
Definition latestVersion (a : Aggregate.t) (evt : value) (v : Z) : Prop :=
  0 <= v
  /\ (forall e, In e (Aggregate.events a) -> named a evt e -> evt_version e <= v)
  /\ (v = 0
      \/ exists e, In e (Aggregate.events a) /\ named a evt e /\ evt_version e = v).

(** The revision of the event is a number, or the event has none. *)
Definition revisionNumbered (a : Aggregate.t) (evt : value) : Prop :=
  isNumber (Dotty.get evt (e_revision (Aggregate.ep a))) = true
  \/ Dotty.get evt (e_revision (Aggregate.ep a)) = VUndefined.
(** * Properties *)

Import Aggregate.

Local Open Scope list_scope.

(** ** dotty *)

Example split_aggregate_id : Dotty.split "aggregate.id" = ["aggregate"; "id"].
Proof. reflexivity. Qed.

Example put_nested :
  Dotty.put (VObj [("name", VStr "n")]) (Some "aggregate.id") (VStr "a1")
  = VObj [("name", VStr "n"); ("aggregate", VObj [("id", VStr "a1")])].
Proof. reflexivity. Qed.

Example put_blocked :
  Dotty.put (VObj [("aggregate", VStr "x")]) (Some "aggregate.id") (VStr "a1")
  = VObj [("aggregate", VStr "x")].
Proof. reflexivity. Qed.

(** ** A first run of the pipeline *)

Example handle_enterJo :
  let '(r, s) := handle (Sample.person Sample.countingIds) 0%nat
                   (Sample.start (AggregateModel.new "p1" []) Sample.enterJo) in
  r = Ok VNull
  /\ AggregateModel.revision (model s) = 1
  /\ AggregateModel.attributes (model s) = [("name", VStr "Jo")]
  /\ AggregateModel.uncommittedEvents (model s)
     = [VObj [("name", VStr "personEntered");
              ("payload", VObj [("name", VStr "Jo")]);
              ("revision", VNum 1);
              ("aggregate", VObj [("id", VStr "p1")]);
              ("correlationId", VStr "c1");
              ("id", VNum 1000)]]
  /\ trace s = [CommandPreConditions 20 0%nat; CommandHandle 20 0%nat;
                EventApply 10; NewId 0].
Proof. vm_compute. repeat split. Qed.

(** ** Replay without events *)

(** C10: the replay operation [apply(events, model)] called with [null] or
    [undefined] for [events] returns normally and leaves the whole state as
    it was: the model is not modified and the trace gains no call, so no
    event definition is invoked. *)
Theorem apply_without_events (a : Aggregate.t) (s : State) :
  apply a VNull s = (Ok tt, s) /\ apply a VUndefined s = (Ok tt, s).
Proof. split; reflexivity. Qed.

(** ** The snapshot policy *)

Lemma isSnapshotNeeded_by_time (a : Aggregate.t) ms loadingTime events data :
  snapshotThresholdMs (options a) = Some ms -> ms <> 0 ->
  isSnapshotNeeded a loadingTime events data = (ms <=? loadingTime).
Proof.
  intros Hms Hnz. unfold isSnapshotNeeded. rewrite Hms.
  destruct (Z.eqb_spec ms 0) as [->|_]; [contradiction|reflexivity].
Qed.

Lemma isSnapshotNeeded_by_count (a : Aggregate.t) loadingTime items data :
  snapshotThresholdMs (options a) = None
  \/ snapshotThresholdMs (options a) = Some 0 ->
  isSnapshotNeeded a loadingTime (VArr items) data
  = (match snapshotThreshold (options a) with
     | Some n => if n =? 0 then 100 else n
     | None => 100
     end <=? Z.of_nat (List.length items)).
Proof.
  intros [H|H]; unfold isSnapshotNeeded; rewrite H; simpl;
    destruct (snapshotThreshold (options a)) as [n|]; try reflexivity;
    destruct (n =? 0); reflexivity.
Qed.

(** C2, as the code has it: a threshold option counts as configured when it
    is set to a number other than 0.  With such a [snapshotThresholdMs] the
    default policy answers true exactly when [loadingTime] reaches it;
    otherwise it answers true exactly when the number of events reaches the
    count threshold, which is a [snapshotThreshold] other than 0 if there is
    one and 100 if not.  Without options 150 events give true and fewer than
    100 events give false. *)
Theorem isSnapshotNeeded_default_policy
    (a : Aggregate.t) (loadingTime : Z) (items : list value)
    (data : list (string * value)) :
  let unset (o : option Z) := o = None \/ o = Some 0 in
  let len := Z.of_nat (List.length items) in
  let answer := isSnapshotNeeded a loadingTime (VArr items) data in
  (forall ms, snapshotThresholdMs (options a) = Some ms -> ms <> 0 ->
     (answer = true <-> ms <= loadingTime))
  /\ (unset (snapshotThresholdMs (options a)) ->
      forall n, snapshotThreshold (options a) = Some n -> n <> 0 ->
        (answer = true <-> n <= len))
  /\ (unset (snapshotThresholdMs (options a)) ->
      unset (snapshotThreshold (options a)) ->
        (answer = true <-> 100 <= len))
  /\ (snapshotThresholdMs (options a) = None ->
      snapshotThreshold (options a) = None ->
      (List.length items = 150%nat -> answer = true)
      /\ ((List.length items < 100)%nat -> answer = false)).
Proof.
  cbv zeta. repeat split.
  - rewrite (isSnapshotNeeded_by_time a ms) by assumption. apply Z.leb_le.
  - rewrite (isSnapshotNeeded_by_time a ms) by assumption. apply Z.leb_le.
  - rewrite isSnapshotNeeded_by_count by assumption. rewrite H0.
    destruct (Z.eqb_spec n 0); [contradiction|]. apply Z.leb_le.
  - rewrite isSnapshotNeeded_by_count by assumption. rewrite H0.
    destruct (Z.eqb_spec n 0); [contradiction|]. apply Z.leb_le.
  - rewrite isSnapshotNeeded_by_count by assumption.
    destruct H0 as [-> | ->]; simpl; apply Z.leb_le.
  - rewrite isSnapshotNeeded_by_count by assumption.
    destruct H0 as [-> | ->]; simpl; apply Z.leb_le.
  - intros Hlen. rewrite isSnapshotNeeded_by_count by now left.
    rewrite H0, Hlen. reflexivity.
  - intros Hlen. rewrite isSnapshotNeeded_by_count by now left.
    rewrite H0. apply Z.leb_gt. lia.
Qed.

(** The policy at work: a time threshold of 468 ms and a load of 500 ms. *)
Lemma isSnapshotNeeded_default_policy_witness :
  isSnapshotNeeded
    (Sample.empty {| snapshotThreshold := None; snapshotThresholdMs := Some 468 |}
                  Sample.definitions Sample.countingIds)
    500 (VArr []) [] = true.
Proof.
  apply (proj1 (isSnapshotNeeded_default_policy
                  (Sample.empty {| snapshotThreshold := None;
                                   snapshotThresholdMs := Some 468 |}
                                Sample.definitions Sample.countingIds)
                  500 [] []) 468).
  - reflexivity.
  - lia.
  - lia.
Defined.

(** C2 as the claim has it fails for a threshold of 0: with
    [snapshotThresholdMs] set to 0 a load of 5 ms reaches the threshold,
    yet the policy falls through to the count of events and answers false
    for an empty batch. *)
Lemma isSnapshotNeeded_zero_threshold_counterexample :
  let a := Sample.empty {| snapshotThreshold := None; snapshotThresholdMs := Some 0 |}
                        Sample.definitions Sample.countingIds in
  snapshotThresholdMs (options a) = Some 0
  /\ 0 <= 5
  /\ isSnapshotNeeded a 5 (VArr []) [] = false.
Proof. cbv zeta. repeat split. discriminate. Qed.

(** ** Command handlers *)

(** C5, as the code has it.  [getCommandHandler] throws for a name that is
    empty or not a string, and it throws for a version that is truthy and
    not a number.  For a name that is a non-empty string and a version
    that is a number, or that is falsy (left out, null, false, the empty
    string) and then stands for 0, it does not fail: it returns the first
    registered handler with that very name and version, and the default
    command handler when no registered handler has them. *)
Theorem getCommandHandler_valid_arguments
    (a : Aggregate.t) (name version : value) :
  (truthy name = false \/ isString name = false ->
   getCommandHandler a name version
   = Throw (Error "Please pass a valid string as name!"))
  /\ (truthy name = true -> isString name = true ->
      truthy version = true -> isNumber version = false ->
      getCommandHandler a name version
      = Throw (Error "Please pass a valid number as version!"))
  /\ (forall (n : string) (v : Z),
        name = VStr n -> n <> "" ->
        version = VNum v \/ (truthy version = false /\ v = 0) ->
        (forall h, find (handlerMatches n v) (commandHandlers a) = Some h ->
           getCommandHandler a name version = Ok h
           /\ In h (commandHandlers a) /\ ch_name h = n /\ ch_version h = v)
        /\ (find (handlerMatches n v) (commandHandlers a) = None ->
            getCommandHandler a name version = Ok (defaultCommandHandler a)
            /\ forall h, In h (commandHandlers a) ->
                 ~ (ch_name h = n /\ ch_version h = v))).
Proof.
  split; [|split].
  - intros [H|H]; unfold getCommandHandler; rewrite H; cbn [negb orb];
      [reflexivity|]. now rewrite orb_true_r.
  - intros Hn Hs Hv Hnum. unfold getCommandHandler, or_else.
    rewrite Hn, Hs, Hv, Hnum. reflexivity.
  - intros n v -> Hname Hver.
    assert (Hnorm : or_else version (VNum 0) = VNum v).
    { destruct Hver as [->|[Hfalsy ->]].
      - unfold or_else; simpl. destruct (Z.eqb_spec v 0) as [->|]; reflexivity.
      - unfold or_else. now rewrite Hfalsy. }
    assert (Hget : getCommandHandler a (VStr n) version
                   = match find (handlerMatches n v) (commandHandlers a) with
                     | Some h => Ok h
                     | None => Ok (defaultCommandHandler a)
                     end).
    { unfold getCommandHandler. simpl.
      destruct (String.eqb_spec n "") as [->|_]; [contradiction|]. simpl.
      rewrite Hnorm. reflexivity. }
    split.
    + intros h Hfind. rewrite Hget, Hfind. split; [reflexivity|].
      apply find_some in Hfind. destruct Hfind as [Hin Hm].
      unfold handlerMatches in Hm. apply andb_true_iff in Hm. simpl in Hm.
      destruct Hm as [Hn Hv]. apply String.eqb_eq in Hn. apply Z.eqb_eq in Hv.
      auto.
    + intros Hfind. rewrite Hget, Hfind. split; [reflexivity|].
      intros h Hin [Hn Hv].
      pose proof (find_none _ _ Hfind h Hin) as Hm.
      unfold handlerMatches in Hm. simpl in Hm.
      rewrite Hn, Hv, String.eqb_refl, Z.eqb_refl in Hm. discriminate.
Qed.

Lemma getCommandHandler_valid_arguments_witness :
  getCommandHandler Sample.handled (VStr "enterPerson") VNull
  = Ok Sample.enterPersonHandler
  /\ getCommandHandler Sample.handled (VStr "leave") (VNum 0)
     = Ok Sample.defaultHandler
  /\ getCommandHandler Sample.handled (VStr "enterPerson") (VBool true)
     = Throw (Error "Please pass a valid number as version!")
  /\ getCommandHandler Sample.handled (VNum 7) (VNum 0)
     = Throw (Error "Please pass a valid string as name!").
Proof.
  split; [|split; [|split]].
  - destruct (getCommandHandler_valid_arguments
                Sample.handled (VStr "enterPerson") VNull) as (_ & _ & H).
    destruct (H "enterPerson" 0 eq_refl ltac:(discriminate)
                (or_intror (conj eq_refl eq_refl))) as [Hfound _].
    exact (proj1 (Hfound Sample.enterPersonHandler eq_refl)).
  - destruct (getCommandHandler_valid_arguments
                Sample.handled (VStr "leave") (VNum 0)) as (_ & _ & H).
    destruct (H "leave" 0 eq_refl ltac:(discriminate) (or_introl eq_refl))
      as [_ Hnone].
    exact (proj1 (Hnone eq_refl)).
  - destruct (getCommandHandler_valid_arguments
                Sample.handled (VStr "enterPerson") (VBool true)) as (_ & H & _).
    exact (H eq_refl eq_refl eq_refl eq_refl).
  - destruct (getCommandHandler_valid_arguments
                Sample.handled (VNum 7) (VNum 0)) as (H & _).
    exact (H (or_intror eq_refl)).
Defined.

(** C5 as the claim has it fails: the guards of [getCommandHandler] throw
    for the empty name, and for a version that is truthy and not a
    number. *)
Lemma getCommandHandler_throws_counterexample :
  getCommandHandler (Sample.person Sample.countingIds) (VStr "") (VNum 0)
  = Throw (Error "Please pass a valid string as name!")
  /\ getCommandHandler (Sample.person Sample.countingIds)
       (VStr "enterPerson") (VStr "1")
     = Throw (Error "Please pass a valid number as version!").
Proof. split; reflexivity. Qed.

(** ** The object store *)

Lemma deref_app_last (h : list value) (v : value) :
  deref (h ++ [v]) (List.length h) = v.
Proof. unfold deref. apply nth_middle. Qed.

Lemma deref_app_old (h h' : list value) (l : loc) :
  (l < List.length h)%nat -> deref (h ++ h') l = deref h l.
Proof. intros Hl. unfold deref. now apply app_nth1. Qed.

Lemma overwrite_app_last (h : list value) (v w : value) :
  overwrite (h ++ [v]) (List.length h) w = h ++ [w].
Proof. induction h as [|x h IH]; simpl; [reflexivity|]. now rewrite IH. Qed.

(** ** The chain of aggregate-level preconditions *)

Lemma eachSeries_preConditions (cmd : loc) (pcs : list PreCondition) :
  forall s : State,
    (cmd < List.length (store s))%nat ->
    eachSeries pcs
      (fun preCondition =>
         copy <- cloneDeep cmd ;; runPreCondition preCondition copy) s
    = (Ok (chainError (deref (store s) cmd) (model s) pcs),
       mkState (model s)
         (store s ++ map (fun pc => fst (pc_check pc (deref (store s) cmd) (model s)))
                         (checked (deref (store s) cmd) (model s) pcs))
         (trace s ++ checkEntries (List.length (store s))
                                  (checked (deref (store s) cmd) (model s) pcs))
         (ids s)).
Proof.
  induction pcs as [|pc pcs IH]; intros s Hcmd.
  - simpl. unfold ret. rewrite !app_nil_r. now destruct s.
  - cbn [eachSeries chainError checked].
    cbv beta iota delta [bind cloneDeep readObject allocObject runPreCondition
                         record getModel writeObject ret].
    cbn [model store trace ids].
    rewrite deref_app_last, overwrite_app_last.
    set (c := deref (store s) cmd). set (m := model s).
    destruct (truthy (snd (pc_check pc c m))) eqn:Herr.
    + reflexivity.
    + rewrite IH; cbn [model store trace ids].
      * rewrite deref_app_old by assumption. fold c.
        rewrite length_app, Nat.add_1_r. cbn [map checkEntries].
        rewrite <- !app_assoc. reflexivity.
      * rewrite length_app. lia.
Qed.

Lemma checkAggregatePreConditions_run (a : Aggregate.t) (cmd : loc) (s : State) :
  (cmd < List.length (store s))%nat ->
  checkAggregatePreConditions a cmd s
  = (Ok (chainError (deref (store s) cmd) (model s) (preConditions a)),
     mkState (model s)
       (store s ++ map (fun pc => fst (pc_check pc (deref (store s) cmd) (model s)))
                       (checked (deref (store s) cmd) (model s) (preConditions a)))
       (trace s ++ checkEntries (List.length (store s))
                     (checked (deref (store s) cmd) (model s) (preConditions a)))
       (ids s)).
Proof.
  intros Hcmd. unfold checkAggregatePreConditions.
  destruct (preConditions a) as [|pc pcs] eqn:Hpcs.
  - simpl. unfold ret. rewrite !app_nil_r. now destruct s.
  - cbn [List.length Nat.eqb]. now apply eachSeries_preConditions.
Qed.

Lemma checked_prefix (c : value) (m : Model) (pcs : list PreCondition) :
  exists rest, pcs = checked c m pcs ++ rest.
Proof.
  induction pcs as [|pc pcs [rest IH]]; simpl.
  - now exists [].
  - destruct (truthy (snd (pc_check pc c m))).
    + now exists pcs.
    + exists rest. simpl. now rewrite <- IH.
Qed.

Lemma checkEntries_fresh (l : loc) (pcs : list PreCondition) :
  forall ref arg, In (PreConditionCheck ref arg) (checkEntries l pcs) ->
                  (l <= arg)%nat.
Proof.
  revert l. induction pcs as [|pc pcs IH]; intros l ref arg Hin; simpl in Hin.
  - contradiction.
  - destruct Hin as [Heq|Hin].
    + injection Heq as _ <-. lia.
    + apply IH in Hin. lia.
Qed.

Lemma checked_all_pass (c : value) (m : Model) (pcs : list PreCondition) :
  Forall (passes c m) pcs ->
  checked c m pcs = pcs /\ chainError c m pcs = VNull.
Proof.
  induction 1 as [|pc pcs Hpc _ [IH1 IH2]]; simpl; [now split|].
  unfold passes in Hpc. rewrite Hpc, IH1, IH2. now split.
Qed.

Lemma checked_first_error (c : value) (m : Model) (pre post : list PreCondition)
    (pc : PreCondition) :
  Forall (passes c m) pre -> ~ passes c m pc ->
  checked c m (pre ++ pc :: post) = pre ++ [pc]
  /\ chainError c m (pre ++ pc :: post) = snd (pc_check pc c m).
Proof.
  intros Hpre Hpc. induction Hpre as [|p pre Hp _ [IH1 IH2]]; simpl.
  - unfold passes in Hpc. destruct (truthy (snd (pc_check pc c m))).
    + now split.
    + now contradiction Hpc.
  - unfold passes in Hp. rewrite Hp, IH1, IH2. now split.
Qed.

(** C9: every aggregate-level precondition is handed an object of its own,
    allocated for it with the contents of the command.  Whatever the
    preconditions that run leave in those objects, the command object
    itself holds after the phase what it held before, and so does the
    model; the later stages are handed that command object. *)
Theorem preconditions_check_copies (a : Aggregate.t) (cmd : loc) (s : State) :
  (cmd < List.length (store s))%nat ->
  let c := deref (store s) cmd in
  let s' := snd (checkAggregatePreConditions a cmd s) in
  exists ran : list PreCondition,
    (exists rest, preConditions a = ran ++ rest)
    /\ trace s' = trace s ++ checkEntries (List.length (store s)) ran
    /\ store s' = store s ++ map (fun pc => fst (pc_check pc c (model s))) ran
    /\ (forall ref arg,
           In (PreConditionCheck ref arg) (checkEntries (List.length (store s)) ran) ->
           arg <> cmd)
    /\ deref (store s') cmd = c
    /\ model s' = model s.
Proof.
  intros Hcmd c s'. subst s'.
  rewrite checkAggregatePreConditions_run by assumption. fold c.
  cbn [snd model store trace].
  exists (checked c (model s) (preConditions a)).
  split; [apply checked_prefix|].
  split; [reflexivity|]. split; [reflexivity|]. split.
  - intros ref arg Hin. apply checkEntries_fresh in Hin. lia.
  - split; [|reflexivity]. now apply deref_app_old.
Qed.

(** ** The order of the registered preconditions *)

Section SortByFacts.
Context {A : Type} (key : A -> Z).

Let le (x y : A) : Prop := key x <= key y.

Lemma insertBy_Forall (P : A -> Prop) (x : A) (l : list A) :
  P x -> Forall P l -> Forall P (insertBy key x l).
Proof.
  intros Hx Hl. induction Hl as [|y l Hy Hl IH]; simpl.
  - now constructor.
  - destruct (key y <=? key x); repeat constructor; assumption.
Qed.

Lemma insertBy_sorted (x : A) (l : list A) :
  StronglySorted le l -> StronglySorted le (insertBy key x l).
Proof.
  induction 1 as [|y l Hs IH Hy]; simpl.
  - repeat constructor.
  - destruct (Z.leb_spec (key y) (key x)) as [Hle|Hgt].
    + constructor; [exact IH|]. now apply insertBy_Forall.
    + constructor; [now constructor|].
      constructor; [unfold le; lia|].
      eapply Forall_impl; [|exact Hy]. unfold le. intros z Hz. lia.
Qed.

Lemma sortBy_sorted (l : list A) : StronglySorted le (sortBy key l).
Proof.
  unfold sortBy.
  assert (H : forall acc, StronglySorted le acc ->
              StronglySorted le (fold_left (fun acc x => insertBy key x acc) l acc)).
  { induction l as [|x l IH]; intros acc Hacc; simpl; [exact Hacc|].
    apply IH. now apply insertBy_sorted. }
  apply H. constructor.
Qed.
End SortByFacts.


Lemma getCommand_found (a : Aggregate.t) (name version : value) (command : Command) :
  getCommand a name version = Ok (Some command) -> In command (commands a).
Proof.
  unfold getCommand.
  destruct (negb (truthy name) || negb (isString name)); [discriminate|].
  destruct (negb (isNumber (or_else version (VNum 0)))); [discriminate|].
  intros H. injection H as H. now apply find_some in H.
Qed.

(** What [checkPreConditions] does once the aggregate-level chain is known *)
Lemma checkPreConditions_run (a : Aggregate.t) (cmd : loc) (s : State) :
  (cmd < List.length (store s))%nat ->
  let c := deref (store s) cmd in
  let m := model s in
  let ran := checked c m (preConditions a) in
  let s1 := mkState m (store s ++ map (fun pc => fst (pc_check pc c m)) ran)
              (trace s ++ checkEntries (List.length (store s)) ran) (ids s) in
  (truthy (chainError c m (preConditions a)) = true ->
   checkPreConditions a cmd s = (Ok (chainError c m (preConditions a)), s1))
  /\ (truthy (chainError c m (preConditions a)) = false ->
      (exists e, checkPreConditions a cmd s = (Throw e, s1))
      \/ exists command,
           In command (commands a)
           /\ checkPreConditions a cmd s
              = (Ok (cmd_checkPreConditions command c m),
                 mkState m (store s1)
                   (trace s1 ++ [CommandPreConditions (cmd_ref command) cmd])
                   (ids s))).
Proof.
  intros Hcmd c m ran s1.
  assert (Hrun : checkAggregatePreConditions a cmd s
                 = (Ok (chainError c m (preConditions a)), s1))
    by now apply checkAggregatePreConditions_run.
  assert (Hc : deref (store s1) cmd = c)
    by (subst s1; cbn [store]; now apply deref_app_old).
  split; intros Herr; unfold checkPreConditions, bind; rewrite Hrun, Herr.
  - reflexivity.
  - unfold readObject, lift. rewrite Hc.
    destruct (negb (truthy (Dotty.get c (c_name (cp a))))).
    { left. eexists. reflexivity. }
    destruct (getCommand a _ _) as [[command|]|e] eqn:Hget.
    + right. exists command. split; [now apply getCommand_found in Hget|].
      reflexivity.
    + left. eexists. reflexivity.
    + left. eexists. reflexivity.
Qed.



Lemma preconditions_check_copies_witness :
  deref (store (snd (checkAggregatePreConditions
                       (Sample.wiped Sample.countingIds) 0%nat
                       (Sample.start (AggregateModel.new "p1" []) Sample.enterJo))))
        0%nat
  = Sample.enterJo.
Proof.
  destruct (preconditions_check_copies
              (Sample.wiped Sample.countingIds) 0%nat
              (Sample.start (AggregateModel.new "p1" []) Sample.enterJo))
    as [ran [_ [_ [_ [_ [Hsame _]]]]]].
  - simpl. lia.
  - exact Hsame.
Defined.

(** ** dotty: reading after writing *)

Lemma own_assign_same (k : string) (v : value) (fs : list (string * value)) :
  own k (assign k v fs) = Some v.
Proof.
  induction fs as [|[k' v'] fs IH]; simpl.
  - now rewrite String.eqb_refl.
  - destruct (String.eqb_spec k k') as [->|Hne]; simpl.
    + now rewrite String.eqb_refl.
    + destruct (String.eqb_spec k k'); [contradiction|exact IH].
Qed.

Lemma own_assign_other (k k' : string) (v : value) (fs : list (string * value)) :
  k <> k' -> own k (assign k' v fs) = own k fs.
Proof.
  intros Hne. induction fs as [|[k0 v0] fs IH]; simpl.
  - destruct (String.eqb_spec k k'); [contradiction|reflexivity].
  - destruct (String.eqb_spec k' k0) as [->|Hne0]; simpl.
    + destruct (String.eqb_spec k k0); [contradiction|reflexivity].
    + destruct (String.eqb_spec k k0); [reflexivity|exact IH].
Qed.

Lemma get_keys_undefined (ks : list string) :
  Dotty.get_keys VUndefined ks = VUndefined.
Proof. now destruct ks. Qed.

Lemma get_keys_empty_object (ks : list string) :
  Dotty.get_keys (VObj []) ks = VUndefined.
Proof. destruct ks as [|k [|k' ks]]; reflexivity. Qed.

Lemma get_keys_step (fs : list (string * value)) (k k' : string) (ks : list string) :
  Dotty.get_keys (VObj fs) (k :: k' :: ks)
  = Dotty.get_keys (match own k fs with Some v => v | None => VUndefined end)
                   (k' :: ks).
Proof. reflexivity. Qed.

Lemma put_keys_step (fs : list (string * value)) (k k' : string)
    (ks : list string) (v : value) :
  Dotty.put_keys (VObj fs) (k :: k' :: ks) v
  = match Dotty.put_keys
            (match own k fs with
             | Some VUndefined | None => VObj []
             | Some c => c
             end) (k' :: ks) v with
    | Some child' => Some (VObj (assign k child' fs))
    | None => None
    end.
Proof. reflexivity. Qed.

Lemma put_keys_object (o : value) (ks : list string) (v o' : value) :
  Dotty.put_keys o ks v = Some o' -> exists fs, o = VObj fs.
Proof.
  destruct ks as [|k ks]; [discriminate|].
  destruct o; try discriminate. intros _. now eexists.
Qed.

Lemma put_keys_result_object (o : value) (ks : list string) (v o' : value) :
  Dotty.put_keys o ks v = Some o' -> exists fs, o' = VObj fs.
Proof.
  destruct ks as [|k ks]; [discriminate|].
  destruct o; try discriminate. destruct ks as [|k' ks].
  - intros H. injection H as <-. now eexists.
  - rewrite put_keys_step.
    destruct (Dotty.put_keys _ (k' :: ks) v); [|discriminate].
    intros H. injection H as <-. now eexists.
Qed.

Lemma get_put_same (ks : list string) :
  forall o v o', Dotty.put_keys o ks v = Some o' -> Dotty.get_keys o' ks = v.
Proof.
  induction ks as [|k ks IH]; intros o v o' Hput; [discriminate|].
  destruct (put_keys_object _ _ _ _ Hput) as [fs ->].
  destruct ks as [|k' ks].
  - simpl in Hput. injection Hput as <-. simpl. now rewrite own_assign_same.
  - rewrite put_keys_step in Hput.
    destruct (Dotty.put_keys _ (k' :: ks) v) as [child'|] eqn:Hchild;
      [|discriminate].
    injection Hput as <-. rewrite get_keys_step, own_assign_same.
    now apply IH in Hchild.
Qed.

Lemma get_put_diverge (ks : list string) :
  forall qs o w o',
    diverge ks qs = true ->
    Dotty.put_keys o qs w = Some o' ->
    Dotty.get_keys o' ks = Dotty.get_keys o ks.
Proof.
  induction ks as [|k ks IH]; intros qs o w o' Hdiv Hput; [reflexivity|].
  destruct qs as [|q qs]; [discriminate|].
  destruct (put_keys_object _ _ _ _ Hput) as [fs ->].
  simpl in Hdiv. destruct (String.eqb_spec k q) as [->|Hne].
  - destruct ks as [|k' ks]; [discriminate|].
    destruct qs as [|q' qs]; [discriminate|].
    rewrite put_keys_step in Hput.
    destruct (Dotty.put_keys _ (q' :: qs) w) as [child'|] eqn:Hchild;
      [|discriminate].
    injection Hput as <-. rewrite !get_keys_step, own_assign_same.
    rewrite (IH _ _ _ _ Hdiv Hchild).
    destruct (own q fs) as [[]|]; try reflexivity;
      now rewrite get_keys_empty_object, get_keys_undefined.
  - assert (Hown : forall x, own k (assign q x fs) = own k fs)
      by (intros x; now apply own_assign_other).
    destruct qs as [|q' qs].
    + simpl in Hput. injection Hput as <-.
      destruct ks; simpl; now rewrite Hown.
    + rewrite put_keys_step in Hput.
      destruct (Dotty.put_keys _ (q' :: qs) w) as [child'|]; [|discriminate].
      injection Hput as <-. destruct ks; simpl; now rewrite Hown.
Qed.

Lemma put_keys_any_value (ks : list string) :
  forall o v w, Dotty.put_keys o ks v <> None -> Dotty.put_keys o ks w <> None.
Proof.
  induction ks as [|k ks IH]; intros o v w H; [exact H|].
  destruct o; try exact H. destruct ks as [|k' ks]; [discriminate|].
  rewrite put_keys_step in *.
  destruct (Dotty.put_keys _ (k' :: ks) v) as [c|] eqn:Hv; [|contradiction].
  assert (Hw : Dotty.put_keys
                 (match own k fields with
                  | Some VUndefined | None => VObj []
                  | Some c0 => c0
                  end) (k' :: ks) w <> None)
    by (apply (IH _ v); now rewrite Hv).
  destruct (Dotty.put_keys _ (k' :: ks) w); [discriminate|contradiction].
Qed.

Lemma put_keys_empty_object (ks : list string) (v : value) :
  ks <> [] -> Dotty.put_keys (VObj []) ks v <> None.
Proof.
  induction ks as [|k ks IH]; intros Hne; [contradiction|].
  destruct ks as [|k' ks]; [discriminate|].
  rewrite put_keys_step. cbn [own].
  destruct (Dotty.put_keys (VObj []) (k' :: ks) v) eqn:H; [discriminate|].
  now contradiction IH.
Qed.

Lemma put_diverge_keeps_writable (ks : list string) :
  forall qs o w o' v,
    diverge ks qs = true ->
    Dotty.put_keys o qs w = Some o' ->
    Dotty.put_keys o ks v <> None ->
    Dotty.put_keys o' ks v <> None.
Proof.
  induction ks as [|k ks IH]; intros qs o w o' v Hdiv Hput Hok; [discriminate|].
  destruct qs as [|q qs]; [discriminate|].
  destruct (put_keys_object _ _ _ _ Hput) as [fs ->].
  simpl in Hdiv. destruct (String.eqb_spec k q) as [->|Hne].
  - destruct ks as [|k' ks]; [discriminate|].
    destruct qs as [|q' qs]; [discriminate|].
    rewrite put_keys_step in Hput, Hok.
    destruct (Dotty.put_keys _ (q' :: qs) w) as [child'|] eqn:Hchild;
      [|discriminate].
    injection Hput as <-. rewrite put_keys_step, own_assign_same.
    destruct (Dotty.put_keys _ (k' :: ks) v) as [c|] eqn:Hv; [|contradiction].
    assert (H' : Dotty.put_keys child' (k' :: ks) v <> None).
    { apply (IH _ _ _ _ _ Hdiv Hchild). now rewrite Hv. }
    destruct (put_keys_result_object _ _ _ _ Hchild) as [fs' ->].
    destruct (Dotty.put_keys (VObj fs') (k' :: ks) v); [discriminate|contradiction].
  - assert (Hown : forall x, own k (assign q x fs) = own k fs)
      by (intros x; now apply own_assign_other).
    assert (Hshape : exists x, o' = VObj (assign q x fs)).
    { destruct qs as [|q' qs].
      - simpl in Hput. injection Hput as <-. now eexists.
      - rewrite put_keys_step in Hput.
        destruct (Dotty.put_keys _ (q' :: qs) w); [|discriminate].
        injection Hput as <-. now eexists. }
    destruct Hshape as [x ->].
    destruct ks as [|k' ks]; [discriminate|].
    rewrite put_keys_step in Hok. rewrite put_keys_step, Hown.
    destruct (Dotty.put_keys _ (k' :: ks) v); [discriminate|contradiction].
Qed.

Lemma split_nonempty (s : string) : Dotty.split s <> [].
Proof.
  destruct s as [|c s]; simpl; [discriminate|].
  destruct (Ascii.eqb c "."); [discriminate|].
  destruct (Dotty.split s); discriminate.
Qed.

(** The three facts in terms of configured paths *)

Lemma get_put_writable (o : value) (p : Dotty.path) (v : value) :
  writable o p -> Dotty.get (Dotty.put o p v) p = v.
Proof.
  unfold writable, Dotty.get, Dotty.put. intros Hok.
  apply (put_keys_any_value _ _ _ v) in Hok.
  destruct (Dotty.put_keys o (Dotty.keys p) v) as [o'|] eqn:Hput;
    [|contradiction].
  now apply get_put_same in Hput.
Qed.

Lemma get_put_apart (o : value) (p q : Dotty.path) (w : value) :
  apart p q = true -> Dotty.get (Dotty.put o q w) p = Dotty.get o p.
Proof.
  unfold apart, Dotty.get, Dotty.put. intros Hap.
  destruct (Dotty.put_keys o (Dotty.keys q) w) as [o'|] eqn:Hput;
    [|reflexivity].
  destruct q as [q|]; [|discriminate].
  now apply (get_put_diverge _ _ _ _ _ Hap Hput).
Qed.

Lemma writable_put_apart (o : value) (p q : Dotty.path) (w : value) :
  apart p q = true -> writable o p -> writable (Dotty.put o q w) p.
Proof.
  unfold apart, writable, Dotty.put. intros Hap Hok.
  destruct (Dotty.put_keys o (Dotty.keys q) w) as [o'|] eqn:Hput;
    [|exact Hok].
  destruct q as [q|]; [|discriminate].
  now apply (put_diverge_keeps_writable _ _ _ _ _ _ Hap Hput).
Qed.

Lemma writable_empty_object (p : Dotty.path) :
  p <> None -> writable (VObj []) p.
Proof.
  destruct p as [s|]; [intros _|contradiction].
  apply put_keys_empty_object, split_nonempty.
Qed.

(** ** The reduction that infers a version *)

Section MaxVersion.
Variable evtName : value.

Let step (res : Z) (e : Event) : Z :=
  if negb (str_eq (evt_name e) evtName) then res
  else
    let v := if evt_version e =? 0 then 0 else evt_version e in
    if res <? v then v else res.

Lemma maxVersion_step_bounds (res : Z) (e : Event) :
  res <= step res e
  /\ (str_eq (evt_name e) evtName = true -> evt_version e <= step res e)
  /\ (step res e = res
      \/ (str_eq (evt_name e) evtName = true /\ step res e = evt_version e)).
Proof.
  unfold step. destruct (str_eq (evt_name e) evtName); simpl.
  - assert (Hv : (if evt_version e =? 0 then 0 else evt_version e) = evt_version e)
      by (destruct (Z.eqb_spec (evt_version e) 0) as [->|]; reflexivity).
    rewrite Hv. destruct (Z.ltb_spec res (evt_version e)).
    + split; [lia|]. split; [intros _; lia|]. right. now split.
    + split; [lia|]. split; [intros _; lia|]. now left.
  - split; [lia|]. split; [discriminate|]. now left.
Qed.

Lemma maxVersion_fold (l : list Event) :
  forall res,
    res <= fold_left step l res
    /\ (forall e, In e l -> str_eq (evt_name e) evtName = true ->
          evt_version e <= fold_left step l res)
    /\ (fold_left step l res = res
        \/ exists e, In e l /\ str_eq (evt_name e) evtName = true
                     /\ fold_left step l res = evt_version e).
Proof.
  induction l as [|e l IH]; intros res; simpl.
  - split; [lia|]. split; [intros e []|now left].
  - destruct (IH (step res e)) as [Hle [Hub Hatt]].
    destruct (maxVersion_step_bounds res e) as [Hs1 [Hs2 Hs3]].
    split; [lia|]. split.
    + intros e' [<-|Hin] Hn; [specialize (Hs2 Hn); lia|now apply Hub].
    + destruct Hatt as [Heq|[e' [Hin [Hn Heq]]]].
      * rewrite Heq. destruct Hs3 as [->|[Hn ->]]; [now left|].
        right. exists e. auto.
      * right. exists e'. auto.
Qed.
End MaxVersion.

(** ** Replay leaves the bookkeeping alone *)

Lemma bookkeepingKept_refl (s : State) : bookkeepingKept s s.
Proof. unfold bookkeepingKept. auto. Qed.

Lemma bookkeepingKept_trans (s1 s2 s3 : State) :
  bookkeepingKept s1 s2 -> bookkeepingKept s2 s3 -> bookkeepingKept s1 s3.
Proof.
  unfold bookkeepingKept.
  intros (H1 & H2 & H3 & H4 & H5) (K1 & K2 & K3 & K4 & K5).
  repeat split; congruence.
Qed.

Lemma forEach_kept {A : Type} (f : A -> M unit) (items : list A) :
  (forall x s r s', f x s = (r, s') -> bookkeepingKept s s') ->
  forall s r s', forEach items f s = (r, s') -> bookkeepingKept s s'.
Proof.
  intros Hf. induction items as [|x items IH]; intros s r s' Hrun.
  - injection Hrun as _ <-. apply bookkeepingKept_refl.
  - simpl in Hrun. unfold bind in Hrun.
    destruct (f x s) as [[[]|e] s1] eqn:Hx.
    + eapply bookkeepingKept_trans; [exact (Hf _ _ _ _ Hx)|exact (IH _ _ _ Hrun)].
    + injection Hrun as _ <-. exact (Hf _ _ _ _ Hx).
Qed.

Lemma set_kept (data : value) (s : State) (r : result unit) (s' : State) :
  set data s = (r, s') -> bookkeepingKept s s'.
Proof.
  unfold set, bind, getModel.
  destruct (AggregateModel.gate (model s)); intros H; injection H as _ <-.
  - unfold bookkeepingKept. simpl. auto.
  - apply bookkeepingKept_refl.
Qed.

Lemma runEventApply_kept (e : Event) (evt : value) (s : State)
    (r : result unit) (s' : State) :
  runEventApply e evt s = (r, s') -> bookkeepingKept s s'.
Proof.
  unfold runEventApply, bind, record, getModel. cbn [model].
  intros H. apply (forEach_kept set) in H.
  - destruct H as (H1 & H2 & H3 & H4 & H5). unfold bookkeepingKept.
    simpl in *. auto.
  - intros x. apply set_kept.
Qed.

Lemma applyEvent_kept (a : Aggregate.t) (evt : value) (s : State)
    (r : result unit) (s' : State) :
  applyEvent a evt s = (r, s') -> bookkeepingKept s s'.
Proof.
  unfold applyEvent.
  destruct (negb (truthy (Dotty.get evt (e_name (ep a))))).
  - intros H. injection H as _ <-. apply bookkeepingKept_refl.
  - unfold bind, lift.
    destruct (getEvent a _ _) as [[e|]|err].
    + apply runEventApply_kept.
    + intros H. injection H as _ <-. apply bookkeepingKept_refl.
    + intros H. injection H as _ <-. apply bookkeepingKept_refl.
Qed.

Lemma apply_kept (a : Aggregate.t) (events : value) (s : State)
    (r : result unit) (s' : State) :
  apply a events s = (r, s') -> bookkeepingKept s s'.
Proof.
  unfold apply. destruct (negb (truthy events)).
  - intros H. injection H as _ <-. apply bookkeepingKept_refl.
  - apply forEach_kept. intros x. apply applyEvent_kept.
Qed.

(** ** One call of the apply function *)

Lemma applyHelper_step (a : Aggregate.t) (cmd : loc) (name payload : value)
    (s s' : State) :
  applyHelper a cmd name payload s = (Ok tt, s') ->
  exists evt,
    envelope a (deref (store s) cmd) (AggregateModel.id (model s))
             (AggregateModel.revision (model s) + 1) name payload = Ok evt
    /\ AggregateModel.revision (model s') = AggregateModel.revision (model s) + 1
    /\ AggregateModel.uncommittedEvents (model s')
       = AggregateModel.uncommittedEvents (model s) ++ [evt]
    /\ AggregateModel.id (model s') = AggregateModel.id (model s)
    /\ store s' = store s
    /\ ids s' = ids s.
Proof.
  unfold applyHelper, envelope.
  cbv beta iota delta [bind updateModel readObject getModel lift].
  cbn [model store trace ids].
  destruct (stampContext a _ _) as [evt|e]; [|discriminate].
  match goal with |- context [apply a evt ?s1] =>
    destruct (apply a evt s1) as [[[]|e] s2] eqn:Happly end; [|discriminate].
  intros H. injection H as <-. exists evt.
  apply apply_kept in Happly.
  destruct Happly as (H1 & H2 & H3 & H4 & H5). simpl in *.
  repeat split; assumption.
Qed.

Lemma writable_is_object (o : value) (p : Dotty.path) :
  writable o p -> exists fs, o = VObj fs.
Proof.
  unfold writable. intros H.
  destruct (Dotty.put_keys o (Dotty.keys p) VUndefined) as [o'|] eqn:Hput;
    [|contradiction].
  now apply put_keys_object in Hput.
Qed.

Section Envelope.
Variable a : Aggregate.t.
Hypothesis Hown : revisionPathOwn a.

Let rp : Dotty.path := e_revision (ep a).

Lemma revision_apart (q : Dotty.path) :
  In q (stampedPaths a) -> apart rp q = true.
Proof.
  destruct Hown as [_ Hall]. rewrite Forall_forall in Hall. apply Hall.
Qed.

Lemma newEvent_writable (name payload : value) :
  emits a (name, payload) -> writable (newEvent a name payload) rp.
Proof.
  assert (Hempty : writable (VObj []) rp)
    by (apply writable_empty_object; apply Hown).
  assert (Hname : apart rp (e_name (ep a)) = true)
    by (apply revision_apart; simpl; auto).
  assert (Hpayload : apart rp (e_payload (ep a)) = true)
    by (apply revision_apart; simpl; auto).
  intros [Hstr|[Hfalsy Hadm]]; cbn [fst snd] in *; unfold newEvent.
  - rewrite Hstr. destruct (negb (truthy payload)).
    + now apply writable_put_apart.
    + now repeat apply writable_put_apart.
  - rewrite Hfalsy. cbn [negb].
    destruct (writable_is_object _ _ Hadm) as [fs ->]. exact Hadm.
Qed.

Lemma stampMeta_writable (c evt : value) :
  writable evt rp -> writable (stampMeta a c evt) rp.
Proof.
  intros H. unfold stampMeta.
  destruct (Dotty.configured (e_meta (ep a)) && Dotty.configured (c_meta (cp a)));
    [|exact H].
  apply writable_put_apart; [|exact H]. apply revision_apart. simpl. auto.
Qed.

Lemma stampVersion_revision (evt : value) :
  Dotty.get (stampVersion a evt) rp = Dotty.get evt rp.
Proof.
  unfold stampVersion.
  destruct (Dotty.configured (e_version (ep a))); [|reflexivity].
  destruct (negb (Dotty.exists_ evt (e_version (ep a)))); [|reflexivity].
  apply get_put_apart, revision_apart. simpl. auto 10.
Qed.

Lemma stampAggregate_revision (c evt : value) :
  Dotty.get (stampAggregate a c evt) rp = Dotty.get evt rp.
Proof.
  unfold stampAggregate.
  destruct (Dotty.configured (e_aggregate (ep a))
            && Dotty.configured (c_aggregate (cp a))); [|reflexivity].
  apply get_put_apart, revision_apart. simpl. auto 10.
Qed.

Lemma stampContext_revision (c evt evt' : value) :
  stampContext a c evt = Ok evt' -> Dotty.get evt' rp = Dotty.get evt rp.
Proof.
  assert (Hctx : apart rp (e_context (ep a)) = true)
    by (apply revision_apart; simpl; auto 10).
  unfold stampContext.
  destruct (Dotty.configured (e_context (ep a))
            && Dotty.configured (c_context (cp a))).
  - destruct (truthy (Dotty.get c (c_context (cp a)))).
    + intros H. injection H as <-. now apply get_put_apart.
    + destruct (context a); [|discriminate].
      intros H. injection H as <-. now apply get_put_apart.
  - intros H. now injection H as <-.
Qed.

Lemma envelope_revision (c : value) (aggregateId : string) (revision : Z)
    (name payload evt : value) :
  emits a (name, payload) ->
  envelope a c aggregateId revision name payload = Ok evt ->
  Dotty.get evt rp = VNum revision.
Proof.
  intros Hemits Henv. unfold envelope in Henv.
  apply stampContext_revision in Henv. rewrite Henv.
  rewrite stampAggregate_revision, stampVersion_revision.
  rewrite !get_put_apart by (apply revision_apart; simpl; auto 10).
  apply get_put_writable, stampMeta_writable, newEvent_writable, Hemits.
Qed.
End Envelope.

(** ** Revisions of the events of one handling *)

Lemma applyAll_app (a : Aggregate.t) (cmd : loc) (done todo : list (value * value)) :
  forall s s',
    applyAll a cmd (done ++ todo) s = (Ok tt, s') ->
    exists sk, applyAll a cmd done s = (Ok tt, sk)
               /\ applyAll a cmd todo sk = (Ok tt, s').
Proof.
  induction done as [|call done IH]; intros s s' Hrun.
  - exists s. now split.
  - simpl in Hrun. unfold bind in Hrun at 1. simpl. unfold bind at 1.
    destruct (applyHelper a cmd (fst call) (snd call) s) as [[[]|e] s1];
      [|discriminate].
    now apply IH.
Qed.

Lemma applyAll_snoc (a : Aggregate.t) (cmd : loc) (done : list (value * value))
    (call : value * value) (s s' : State) :
  applyAll a cmd (done ++ [call]) s = (Ok tt, s') ->
  exists sk, applyAll a cmd done s = (Ok tt, sk)
             /\ applyHelper a cmd (fst call) (snd call) sk = (Ok tt, s').
Proof.
  intros Hrun. apply applyAll_app in Hrun. destruct Hrun as [sk [Hdone Hlast]].
  exists sk. split; [exact Hdone|].
  simpl in Hlast. unfold bind, ret in Hlast.
  destruct (applyHelper a cmd (fst call) (snd call) sk) as [[[]|e] s1];
    [exact Hlast|discriminate].
Qed.

Lemma applyAll_counts (a : Aggregate.t) (cmd : loc) (calls : list (value * value)) :
  forall s s',
    applyAll a cmd calls s = (Ok tt, s') ->
    AggregateModel.revision (model s')
    = AggregateModel.revision (model s) + Z.of_nat (List.length calls)
    /\ (exists evts,
          AggregateModel.uncommittedEvents (model s')
          = AggregateModel.uncommittedEvents (model s) ++ evts
          /\ List.length evts = List.length calls)
    /\ AggregateModel.id (model s') = AggregateModel.id (model s)
    /\ store s' = store s.
Proof.
  induction calls as [|call calls IH]; intros s s' Hrun.
  - injection Hrun as <-. simpl. split; [lia|]. split; [|now split].
    exists []. now rewrite app_nil_r.
  - simpl in Hrun. unfold bind in Hrun at 1.
    destruct (applyHelper a cmd (fst call) (snd call) s) as [[[]|e] s1] eqn:Hstep;
      [|discriminate].
    apply applyHelper_step in Hstep.
    destruct Hstep as (evt & _ & Hrev & Hbuf & Hid & Hstore & _).
    destruct (IH _ _ Hrun) as (Hrev' & (evts & Hbuf' & Hlen) & Hid' & Hstore').
    split; [rewrite Hrev', Hrev; cbn [List.length]; lia|].
    split; [|split; congruence].
    exists (evt :: evts). split; [|simpl; now rewrite Hlen].
    rewrite Hbuf', Hbuf, <- app_assoc. reflexivity.
Qed.

(** The calls that a command's handle makes in a run are such a sequence. *)
Lemma runScript_calls (a : Aggregate.t) (cmd : loc) (script : script) :
  forall s s',
    runScript a cmd script s = (Ok tt, s') ->
    exists calls, applyAll a cmd calls s = (Ok tt, s').
Proof.
  induction script as [|name payload next IH]; intros s s' Hrun.
  - exists []. exact Hrun.
  - cbn [runScript] in Hrun. unfold bind at 1 in Hrun.
    destruct (applyHelper a cmd name payload s) as [[[]|e] s1] eqn:Hstep;
      [|discriminate].
    unfold bind at 1, getModel at 1 in Hrun.
    apply IH in Hrun. destruct Hrun as [calls Hcalls].
    exists ((name, payload) :: calls). cbn [applyAll fst snd].
    unfold bind at 1. now rewrite Hstep.
Qed.

(** C3: when a handler's calls of the apply function all succeed, then
    after the k-th of them the revision of the model is the revision [r]
    it had before the first call plus k, the buffer has grown by k events,
    and the event that the k-th call emitted carries r + k at the revision
    path; so the stamped revisions are r + 1, r + 2, ...  The revisions
    from r to r + k are integers within 2^53 in absolute value, where
    JavaScript adds exactly.  The revision has a path of its own in the
    field mapping, and each call names an event or passes an event object
    in which the revision can be written. *)
Theorem applyHelper_consecutive_revisions
    (a : Aggregate.t) (cmd : loc) (done todo : list (value * value))
    (s s' : State) :
  revisionPathOwn a ->
  Forall (emits a) done ->
  safeInteger (AggregateModel.revision (model s)) ->
  safeInteger (AggregateModel.revision (model s)
               + Z.of_nat (List.length done)) ->
  applyAll a cmd (done ++ todo) s = (Ok tt, s') ->
  let r := AggregateModel.revision (model s) in
  let k := Z.of_nat (List.length done) in
  exists (sk : State) (evts : list value),
    applyAll a cmd done s = (Ok tt, sk)
    /\ AggregateModel.revision (model sk) = r + k
    /\ safeInteger (AggregateModel.revision (model sk))
    /\ AggregateModel.uncommittedEvents (model sk)
       = AggregateModel.uncommittedEvents (model s) ++ evts
    /\ List.length evts = List.length done
    /\ (forall earlier evt,
          evts = earlier ++ [evt] ->
          Dotty.get evt (e_revision (ep a)) = VNum (r + k)).
Proof.
  intros Hown Hemits Hsafe Hsafek Hrun r k.
  apply applyAll_app in Hrun. destruct Hrun as [sk [Hdone _]].
  destruct (applyAll_counts _ _ _ _ _ Hdone) as (Hrev & (evts & Hbuf & Hlen) & _).
  exists sk, evts.
  split; [exact Hdone|]. split; [exact Hrev|].
  split; [rewrite Hrev; exact Hsafek|].
  split; [exact Hbuf|]. split; [exact Hlen|].
  intros earlier evt Hevts. subst k r.
  destruct (exists_last (l := done)) as [pre [call Hsplit]].
  { intros ->. subst evts. rewrite length_app in Hlen. simpl in Hlen. lia. }
  subst done. apply applyAll_snoc in Hdone.
  destruct Hdone as [sp [Hpre Hlast]].
  destruct (applyAll_counts _ _ _ _ _ Hpre) as (Hrevp & _ & Hidp & Hstorep).
  apply applyHelper_step in Hlast.
  destruct Hlast as (evt' & Henv & _ & Hbuf' & _).
  assert (Hsame : evt' = evt).
  { rewrite Hbuf, Hevts, app_assoc in Hbuf'.
    apply app_inj_tail in Hbuf'. symmetry. apply Hbuf'. }
  subst evt'.
  apply (envelope_revision a Hown) in Henv.
  - rewrite Henv, Hrevp, length_app. cbn [List.length]. f_equal. lia.
  - apply Forall_app in Hemits. destruct Hemits as [_ Hcall].
    inversion Hcall; subst. now destruct call.
Qed.

Lemma applyHelper_consecutive_revisions_witness :
  exists sk evts,
    applyAll (Sample.person Sample.countingIds) 0%nat
      [(VStr "personEntered", VObj [("name", VStr "Jo")]);
       (VObj [("name", VStr "personEntered")], VUndefined)]
      (Sample.start (AggregateModel.setRevision 7 (AggregateModel.new "p1" []))
                    Sample.enterJo)
    = (Ok tt, sk)
    /\ AggregateModel.revision (model sk) = 7 + 2
    /\ safeInteger (AggregateModel.revision (model sk))
    /\ AggregateModel.uncommittedEvents (model sk) = [] ++ evts
    /\ List.length evts = 2%nat
    /\ (forall earlier evt,
          evts = earlier ++ [evt] ->
          Dotty.get evt (Some "revision") = VNum (7 + 2)).
Proof.
  refine (applyHelper_consecutive_revisions
            (Sample.person Sample.countingIds) 0%nat
            [(VStr "personEntered", VObj [("name", VStr "Jo")]);
             (VObj [("name", VStr "personEntered")], VUndefined)] []
            (Sample.start (AggregateModel.setRevision 7 (AggregateModel.new "p1" []))
                          Sample.enterJo)
            _ _ _ _ _ _).
  - split; [discriminate|]. repeat constructor.
  - constructor; [now left|]. constructor; [|constructor].
    right. split; [reflexivity|]. unfold writable. simpl. discriminate.
  - unfold safeInteger. simpl. lia.
  - unfold safeInteger. simpl. lia.
  - vm_compute. reflexivity.
Defined.

(** ** The stages of [handle] *)

Lemma handle_callback (a : Aggregate.t) (cmd : loc) (s s' : State) (err : value) :
  handle a cmd s = (Ok err, s') ->
  (s' = s /\ truthy err = true)
  \/ exists command s1 err1,
       checkPreConditions a cmd (gateClosed s) = (Ok err1, s1)
       /\ ((truthy err1 = true /\ err = err1 /\ s' = s1)
           \/ (truthy err1 = false
               /\ exists s3 s4 err4,
                    runScript a cmd
                      (cmd_handle command (deref (store s1) cmd) (model s1))
                      (handling command cmd s1) = (Ok tt, s3)
                    /\ assignEventIds a s3 = (Ok err4, s4)
                    /\ ((truthy err4 = true /\ err = err4 /\ s' = s4)
                        \/ (truthy err4 = false
                            /\ exists s5 err5,
                                 checkBusinessRules a (previousModelOf s1)
                                   (AggregateModel.getUncommittedEvents (model s4))
                                   cmd s4 = (Ok err5, s5)
                                 /\ ((truthy err5 = false /\ err = VNull /\ s' = s5)
                                     \/ (truthy err5 = true /\ err = err5
                                         /\ s' = rolledBack (previousModelOf s1) s5)))))).
Proof.
  unfold handle. unfold bind at 1, readObject at 1.
  destruct (negb (truthy (Dotty.get (deref (store s) cmd) (c_name (cp a))))).
  { intros H. injection H as <- <-. now left. }
  unfold bind at 1, lift at 1.
  destruct (getCommand a _ _) as [[command|]|e]; [| |discriminate].
  2:{ intros H. injection H as <- <-. now left. }
  unfold bind at 1, updateModel at 1. fold (gateClosed s).
  unfold bind at 1.
  destruct (checkPreConditions a cmd (gateClosed s)) as [[err1|e] s1] eqn:Hpre;
    [|discriminate].
  intros Hrun. right. exists command, s1, err1. split; [reflexivity|].
  destruct (truthy err1) eqn:Herr1.
  { left. injection Hrun as <- <-. auto. }
  right. split; [reflexivity|].
  unfold bind at 1, getModel at 1 in Hrun.
  unfold bind at 1, readObject at 1 in Hrun.
  unfold bind at 1, record at 1 in Hrun. fold (handling command cmd s1) in Hrun.
  unfold bind at 1 in Hrun.
  destruct (runScript a cmd _ (handling command cmd s1)) as [[[]|e] s3] eqn:Hscript;
    [|discriminate].
  unfold bind at 1 in Hrun.
  destruct (assignEventIds a s3) as [[err4|e] s4] eqn:Hids; [|discriminate].
  exists s3, s4, err4. split; [reflexivity|]. split; [exact Hids|].
  destruct (truthy err4) eqn:Herr4.
  { left. injection Hrun as <- <-. auto. }
  right. split; [reflexivity|].
  unfold bind at 1, getModel at 1 in Hrun. unfold bind at 1 in Hrun.
  fold (previousModelOf s1) in Hrun.
  destruct (checkBusinessRules a (previousModelOf s1) _ cmd s4)
    as [[err5|e] s5] eqn:Hrules; [|discriminate].
  exists s5, err5. split; [first [reflexivity|exact Hrules]|].
  destruct (truthy err5) eqn:Herr5; cbn [negb] in Hrun.
  - right. injection Hrun as <- <-. auto.
  - left. injection Hrun as <- <-. auto.
Qed.

Lemma checkEntries_last (l : loc) (pcs : list PreCondition) :
  pcs <> [] ->
  exists earlier ref arg,
    checkEntries l pcs = earlier ++ [PreConditionCheck ref arg].
Proof.
  revert l. induction pcs as [|pc pcs IH]; intros l Hne; [contradiction|].
  destruct pcs as [|pc' pcs].
  - exists [], (pc_ref pc), l. reflexivity.
  - destruct (IH (S l)) as (earlier & ref & arg & Heq); [discriminate|].
    exists (PreConditionCheck (pc_ref pc) l :: earlier), ref, arg.
    cbn [checkEntries] in *. rewrite Heq. reflexivity.
Qed.

Lemma chainError_checked (c : value) (m : Model) (pcs : list PreCondition) :
  truthy (chainError c m pcs) = true -> checked c m pcs <> [].
Proof.
  destruct pcs as [|pc pcs]; simpl; [discriminate|].
  intros _. destruct (truthy (snd (pc_check pc c m))); discriminate.
Qed.

Lemma checkPreConditions_callback (a : Aggregate.t) (cmd : loc) (s s1 : State)
    (err : value) :
  (cmd < List.length (store s))%nat ->
  checkPreConditions a cmd s = (Ok err, s1) ->
  model s1 = model s
  /\ (truthy err = true ->
      exists earlier c, trace s1 = earlier ++ [c] /\ isPreConditionCall c).
Proof.
  intros Hcmd Hrun.
  destruct (checkPreConditions_run a cmd s Hcmd) as [Hfail Hpass].
  destruct (truthy (chainError (deref (store s) cmd) (model s) (preConditions a)))
    eqn:Hchain.
  - rewrite (Hfail eq_refl) in Hrun. injection Hrun as <- <-.
    split; [reflexivity|]. intros _. cbn [trace].
    destruct (checkEntries_last (List.length (store s)) _
                (chainError_checked _ _ _ Hchain)) as (earlier & ref & arg & ->).
    exists (trace s ++ earlier), (PreConditionCheck ref arg).
    rewrite app_assoc. split; [reflexivity|]. exists ref, arg. now left.
  - destruct (Hpass eq_refl) as [[e He]|(command & _ & He)];
      rewrite He in Hrun; [discriminate|].
    injection Hrun as <- <-. split; [reflexivity|]. intros _. cbn [trace].
    eexists _, _. split; [reflexivity|]. exists (cmd_ref command), cmd. now right.
Qed.

Lemma checkBusinessRules_callback (a : Aggregate.t) (previous : Model)
    (events : list value) (cmd : loc) (s s' : State) (r : result value) :
  checkBusinessRules a previous events cmd s = (r, s') ->
  exists err,
    r = Ok err
    /\ model s' = model s
    /\ (truthy err = true ->
        exists earlier c, trace s' = earlier ++ [c] /\ isBusinessRuleCheck c).
Proof.
  unfold checkBusinessRules. revert s.
  induction (businessRules a) as [|rule rules IH]; intros s Hrun.
  - injection Hrun as <- <-. exists VNull. repeat split. discriminate.
  - cbn [eachSeries] in Hrun.
    cbv beta iota delta [bind record getModel readObject ret] in Hrun.
    cbn [model store trace ids] in Hrun.
    destruct (truthy (br_check rule (model s) previous events (deref (store s) cmd)))
      eqn:Herr.
    + injection Hrun as <- <-. eexists. split; [reflexivity|].
      split; [reflexivity|]. intros _. cbn [trace].
      eexists _, _. split; [reflexivity|]. now exists (br_ref rule), cmd.
    + apply IH in Hrun. destruct Hrun as (err & -> & Hmodel & Hlast).
      exists err. split; [reflexivity|]. split; [exact Hmodel|exact Hlast].
Qed.

(** The id-assignment step *)

Lemma each_assignEventId (a : Aggregate.t) (items : list value) :
  forall s r s',
    each items (assignEventId a) s = (r, s') ->
    exists err items',
      r = Ok (err, items')
      /\ model s' = model s
      /\ (truthy err = false -> Forall2 (backfilled a) items items')
      /\ (truthy err = true ->
          exists earlier c, trace s' = earlier ++ [c] /\ isNewId c).
Proof.
  induction items as [|evt items IH]; intros s r s' Hrun.
  - injection Hrun as <- <-. exists VNull, []. repeat split;
      [constructor|discriminate].
  - cbn [each] in Hrun. unfold bind at 1, assignEventId at 1 in Hrun.
    destruct (truthy (Dotty.get evt (e_id (ep a)))) eqn:Hid.
    + cbv beta iota delta [ret] in Hrun. cbn [fst snd truthy] in Hrun.
      unfold bind at 1 in Hrun.
      destruct (each items (assignEventId a) s) as [r1 s1] eqn:Hrest.
      apply IH in Hrest. destruct Hrest as (err & items' & -> & Hm & Hok & Hbad).
      injection Hrun as <- <-. exists err, (evt :: items'). cbn [fst snd].
      split; [reflexivity|]. split; [exact Hm|]. split; [|exact Hbad].
      intros Herr. constructor; [|now apply Hok].
      split; [reflexivity|]. congruence.
    + unfold bind at 1, newId at 1 in Hrun.
      destruct (truthy (fst (getNewId a (ids s)))) eqn:Hgen.
      * cbv beta iota delta [ret] in Hrun. cbn [fst snd] in Hrun.
        rewrite Hgen in Hrun. injection Hrun as <- <-.
        eexists _, _. split; [reflexivity|]. split; [reflexivity|].
        split; [congruence|]. intros _. cbn [trace].
        eexists _, _. split; [reflexivity|]. now exists (ids s).
      * cbv beta iota delta [ret] in Hrun. cbn [fst snd truthy] in Hrun.
        unfold bind at 1 in Hrun.
        match type of Hrun with context [each items _ ?s1] =>
          destruct (each items (assignEventId a) s1) as [r1 s2] eqn:Hrest end.
        apply IH in Hrest. destruct Hrest as (err & items' & -> & Hm & Hok & Hbad).
        injection Hrun as <- <-. eexists err, (_ :: items'). cbn [fst snd].
        split; [reflexivity|]. split; [exact Hm|]. split; [|exact Hbad].
        intros Herr. constructor; [|now apply Hok].
        split; [congruence|]. intros _. exists (ids s).
        split; [exact Hgen|]. split; [reflexivity|]. apply get_put_writable.
Qed.

Lemma assignEventIds_callback (a : Aggregate.t) (s s' : State) (r : result value) :
  assignEventIds a s = (r, s') ->
  exists err,
    r = Ok err
    /\ AggregateModel.attributes (model s') = AggregateModel.attributes (model s)
    /\ (truthy err = false ->
        Forall2 (backfilled a)
          (AggregateModel.uncommittedEvents (model s))
          (AggregateModel.uncommittedEvents (model s')))
    /\ (truthy err = true ->
        exists earlier c, trace s' = earlier ++ [c] /\ isNewId c).
Proof.
  unfold assignEventIds. unfold bind at 1, getModel at 1. unfold bind at 1.
  destruct (each _ (assignEventId a) s) as [r1 s1] eqn:Heach.
  apply each_assignEventId in Heach.
  destruct Heach as (err & items' & -> & Hm & Hok & Hbad).
  cbv beta iota delta [bind updateModel ret]. cbn [fst snd].
  intros H. injection H as <- <-. exists err. cbn [model trace].
  rewrite Hm. repeat split; assumption.
Qed.

(** ** Failure and rollback *)

Lemma call_kinds_disjoint (c : call) :
  (isBusinessRuleCheck c -> isPreConditionCall c -> False)
  /\ (isNewId c -> isBusinessRuleCheck c -> False)
  /\ (isNewId c -> isPreConditionCall c -> False).
Proof.
  repeat split.
  - intros (r & l & ->) (r' & l' & [H|H]); discriminate.
  - intros (n & ->) (r & l & H); discriminate.
  - intros (n & ->) (r & l & [H|H]); discriminate.
Qed.

(** C1, as the code has it: when [handle] calls back with an error, the
    check that answered with the error is the last call that [handle]
    made.  If that check is a business rule, the field bag of the model is
    the one it had before [handle] was called and the buffer of
    uncommitted events is empty.  If it is a precondition, of the
    aggregate or of the command, the field bag and the buffer are the ones
    the model had before the call.  (Nothing is said about a failure of
    the id generator.) *)
Theorem handle_failure_restores_model
    (a : Aggregate.t) (cmd : loc) (s s' : State) (err : value) :
  (cmd < List.length (store s))%nat ->
  trace s = [] ->
  handle a cmd s = (Ok err, s') ->
  truthy err = true ->
  forall earlier c,
    trace s' = earlier ++ [c] ->
    (isBusinessRuleCheck c ->
       AggregateModel.attributes (model s') = AggregateModel.attributes (model s)
       /\ AggregateModel.uncommittedEvents (model s') = [])
    /\ (isPreConditionCall c ->
          AggregateModel.attributes (model s') = AggregateModel.attributes (model s)
          /\ AggregateModel.uncommittedEvents (model s')
             = AggregateModel.uncommittedEvents (model s)).
Proof.
  intros Hcmd Hfresh Hrun Herr earlier c Htrace.
  destruct (call_kinds_disjoint c) as (Hrp & Hnr & Hnp).
  apply handle_callback in Hrun.
  destruct Hrun as [[-> _]|(command & s1 & err1 & Hpre & Hrun)].
  { rewrite Hfresh in Htrace. now destruct earlier. }
  apply checkPreConditions_callback in Hpre; [|exact Hcmd].
  destruct Hpre as [Hm1 Hlast1].
  destruct Hrun as [(Herr1 & -> & ->)|(Herr1 & s3 & s4 & err4 & _ & Hids & Hrun)].
  { destruct (Hlast1 Herr1) as (earlier' & c' & Htrace' & Hkind).
    rewrite Htrace' in Htrace. apply app_inj_tail in Htrace.
    destruct Htrace as [_ ->]. rewrite Hm1. split.
    - intros Hrule. exfalso. exact (Hrp Hrule Hkind).
    - intros _. split; reflexivity. }
  apply assignEventIds_callback in Hids.
  destruct Hids as (err4' & Heq & _ & _ & Hlast4). injection Heq as <-.
  destruct Hrun as [(Herr4 & -> & ->)|(Herr4 & s5 & err5 & Hrules & Hrun)].
  { destruct (Hlast4 Herr4) as (earlier' & c' & Htrace' & Hkind).
    rewrite Htrace' in Htrace. apply app_inj_tail in Htrace.
    destruct Htrace as [_ ->]. split; intros Hc; exfalso; eauto. }
  apply checkBusinessRules_callback in Hrules.
  destruct Hrules as (err5' & Heq & Hm5 & Hlast5). injection Heq as <-.
  destruct Hrun as [(_ & -> & _)|(Herr5 & -> & ->)]; [discriminate|].
  destruct (Hlast5 Herr5) as (earlier' & c' & Htrace' & Hkind).
  cbn [rolledBack trace] in Htrace. rewrite Htrace' in Htrace.
  apply app_inj_tail in Htrace. destruct Htrace as [_ ->]. split.
  - intros _. unfold rolledBack, previousModelOf. cbn. now rewrite Hm1.
  - intros Hc. exfalso. exact (Hrp Hkind Hc).
Qed.

Lemma handle_failure_restores_model_witness :
  let s' := snd (handle (Sample.ruled Sample.countingIds) 0%nat
                   (Sample.start (AggregateModel.new "p1" []) Sample.enterJo)) in
  AggregateModel.attributes (model s') = []
  /\ AggregateModel.uncommittedEvents (model s') = [].
Proof.
  cbv zeta.
  refine (proj1 (handle_failure_restores_model
                   (Sample.ruled Sample.countingIds) 0%nat
                   (Sample.start (AggregateModel.new "p1" []) Sample.enterJo)
                   _ (Error "rule broken") _ eq_refl _ eq_refl
                   [CommandPreConditions 20 0%nat; CommandHandle 20 0%nat;
                    EventApply 10; NewId 0]
                   (BusinessRuleCheck 40 0%nat) _) _).
  - simpl. lia.
  - vm_compute. reflexivity.
  - vm_compute. reflexivity.
  - now exists 40%nat, 0%nat.
Defined.

(** C1 as the claim has it fails twice.  When the id generator fails,
    [handle] calls back with the error while the model keeps the fields
    that the handler's event has set and keeps that event in its buffer.
    When a precondition fails on a model whose buffer holds an event, the
    buffer is not emptied. *)
Lemma handle_failure_counterexample :
  (let s := Sample.start (AggregateModel.new "p1" []) Sample.enterJo in
   let r := handle (Sample.person Sample.failingIds) 0%nat s in
   fst r = Ok (Error "no id")
   /\ AggregateModel.attributes (model s) = []
   /\ AggregateModel.attributes (model (snd r)) = [("name", VStr "Jo")]
   /\ List.length (AggregateModel.uncommittedEvents (model (snd r))) = 1%nat)
  /\ (let s := Sample.start
                 (AggregateModel.addUncommittedEvent Sample.leftOver
                    (AggregateModel.new "p1" []))
                 Sample.enterJo in
      let r := handle (Sample.guarded Sample.countingIds) 0%nat s in
      fst r = Ok (Error "rejected")
      /\ AggregateModel.uncommittedEvents (model (snd r)) = [Sample.leftOver]).
Proof. vm_compute. repeat split. Qed.

(** ** Ids of the uncommitted events *)

(** The stages of a [handle] that ends without an error, each with the
    state it starts from *)
Lemma handle_success_stages (a : Aggregate.t) (cmd : loc) (s s' : State)
    (err : value) :
  handle a cmd s = (Ok err, s') ->
  truthy err = false ->
  exists (command : Command) (err1 err4 err5 : value) (s4 : State),
    getCommand a (commandName a (deref (store s) cmd))
               (commandVersion a (deref (store s) cmd)) = Ok (Some command)
    /\ checkPreConditions a cmd (gateClosed s) = (Ok err1, checkedState a cmd s)
    /\ truthy err1 = false
    /\ handlerRun a cmd command s = (Ok tt, handledState a cmd command s)
    /\ assignEventIds a (handledState a cmd command s) = (Ok err4, s4)
    /\ truthy err4 = false
    /\ checkBusinessRules a (previousModelOf (checkedState a cmd s))
         (AggregateModel.getUncommittedEvents (model s4)) cmd s4 = (Ok err5, s')
    /\ truthy err5 = false.
Proof.
  intros Hrun Herr. revert Hrun.
  unfold handle. unfold bind at 1, readObject at 1.
  fold (commandName a (deref (store s) cmd)).
  fold (commandVersion a (deref (store s) cmd)).
  destruct (truthy (commandName a (deref (store s) cmd))) eqn:Hname; cbn [negb].
  2:{ intros H. injection H as <- _. discriminate Herr. }
  unfold bind at 1, lift at 1.
  destruct (getCommand a _ _) as [[command|]|e0] eqn:Hget; [| |discriminate].
  2:{ intros H. injection H as <- _. discriminate Herr. }
  unfold bind at 1, updateModel at 1. fold (gateClosed s).
  unfold bind at 1.
  destruct (checkPreConditions a cmd (gateClosed s)) as [[err1|e] s1] eqn:Hpre;
    [|discriminate].
  assert (Hs1 : checkedState a cmd s = s1)
    by (unfold checkedState; now rewrite Hpre).
  destruct (truthy err1) eqn:Herr1.
  { intros H. injection H as <- _. congruence. }
  unfold bind at 1, getModel at 1.
  unfold bind at 1, readObject at 1.
  unfold bind at 1, record at 1. fold (handling command cmd s1).
  unfold bind at 1.
  destruct (runScript a cmd _ (handling command cmd s1)) as [[[]|e] s3] eqn:Hscript;
    [|discriminate].
  assert (Hrun3 : handlerRun a cmd command s = (Ok tt, s3))
    by (unfold handlerRun; cbv zeta; rewrite Hs1; exact Hscript).
  assert (Hs3 : handledState a cmd command s = s3)
    by (unfold handledState; now rewrite Hrun3).
  unfold bind at 1.
  destruct (assignEventIds a s3) as [[err4|e] s4] eqn:Hids; [|discriminate].
  destruct (truthy err4) eqn:Herr4.
  { intros H. injection H as <- _. congruence. }
  unfold bind at 1, getModel at 1. unfold bind at 1.
  fold (previousModelOf s1).
  destruct (checkBusinessRules a (previousModelOf s1) _ cmd s4)
    as [[err5|e] s5] eqn:Hrules; [|discriminate].
  destruct (truthy err5) eqn:Herr5; cbn [negb].
  { cbv beta iota delta [bind updateModel ret].
    intros H. injection H as <- _. congruence. }
  intros H. injection H as _ <-.
  exists command, err1, err4, err5, s4. rewrite Hs1, Hs3.
  repeat split; first [reflexivity|assumption].
Qed.

Lemma each_assignEventId_exact (a : Aggregate.t) (items : list value) :
  forall s err items' s',
    each items (assignEventId a) s = (Ok (err, items'), s') ->
    truthy err = false ->
    items' = backfill a (ids s) items.
Proof.
  induction items as [|evt items IH]; intros s err items' s' Hrun Herr.
  - injection Hrun as <- <- <-. reflexivity.
  - cbn [each] in Hrun. unfold bind at 1, assignEventId at 1 in Hrun.
    cbn [backfill].
    destruct (truthy (Dotty.get evt (e_id (ep a)))) eqn:Hid.
    + cbv beta iota delta [ret] in Hrun. cbn [fst snd truthy] in Hrun.
      unfold bind at 1 in Hrun.
      destruct (each items (assignEventId a) s) as [[[err1 items1]|e] s1] eqn:Hrest;
        [|discriminate].
      cbn [fst snd] in Hrun. injection Hrun as <- <- <-.
      f_equal. exact (IH _ _ _ _ Hrest Herr).
    + unfold bind at 1, newId at 1 in Hrun.
      destruct (truthy (fst (getNewId a (ids s)))) eqn:Hgen.
      * cbv beta iota delta [ret] in Hrun. cbn [fst snd] in Hrun.
        rewrite Hgen in Hrun. injection Hrun as <- _ _. congruence.
      * cbv beta iota delta [ret] in Hrun. cbn [fst snd truthy] in Hrun.
        unfold bind at 1 in Hrun.
        match type of Hrun with context [each items _ ?s1] =>
          destruct (each items (assignEventId a) s1)
            as [[[err1 items1]|e] s2] eqn:Hrest end; [|discriminate].
        cbn [fst snd] in Hrun. injection Hrun as <- <- <-.
        f_equal. exact (IH _ _ _ _ Hrest Herr).
Qed.

Lemma assignEventIds_exact (a : Aggregate.t) (s s' : State) (err : value) :
  assignEventIds a s = (Ok err, s') ->
  truthy err = false ->
  AggregateModel.uncommittedEvents (model s')
  = backfill a (ids s) (AggregateModel.uncommittedEvents (model s)).
Proof.
  unfold assignEventIds. unfold bind at 1, getModel at 1. unfold bind at 1.
  unfold AggregateModel.getUncommittedEvents.
  destruct (each _ (assignEventId a) s) as [[[err1 items1]|e] s1] eqn:Heach;
    [|discriminate].
  cbv beta iota delta [bind updateModel ret]. cbn [fst snd].
  intros H Herr. injection H as <- <-. cbn.
  exact (each_assignEventId_exact _ _ _ _ _ _ Heach Herr).
Qed.

(** C4: when [handle] succeeds, the handle of the command that
    [getCommand] resolves has returned, and the buffer that [handle]
    leaves is the buffer of that moment passed through the id-assignment
    step: an event with a truthy value at the id path is
    still the same event, and every other event has had the id of a
    successful call of the id generator written at the id path, and
    carries it there whenever the path can be written in the event.  The
    events stay in their order, and the generator is called once for each
    event without an id, in that order. *)
Theorem handle_backfills_event_ids
    (a : Aggregate.t) (cmd : loc) (s s' : State) (err : value) :
  handle a cmd s = (Ok err, s') ->
  truthy err = false ->
  exists command : Command,
    getCommand a (commandName a (deref (store s) cmd))
               (commandVersion a (deref (store s) cmd)) = Ok (Some command)
    /\ let entered := handledState a cmd command s in
       handlerRun a cmd command s = (Ok tt, entered)
       /\ Forall2 (backfilled a)
            (AggregateModel.uncommittedEvents (model entered))
            (AggregateModel.uncommittedEvents (model s'))
       /\ AggregateModel.uncommittedEvents (model s')
          = backfill a (ids entered)
              (AggregateModel.uncommittedEvents (model entered)).
Proof.
  intros Hrun Herr.
  destruct (handle_success_stages _ _ _ _ _ Hrun Herr)
    as (command & err1 & err4 & err5 & s4
        & Hget & _ & _ & Hhandled & Hids & Herr4 & Hrules & _).
  exists command. split; [exact Hget|]. cbv zeta.
  split; [exact Hhandled|].
  apply checkBusinessRules_callback in Hrules.
  destruct Hrules as (err5' & _ & Hm5 & _). rewrite Hm5.
  split.
  - apply assignEventIds_callback in Hids.
    destruct Hids as (err4' & Heq & _ & Hfilled & _). injection Heq as <-.
    now apply Hfilled.
  - exact (assignEventIds_exact _ _ _ _ Hids Herr4).
Qed.

Lemma handle_backfills_event_ids_witness :
  let a := Sample.person Sample.countingIds in
  let s := Sample.start
             (AggregateModel.addUncommittedEvent Sample.leftOver
                (AggregateModel.new "p1" []))
             Sample.enterJo in
  exists command : Command,
    getCommand a (commandName a (deref (store s) 0%nat))
               (commandVersion a (deref (store s) 0%nat)) = Ok (Some command)
    /\ let entered := handledState a 0%nat command s in
       handlerRun a 0%nat command s = (Ok tt, entered)
       /\ Forall2 (backfilled a)
            (AggregateModel.uncommittedEvents (model entered))
            (AggregateModel.uncommittedEvents (model (snd (handle a 0%nat s))))
       /\ AggregateModel.uncommittedEvents (model (snd (handle a 0%nat s)))
          = backfill a (ids entered)
              (AggregateModel.uncommittedEvents (model entered)).
Proof.
  intros a s.
  apply (handle_backfills_event_ids a 0%nat s (snd (handle a 0%nat s)) VNull).
  - vm_compute. reflexivity.
  - reflexivity.
Defined.

(** ** Loading a snapshot *)

Lemma forEach_set_open (datas : list value) :
  forall s,
    AggregateModel.gate (model s) = true ->
    forEach datas set s
    = (Ok tt, mkState (afterSets datas (model s)) (store s) (trace s) (ids s)).
Proof.
  induction datas as [|data datas IH]; intros s Hgate.
  - simpl. unfold ret. now destruct s.
  - cbn [forEach]. unfold bind at 1, set at 1, bind at 1, getModel at 1.
    rewrite Hgate. unfold updateModel at 1. rewrite IH; [reflexivity|].
    exact Hgate.
Qed.

Lemma afterSets_gate (datas : list value) (m : Model) :
  AggregateModel.gate (afterSets datas m) = AggregateModel.gate m.
Proof.
  revert m. induction datas as [|data datas IH]; intros m; [reflexivity|].
  simpl. now rewrite IH.
Qed.





(** ** Scenarios *)

(** A failing precondition: the error reaches the callback, the model keeps
    its fields and has no uncommitted events. *)
Example scenario_failing_precondition :
  let s := Sample.start (AggregateModel.new "p1" [("city", VStr "Bern")])
                        Sample.enterJo in
  let r := handle (Sample.guarded Sample.countingIds) 0%nat s in
  fst r = Ok (Error "rejected")
  /\ AggregateModel.attributes (model (snd r)) = [("city", VStr "Bern")]
  /\ AggregateModel.uncommittedEvents (model (snd r)) = []
  /\ trace (snd r) = [PreConditionCheck 31 1%nat].
Proof. vm_compute. repeat split. Qed.

(** A failing business rule: fields reset, buffer cleared, while the
    revision stays where the handler's event has put it. *)
Example scenario_failing_business_rule :
  let s := Sample.start (AggregateModel.new "p1" [("city", VStr "Bern")])
                        Sample.enterJo in
  let r := handle (Sample.ruled Sample.countingIds) 0%nat s in
  fst r = Ok (Error "rule broken")
  /\ AggregateModel.attributes (model (snd r)) = [("city", VStr "Bern")]
  /\ AggregateModel.uncommittedEvents (model (snd r)) = []
  /\ AggregateModel.revision (model (snd r)) = 1.
Proof. vm_compute. repeat split. Qed.

(** A snapshot of the aggregate's version and no events: no snapshot is
    due. *)
Example scenario_snapshot_without_events :
  fst (loadFromHistory (Sample.person Sample.countingIds)
         (Some {| snap_version := 0; snap_revision := 5;
                  snap_data := VObj [("name", VStr "Jo")] |})
         (VArr []) 10
         (Sample.start (AggregateModel.new "p1" []) Sample.enterJo))
  = Ok false.
Proof. reflexivity. Qed.

(** A snapshot followed by 150 events, with the default threshold of 100:
    a snapshot is due, and the revision is the largest of the events. *)
Example scenario_snapshot_with_150_events :
  let evt := VObj [("name", VStr "personEntered");
                   ("payload", VObj [("name", VStr "Jo")]);
                   ("revision", VNum 9)] in
  let r := loadFromHistory (Sample.person Sample.countingIds)
             (Some {| snap_version := 0; snap_revision := 5;
                      snap_data := VObj [("name", VStr "Al")] |})
             (VArr (repeat evt 150)) 10
             (Sample.start (AggregateModel.new "p1" []) Sample.enterJo) in
  fst r = Ok true /\ AggregateModel.revision (model (snd r)) = 9.
Proof. vm_compute. split; reflexivity. Qed.

(** * Further properties of the aggregate *)

(** ** Registration *)

Section SortByPermutation.
Context {A : Type} (key : A -> Z).

Lemma insertBy_permutation (x : A) (l : list A) :
  Permutation (insertBy key x l) (x :: l).
Proof.
  induction l as [|y l IH]; simpl; [reflexivity|].
  destruct (key y <=? key x); [|reflexivity].
  rewrite IH. apply perm_swap.
Qed.

Lemma sortBy_permutation (l : list A) : Permutation (sortBy key l) l.
Proof.
  unfold sortBy.
  assert (H : forall acc,
            Permutation (fold_left (fun acc x => insertBy key x acc) l acc)
                        (acc ++ l)).
  { induction l as [|x l IH]; intros acc; simpl.
    - now rewrite app_nil_r.
    - rewrite IH, insertBy_permutation. apply Permutation_middle. }
  apply (H []).
Qed.
End SortByPermutation.

Lemma absent_false_iff {A : Type} (ref : A -> nat) (x : A) (l : list A) :
  absent ref x l = false <-> exists y, In y l /\ ref y = ref x.
Proof.
  unfold absent. rewrite negb_false_iff, existsb_exists.
  split; intros [y [Hin Hy]]; exists y; split; try assumption.
  - now apply Nat.eqb_eq.
  - now apply Nat.eqb_eq.
Qed.

Lemma registeredPreCondition_ref (a : Aggregate.t) (preCond : PreCondition) :
  pc_ref (registeredPreCondition a preCond) = pc_ref preCond
  /\ pc_priority (registeredPreCondition a preCond) = pc_priority preCond
  /\ pc_check (registeredPreCondition a preCond) = pc_check preCond.
Proof.
  unfold registeredPreCondition.
  destruct (pc_payload preCond =? "")%string; repeat split.
Qed.

Lemma addPreCondition_cases (a : Aggregate.t) (preCond : PreCondition) :
  addPreCondition preCond a
  = if absent pc_ref preCond (preConditions a)
    then withPreConditions
           (sortBy pc_priority
              (preConditions a ++ [registeredPreCondition a preCond])) a
    else a.
Proof.
  unfold addPreCondition, registeredPreCondition, absent.
  destruct (pc_payload preCond =? "")%string; reflexivity.
Qed.

(** X1: [addPreCondition] registers an object once.  A precondition that
    is not yet registered joins the list, which otherwise keeps exactly
    the preconditions it had; a precondition that is registered already
    leaves the aggregate as it is, so that registering twice is the same
    as registering once. *)
Theorem addPreCondition_registers_once (a : Aggregate.t) (preCond : PreCondition) :
  (absent pc_ref preCond (preConditions a) = true ->
     Permutation (preConditions (addPreCondition preCond a))
                 (registeredPreCondition a preCond :: preConditions a))
  /\ (absent pc_ref preCond (preConditions a) = false ->
      addPreCondition preCond a = a)
  /\ addPreCondition preCond (addPreCondition preCond a)
     = addPreCondition preCond a.
Proof.
  rewrite addPreCondition_cases.
  destruct (absent pc_ref preCond (preConditions a)) eqn:Habs.
  - split; [intros _|split; [discriminate|]].
    + cbn [preConditions withPreConditions].
      rewrite sortBy_permutation. apply Permutation_sym, Permutation_cons_append.
    + rewrite addPreCondition_cases.
      set (a' := withPreConditions _ a).
      assert (Hin : absent pc_ref preCond (preConditions a') = false).
      { apply absent_false_iff. exists (registeredPreCondition a preCond).
        split; [|apply registeredPreCondition_ref].
        subst a'. cbn [preConditions withPreConditions].
        apply (Permutation_in _ (Permutation_sym (sortBy_permutation _ _))).
        apply in_or_app. right. now left. }
      now rewrite Hin.
  - split; [discriminate|]. split; [reflexivity|].
    rewrite addPreCondition_cases. now rewrite Habs.
Qed.

Lemma addPreCondition_registers_once_witness :
  Permutation
    (preConditions (addPreCondition Sample.rejecting
                      (Sample.wiped Sample.countingIds)))
    [Sample.rejecting; Sample.wiping].
Proof.
  apply (proj1 (addPreCondition_registers_once
                  (Sample.wiped Sample.countingIds) Sample.rejecting)).
  reflexivity.
Defined.

(** ** Looking up definitions *)

Lemma find_snoc {A : Type} (f : A -> bool) (l : list A) (x : A) :
  find f (l ++ [x])
  = match find f l with
    | Some y => Some y
    | None => if f x then Some x else None
    end.
Proof.
  induction l as [|y l IH]; simpl; [reflexivity|].
  destruct (f y); [reflexivity|exact IH].
Qed.

Lemma registeredEvent_same (a : Aggregate.t) (event : Event) :
  evt_ref (registeredEvent a event) = evt_ref event
  /\ evt_name (registeredEvent a event) = evt_name event
  /\ evt_version (registeredEvent a event) = evt_version event
  /\ evt_apply (registeredEvent a event) = evt_apply event.
Proof.
  unfold registeredEvent. destruct (evt_payload event =? "")%string;
    repeat split.
Qed.

Lemma addEvent_cases (a : Aggregate.t) (event : Event) :
  addEvent event a
  = if absent evt_ref event (events a)
    then withEvents (events a ++ [registeredEvent a event]) a
    else a.
Proof.
  unfold addEvent, registeredEvent, absent.
  destruct (evt_payload event =? "")%string; reflexivity.
Qed.

(** X2: [getEvent] after [addEvent].  Whatever definition [getEvent]
    found for a name and version before, it finds the same one after any
    further registration: the first definition registered for a pair
    stays the one in use.  An event definition that is new to the
    registry, under a name and version for which [getEvent] found
    nothing, is the one that [getEvent] finds from then on. *)
Theorem getEvent_after_addEvent (a : Aggregate.t) (event : Event) :
  (forall name version found,
      getEvent a name version = Ok (Some found) ->
      getEvent (addEvent event a) name version = Ok (Some found))
  /\ (evt_name event <> "" ->
      absent evt_ref event (events a) = true ->
      getEvent a (VStr (evt_name event)) (VNum (evt_version event)) = Ok None ->
      getEvent (addEvent event a)
               (VStr (evt_name event)) (VNum (evt_version event))
      = Ok (Some (registeredEvent a event))).
Proof.
  rewrite addEvent_cases. split.
  - intros name version found. unfold getEvent.
    destruct (negb (truthy name) || negb (isString name)); [discriminate|].
    destruct (negb (isNumber (or_else version (VNum 0)))); [discriminate|].
    destruct (absent evt_ref event (events a)); [|trivial].
    cbn [events withEvents]. rewrite find_snoc.
    intros H. injection H as ->. reflexivity.
  - intros Hname Habs. rewrite Habs. unfold getEvent.
    cbn [truthy isString negb orb events withEvents].
    destruct (String.eqb_spec (evt_name event) ""); [contradiction|].
    cbn [negb orb]. rewrite find_snoc.
    destruct (negb (isNumber (or_else (VNum (evt_version event)) (VNum 0))));
      [discriminate|].
    intros H.
    apply (f_equal (fun r => match r with Ok x => x | Throw _ => None end)) in H.
    cbv beta iota in H. rewrite H.
    destruct (registeredEvent_same a event) as (_ & -> & -> & _).
    unfold str_eq, num_eq, or_else. cbn [truthy].
    rewrite String.eqb_refl.
    destruct (Z.eqb_spec (evt_version event) 0) as [->|]; cbn [negb andb].
    + reflexivity.
    + now rewrite Z.eqb_refl.
Qed.

Lemma getEvent_after_addEvent_witness :
  getEvent (addEvent Sample.personEnteredV2 (Sample.person Sample.countingIds))
           (VStr "personEntered") (VNum 2)
  = Ok (Some (registeredEvent (Sample.person Sample.countingIds)
                              Sample.personEnteredV2)).
Proof.
  apply (proj2 (getEvent_after_addEvent (Sample.person Sample.countingIds)
                                        Sample.personEnteredV2)).
  - discriminate.
  - reflexivity.
  - reflexivity.
Defined.

Lemma find_filter {A : Type} (f g : A -> bool) (l : list A) :
  find (fun x => f x && g x) l = find g (filter f l).
Proof.
  induction l as [|x l IH]; simpl; [reflexivity|].
  destruct (f x); simpl; [destruct (g x); [reflexivity|exact IH]|exact IH].
Qed.

(** X3: [getCommand] and [getCommandsByName] go together.  Both throw for
    the same names.  Otherwise [getCommandsByName] returns the registered
    commands of that name and no others, and [getCommand] with a valid
    version returns the first of them that has the version. *)
Theorem getCommand_among_getCommandsByName
    (a : Aggregate.t) (name version : value) :
  match getCommandsByName a name with
  | Throw e => getCommand a name version = Throw e
  | Ok named =>
      (forall c, In c named
                 <-> In c (commands a) /\ str_eq (cmd_name c) name = true)
      /\ (isNumber (or_else version (VNum 0)) = true ->
          getCommand a name version
          = Ok (find (fun c => num_eq (cmd_version c) (or_else version (VNum 0)))
                     named))
  end.
Proof.
  unfold getCommandsByName, getCommand.
  destruct (negb (truthy name) || negb (isString name)); [reflexivity|].
  split.
  - intros c. apply filter_In.
  - intros ->. cbn [negb]. now rewrite find_filter.
Qed.

Lemma getCommand_among_getCommandsByName_witness :
  getCommand (Sample.person Sample.countingIds) (VStr "enterPerson") VUndefined
  = Ok (find (fun c => num_eq (cmd_version c) (VNum 0)) [Sample.enterPerson]).
Proof.
  apply (proj2 (getCommand_among_getCommandsByName
                  (Sample.person Sample.countingIds)
                  (VStr "enterPerson") VUndefined)).
  reflexivity.
Defined.

(** ** Resolution of the command *)

Lemma handle_gives_up_unchanged (a : Aggregate.t) (cmd : loc) (s : State) :
  (truthy (commandName a (deref (store s) cmd)) = false ->
     handle a cmd s = (Ok (noNameError a), s))
  /\ (truthy (commandName a (deref (store s) cmd)) = true ->
      getCommand a (commandName a (deref (store s) cmd))
                 (commandVersion a (deref (store s) cmd)) = Ok None ->
      handle a cmd s = (Ok (notFoundError a (deref (store s) cmd)), s)).
Proof.
  unfold commandName, commandVersion, noNameError, notFoundError.
  split; intros Hname; unfold handle, bind, readObject, lift;
    rewrite Hname; cbn [negb]; [reflexivity|].
  intros Hget. rewrite Hget. reflexivity.
Qed.

(** X4: how [handle] ends when it cannot resolve the command; the state is
    untouched in each case, the gate included.  A command without a name,
    and a name and version for which no command is registered, end in a
    call of the callback with the error.  A name that is not a string, and
    a version that is not a number, end in an exception thrown by
    [handle]: the callback is not called. *)
Theorem handle_unresolved (a : Aggregate.t) (cmd : loc) (s : State) :
  let c := deref (store s) cmd in
  (truthy (commandName a c) = false ->
     handle a cmd s = (Ok (noNameError a), s))
  /\ (truthy (commandName a c) = true -> isString (commandName a c) = false ->
      handle a cmd s = (Throw (Error "Please pass a valid string as name!"), s))
  /\ (truthy (commandName a c) = true -> isString (commandName a c) = true ->
      isNumber (or_else (commandVersion a c) (VNum 0)) = false ->
      handle a cmd s = (Throw (Error "Please pass a valid number as version!"), s))
  /\ (truthy (commandName a c) = true ->
      getCommand a (commandName a c) (commandVersion a c) = Ok None ->
      handle a cmd s = (Ok (notFoundError a c), s)).
Proof.
  cbv zeta. unfold commandName, commandVersion, noNameError, notFoundError.
  repeat split; intros Hname; unfold handle, bind, readObject, lift;
    rewrite Hname; cbn [negb].
  - reflexivity.
  - intros Hstr. unfold getCommand. rewrite Hname, Hstr. reflexivity.
  - intros Hstr Hnum. unfold getCommand. rewrite Hname, Hstr, Hnum. reflexivity.
  - intros Hget. rewrite Hget. reflexivity.
Qed.

Lemma handle_unresolved_witness :
  handle (Sample.person Sample.countingIds) 0%nat
    (Sample.start (AggregateModel.new "p1" [])
                  (VObj [("id", VStr "c1"); ("name", VNum 7)]))
  = (Throw (Error "Please pass a valid string as name!"),
     Sample.start (AggregateModel.new "p1" [])
                  (VObj [("id", VStr "c1"); ("name", VNum 7)])).
Proof.
  apply (proj1 (proj2 (handle_unresolved (Sample.person Sample.countingIds)
                         0%nat
                         (Sample.start (AggregateModel.new "p1" [])
                            (VObj [("id", VStr "c1"); ("name", VNum 7)]))))).
  - reflexivity.
  - reflexivity.
Defined.

(** X5: [validateCommand] and [handle] resolve the command alike.  Every
    error that [validateCommand] throws for a command is the error with
    which [handle] ends for it, as the argument of the callback or as an
    exception, before anything is changed.  When [validateCommand] returns,
    its result is the verdict of the [validate] operation of a registered
    command with that name and version. *)
Theorem validateCommand_resolves_like_handle
    (validate : Command -> value -> value) (a : Aggregate.t) (cmd : loc)
    (s : State) :
  let c := deref (store s) cmd in
  (forall e, validateCommand validate a c = Throw e ->
     handle a cmd s = (Ok e, s) \/ handle a cmd s = (Throw e, s))
  /\ (forall verdict, validateCommand validate a c = Ok verdict ->
      exists command,
        In command (commands a)
        /\ str_eq (cmd_name command) (commandName a c) = true
        /\ num_eq (cmd_version command) (or_else (commandVersion a c) (VNum 0))
           = true
        /\ verdict = validate command c).
Proof.
  cbv zeta. unfold validateCommand.
  fold (commandName a (deref (store s) cmd)).
  fold (commandVersion a (deref (store s) cmd)).
  destruct (handle_gives_up_unchanged a cmd s) as (Hnone & Hmissing).
  destruct (truthy (commandName a (deref (store s) cmd))) eqn:Hname; cbn [negb].
  2:{ split; [|discriminate]. intros e He. injection He as <-.
      left. now apply Hnone. }
  destruct (getCommand a _ _) as [[command|]|e0] eqn:Hget.
  - split; [discriminate|]. intros verdict Hv. injection Hv as <-.
    exists command. split; [now apply getCommand_found in Hget|].
    unfold getCommand in Hget.
    destruct (negb (truthy _) || negb (isString _)); [discriminate|].
    destruct (negb (isNumber _)); [discriminate|].
    injection Hget as Hget. apply find_some in Hget.
    destruct Hget as [_ Hm]. apply andb_true_iff in Hm. now destruct Hm.
  - split; [|discriminate]. intros e He. injection He as <-.
    left. now apply Hmissing.
  - split; [|discriminate]. intros e He. injection He as <-.
    right. unfold handle, bind, readObject, lift.
    fold (commandName a (deref (store s) cmd)).
    fold (commandVersion a (deref (store s) cmd)).
    rewrite Hname. cbn [negb]. now rewrite Hget.
Qed.

Lemma validateCommand_resolves_like_handle_witness :
  exists command,
    In command (commands (Sample.person Sample.countingIds))
    /\ str_eq (cmd_name command) (commandName (Sample.person Sample.countingIds)
                                              Sample.enterJo) = true
    /\ num_eq (cmd_version command)
         (or_else (commandVersion (Sample.person Sample.countingIds)
                                  Sample.enterJo) (VNum 0)) = true
    /\ VBool true = (fun _ _ => VBool true) command Sample.enterJo.
Proof.
  apply (proj2 (validateCommand_resolves_like_handle
                  (fun _ _ => VBool true) (Sample.person Sample.countingIds)
                  0%nat
                  (Sample.start (AggregateModel.new "p1" []) Sample.enterJo))
               (VBool true)).
  reflexivity.
Defined.

(** ** What the stages of [handle] leave behind *)

Lemma applyHelper_closes_gate (a : Aggregate.t) (cmd : loc) (name payload : value)
    (s s' : State) :
  applyHelper a cmd name payload s = (Ok tt, s') ->
  AggregateModel.gate (model s') = false.
Proof.
  unfold applyHelper.
  cbv beta iota delta [bind updateModel readObject getModel lift].
  cbn [model store trace ids].
  destruct (stampContext a _ _) as [evt|e]; [|discriminate].
  match goal with |- context [apply a evt ?s1] =>
    destruct (apply a evt s1) as [[[]|e] s2] end; [|discriminate].
  intros H. now injection H as <-.
Qed.

Lemma runScript_closes_gate (a : Aggregate.t) (cmd : loc) (script : script) :
  forall s s',
    AggregateModel.gate (model s) = false ->
    runScript a cmd script s = (Ok tt, s') ->
    AggregateModel.gate (model s') = false.
Proof.
  induction script as [|name payload next IH]; intros s s' Hgate Hrun.
  - now injection Hrun as <-.
  - cbn [runScript] in Hrun. unfold bind at 1 in Hrun.
    destruct (applyHelper a cmd name payload s) as [[[]|e] s1] eqn:Hstep;
      [|discriminate].
    unfold bind at 1, getModel at 1 in Hrun.
    apply (IH _ _ _ (applyHelper_closes_gate _ _ _ _ _ _ Hstep) Hrun).
Qed.

Lemma each_assignEventId_frame (a : Aggregate.t) (items : list value) :
  forall s r s',
    each items (assignEventId a) s = (r, s') ->
    model s' = model s /\ store s' = store s.
Proof.
  induction items as [|evt items IH]; intros s r s' Hrun.
  - injection Hrun as _ <-. now split.
  - cbn [each] in Hrun. unfold bind at 1, assignEventId at 1 in Hrun.
    destruct (truthy (Dotty.get evt (e_id (ep a)))).
    + cbv beta iota delta [ret] in Hrun. cbn [fst snd truthy] in Hrun.
      unfold bind at 1 in Hrun.
      destruct (each items (assignEventId a) s) as [[r1|e] s1] eqn:Hrest;
        apply IH in Hrest; injection Hrun as _ <-; exact Hrest.
    + unfold bind at 1, newId at 1 in Hrun.
      destruct (truthy (fst (getNewId a (ids s)))) eqn:Hgen.
      * cbv beta iota delta [ret] in Hrun. cbn [fst snd] in Hrun.
        rewrite Hgen in Hrun. injection Hrun as _ <-. now split.
      * cbv beta iota delta [ret] in Hrun. cbn [fst snd truthy] in Hrun.
        unfold bind at 1 in Hrun.
        match type of Hrun with context [each items _ ?s1] =>
          destruct (each items (assignEventId a) s1) as [[r1|e] s2] eqn:Hrest end;
          apply IH in Hrest; injection Hrun as _ <-; exact Hrest.
Qed.

Lemma assignEventIds_frame (a : Aggregate.t) (s s' : State) (r : result value) :
  assignEventIds a s = (r, s') ->
  (exists evts, model s' = AggregateModel.withUncommittedEvents evts (model s))
  /\ store s' = store s.
Proof.
  unfold assignEventIds. unfold bind at 1, getModel at 1. unfold bind at 1.
  destruct (each _ (assignEventId a) s) as [[r1|e] s1] eqn:Heach;
    apply each_assignEventId_frame in Heach; destruct Heach as [Hm Hs].
  - cbv beta iota delta [bind updateModel ret].
    intros H. injection H as _ <-. cbn [model store]. rewrite Hm, Hs.
    split; [now eexists|reflexivity].
  - intros H. injection H as _ <-. rewrite Hm, Hs. split; [|reflexivity].
    exists (AggregateModel.uncommittedEvents (model s)). now destruct (model s).
Qed.

(** X6: [handle] does not hand the model back with an open gate.  When it
    calls the callback, either it has not changed the state at all (the
    command was not resolved) or the gate of the model is closed, whatever
    the preconditions, the handler, the id generator and the business
    rules did. *)
Theorem handle_leaves_gate_closed
    (a : Aggregate.t) (cmd : loc) (s s' : State) (err : value) :
  (cmd < List.length (store s))%nat ->
  handle a cmd s = (Ok err, s') ->
  s' = s \/ AggregateModel.gate (model s') = false.
Proof.
  intros Hcmd Hrun. apply handle_callback in Hrun.
  destruct Hrun as [[-> _]|(command & s1 & err1 & Hpre & Hrun)]; [now left|].
  right.
  apply checkPreConditions_callback in Hpre; [|exact Hcmd].
  destruct Hpre as [Hm1 _].
  destruct Hrun as [(_ & _ & ->)|(_ & s3 & s4 & err4 & Hscript & Hids & Hrun)].
  { now rewrite Hm1. }
  apply runScript_closes_gate in Hscript; [|cbn [handling model]; now rewrite Hm1].
  apply assignEventIds_frame in Hids. destruct Hids as [[evts Hm4] _].
  assert (Hg4 : AggregateModel.gate (model s4) = false) by now rewrite Hm4.
  destruct Hrun as [(_ & _ & ->)|(_ & s5 & err5 & Hrules & Hrun)]; [exact Hg4|].
  apply checkBusinessRules_callback in Hrules.
  destruct Hrules as (err5' & _ & Hm5 & _).
  destruct Hrun as [(_ & _ & ->)|(_ & _ & ->)].
  - now rewrite Hm5.
  - unfold rolledBack. cbn. now rewrite Hm5.
Qed.

Lemma handle_leaves_gate_closed_witness :
  AggregateModel.gate
    (model (snd (handle (Sample.person Sample.countingIds) 0%nat
                   (Sample.start (AggregateModel.new "p1" []) Sample.enterJo))))
  = false.
Proof.
  destruct (handle_leaves_gate_closed
              (Sample.person Sample.countingIds) 0%nat
              (Sample.start (AggregateModel.new "p1" []) Sample.enterJo)
              (snd (handle (Sample.person Sample.countingIds) 0%nat
                      (Sample.start (AggregateModel.new "p1" []) Sample.enterJo)))
              VNull) as [H|H].
  - simpl. lia.
  - vm_compute. reflexivity.
  - vm_compute in H. discriminate H.
  - exact H.
Defined.

Lemma checkPreConditions_resolved (a : Aggregate.t) (cmd : loc) (s : State)
    (command : Command) :
  (cmd < List.length (store s))%nat ->
  truthy (commandName a (deref (store s) cmd)) = true ->
  getCommand a (commandName a (deref (store s) cmd))
             (commandVersion a (deref (store s) cmd)) = Ok (Some command) ->
  exists err s1, checkPreConditions a cmd s = (Ok err, s1).
Proof.
  intros Hcmd Hname Hget.
  pose proof (checkAggregatePreConditions_run a cmd s Hcmd) as Hrun.
  unfold checkPreConditions, bind. rewrite Hrun.
  destruct (truthy (chainError _ _ _)); [now eexists _, _|].
  unfold readObject, lift. cbn [store].
  rewrite deref_app_old by exact Hcmd.
  fold (commandName a (deref (store s) cmd)).
  fold (commandVersion a (deref (store s) cmd)).
  rewrite Hname, Hget. cbn [negb]. now eexists _, _.
Qed.

(** X7: the only exceptions that leave [handle] come from looking up the
    command, before anything is changed, and from the run of the
    command's handle.  Checking the preconditions inside [handle], the
    assignment of ids and the business rules throw nothing. *)
Theorem handle_throws_only_from_lookup_or_handler
    (a : Aggregate.t) (cmd : loc) (s s' : State) (e : value) :
  (cmd < List.length (store s))%nat ->
  handle a cmd s = (Throw e, s') ->
  (s' = s
   /\ getCommand a (commandName a (deref (store s) cmd))
                 (commandVersion a (deref (store s) cmd)) = Throw e)
  \/ exists command s1,
       In command (commands a)
       /\ runScript a cmd
            (cmd_handle command (deref (store s1) cmd) (model s1))
            (handling command cmd s1) = (Throw e, s').
Proof.
  intros Hcmd. unfold handle. unfold bind at 1, readObject at 1.
  fold (commandName a (deref (store s) cmd)).
  fold (commandVersion a (deref (store s) cmd)).
  destruct (truthy (commandName a (deref (store s) cmd))) eqn:Hname;
    cbn [negb]; [|discriminate].
  unfold bind at 1, lift at 1.
  destruct (getCommand a _ _) as [[command|]|e0] eqn:Hget; [|discriminate|].
  2:{ intros H. injection H as <- <-. now left. }
  unfold bind at 1, updateModel at 1. fold (gateClosed s).
  destruct (checkPreConditions_resolved a cmd (gateClosed s) command Hcmd Hname Hget)
    as (err1 & s1 & Hpre).
  unfold bind at 1. rewrite Hpre.
  destruct (truthy err1); [discriminate|].
  unfold bind at 1, getModel at 1. unfold bind at 1, readObject at 1.
  unfold bind at 1, record at 1. fold (handling command cmd s1).
  unfold bind at 1.
  destruct (runScript a cmd _ (handling command cmd s1)) as [[[]|e1] s3] eqn:Hscript.
  2:{ intros H. injection H as <- <-. right. exists command, s1.
      split; [now apply getCommand_found in Hget|exact Hscript]. }
  unfold bind at 1.
  destruct (assignEventIds a s3) as [r4 s4] eqn:Hids.
  apply assignEventIds_callback in Hids. destruct Hids as (err4 & -> & _).
  destruct (truthy err4); [discriminate|].
  unfold bind at 1, getModel at 1. unfold bind at 1.
  destruct (checkBusinessRules a _ _ cmd s4) as [r5 s5] eqn:Hrules.
  apply checkBusinessRules_callback in Hrules.
  destruct Hrules as (err5 & -> & _).
  destruct (negb (truthy err5)); discriminate.
Qed.

Lemma handle_throws_only_from_lookup_or_handler_witness :
  let s := Sample.start (AggregateModel.new "p1" [])
                        (VObj [("id", VStr "c1"); ("name", VNum 7)]) in
  getCommand (Sample.person Sample.countingIds)
     (commandName (Sample.person Sample.countingIds) (deref (store s) 0%nat))
     (commandVersion (Sample.person Sample.countingIds) (deref (store s) 0%nat))
  = Throw (Error "Please pass a valid string as name!").
Proof.
  cbv zeta.
  destruct (handle_throws_only_from_lookup_or_handler
              (Sample.person Sample.countingIds) 0%nat
              (Sample.start (AggregateModel.new "p1" [])
                            (VObj [("id", VStr "c1"); ("name", VNum 7)]))
              (Sample.start (AggregateModel.new "p1" [])
                            (VObj [("id", VStr "c1"); ("name", VNum 7)]))
              (Error "Please pass a valid string as name!"))
    as [[_ H]|(command & s1 & Hin & _)].
  - simpl. lia.
  - reflexivity.
  - exact H.
  - reflexivity.
Defined.

(** X8: the books of a successful [handle].  The handle of the resolved
    command leaves the buffer that the model had before, followed by the
    events it emitted; the buffer of the model after [handle] is that
    very list passed through the id-assignment step, event by event and
    in the same order.  The revision has advanced by exactly the number
    of emitted events and the id of the model is the same.  The revisions
    before and after are integers within 2^53 in absolute value, where
    JavaScript adds exactly. *)
Theorem handle_success_accounts
    (a : Aggregate.t) (cmd : loc) (s s' : State) (err : value) :
  (cmd < List.length (store s))%nat ->
  safeInteger (AggregateModel.revision (model s)) ->
  safeInteger (AggregateModel.revision (model s')) ->
  handle a cmd s = (Ok err, s') ->
  truthy err = false ->
  exists (command : Command) (emitted : list value),
    getCommand a (commandName a (deref (store s) cmd))
               (commandVersion a (deref (store s) cmd)) = Ok (Some command)
    /\ let entered := handledState a cmd command s in
       handlerRun a cmd command s = (Ok tt, entered)
       /\ AggregateModel.uncommittedEvents (model entered)
          = AggregateModel.uncommittedEvents (model s) ++ emitted
       /\ AggregateModel.uncommittedEvents (model s')
          = backfill a (ids entered)
              (AggregateModel.uncommittedEvents (model s) ++ emitted)
       /\ Forall2 (backfilled a)
            (AggregateModel.uncommittedEvents (model s) ++ emitted)
            (AggregateModel.uncommittedEvents (model s'))
       /\ AggregateModel.revision (model s')
          = AggregateModel.revision (model s) + Z.of_nat (List.length emitted)
       /\ AggregateModel.id (model s') = AggregateModel.id (model s).
Proof.
  intros Hcmd _ _ Hrun Herr.
  destruct (handle_success_stages _ _ _ _ _ Hrun Herr)
    as (command & err1 & err4 & err5 & s4
        & Hget & Hpre & _ & Hscript & Hids & Herr4 & Hrules & _).
  apply checkPreConditions_callback in Hpre; [|exact Hcmd].
  destruct Hpre as [Hm1 _].
  pose proof Hscript as Hhandled.
  unfold handlerRun in Hscript. cbv zeta in Hscript.
  apply runScript_calls in Hscript. destruct Hscript as [calls Hcalls].
  apply applyAll_counts in Hcalls.
  destruct Hcalls as (Hrev3 & (emitted & Hbuf3 & Hlen) & Hid3 & _).
  cbn [handling model] in Hrev3, Hbuf3, Hid3. rewrite Hm1 in Hrev3, Hbuf3, Hid3.
  cbn in Hrev3, Hbuf3, Hid3.
  pose proof (assignEventIds_frame _ _ _ _ Hids) as [[evts Hm4] _].
  pose proof (assignEventIds_exact _ _ _ _ Hids Herr4) as Hexact.
  apply assignEventIds_callback in Hids.
  destruct Hids as (err4' & Heq & _ & Hfilled & _). injection Heq as <-.
  apply checkBusinessRules_callback in Hrules.
  destruct Hrules as (err5' & _ & Hm5 & _).
  exists command, emitted. split; [exact Hget|]. cbv zeta. rewrite Hm5.
  split; [exact Hhandled|].
  split; [exact Hbuf3|]. split; [|split; [|split]].
  - rewrite <- Hbuf3. exact Hexact.
  - rewrite <- Hbuf3. now apply Hfilled.
  - rewrite Hm4. cbn. rewrite Hrev3, Hlen. reflexivity.
  - rewrite Hm4. cbn. exact Hid3.
Qed.

Lemma handle_success_accounts_witness :
  let a := Sample.person Sample.countingIds in
  let s := Sample.start
             (AggregateModel.addUncommittedEvent Sample.leftOver
                (AggregateModel.new "p1" []))
             Sample.enterJo in
  let s' := snd (handle a 0%nat s) in
  exists (command : Command) (emitted : list value),
    getCommand a (commandName a (deref (store s) 0%nat))
               (commandVersion a (deref (store s) 0%nat)) = Ok (Some command)
    /\ let entered := handledState a 0%nat command s in
       handlerRun a 0%nat command s = (Ok tt, entered)
       /\ AggregateModel.uncommittedEvents (model entered)
          = AggregateModel.uncommittedEvents (model s) ++ emitted
       /\ AggregateModel.uncommittedEvents (model s')
          = backfill a (ids entered)
              (AggregateModel.uncommittedEvents (model s) ++ emitted)
       /\ Forall2 (backfilled a)
            (AggregateModel.uncommittedEvents (model s) ++ emitted)
            (AggregateModel.uncommittedEvents (model s'))
       /\ AggregateModel.revision (model s')
          = AggregateModel.revision (model s) + Z.of_nat (List.length emitted)
       /\ AggregateModel.id (model s') = AggregateModel.id (model s).
Proof.
  intros a s s'.
  apply (handle_success_accounts a 0%nat s s' VNull).
  - simpl. lia.
  - unfold safeInteger. simpl. lia.
  - unfold safeInteger. vm_compute. split; discriminate.
  - vm_compute. reflexivity.
  - reflexivity.
Defined.

Lemma checkPreConditions_exact (a : Aggregate.t) (cmd : loc) (s : State)
    (command : Command) :
  (cmd < List.length (store s))%nat ->
  truthy (commandName a (deref (store s) cmd)) = true ->
  getCommand a (commandName a (deref (store s) cmd))
             (commandVersion a (deref (store s) cmd)) = Ok (Some command) ->
  let c := deref (store s) cmd in
  let m := model s in
  let ran := checked c m (preConditions a) in
  let s1 := mkState m (store s ++ copiesLeft c m ran)
              (trace s ++ checkEntries (List.length (store s)) ran) (ids s) in
  checkPreConditions a cmd s
  = if truthy (chainError c m (preConditions a))
    then (Ok (chainError c m (preConditions a)), s1)
    else (Ok (cmd_checkPreConditions command c m),
          mkState m (store s1)
            (trace s1 ++ [CommandPreConditions (cmd_ref command) cmd]) (ids s)).
Proof.
  intros Hcmd Hname Hget c m ran s1.
  pose proof (checkAggregatePreConditions_run a cmd s Hcmd) as Hrun.
  unfold checkPreConditions, bind. rewrite Hrun. fold c m ran.
  fold (copiesLeft c m ran). fold s1.
  destruct (truthy (chainError c m (preConditions a))); [reflexivity|].
  unfold readObject, lift. subst s1. cbn [store].
  rewrite deref_app_old by exact Hcmd.
  fold (commandName a (deref (store s) cmd)).
  fold (commandVersion a (deref (store s) cmd)).
  rewrite Hname, Hget. reflexivity.
Qed.

(** X9: a failing precondition ends [handle] before the command's handle
    is called.  For a resolved command, when the first failing
    aggregate-level precondition answers with an error, or when all of
    them pass and the command's own [checkPreConditions] answers with an
    error, [handle] calls back with that error; the calls made are those
    checks and nothing else, no id is requested, and the model is the one
    [handle] was given with its gate closed.  The store has gained the
    copies of the command that the checks were handed. *)
Theorem handle_stops_at_failed_precondition
    (a : Aggregate.t) (cmd : loc) (s : State) (command : Command) :
  (cmd < List.length (store s))%nat ->
  truthy (commandName a (deref (store s) cmd)) = true ->
  getCommand a (commandName a (deref (store s) cmd))
             (commandVersion a (deref (store s) cmd)) = Ok (Some command) ->
  let c := deref (store s) cmd in
  let m := AggregateModel.withGate false (model s) in
  let l0 := List.length (store s) in
  (forall pre pc post,
      preConditions a = pre ++ pc :: post ->
      Forall (passes c m) pre -> ~ passes c m pc ->
      handle a cmd s
      = (Ok (snd (pc_check pc c m)),
         mkState m (store s ++ copiesLeft c m (pre ++ [pc]))
                 (trace s ++ checkEntries l0 (pre ++ [pc])) (ids s)))
  /\ (Forall (passes c m) (preConditions a) ->
      truthy (cmd_checkPreConditions command c m) = true ->
      handle a cmd s
      = (Ok (cmd_checkPreConditions command c m),
         mkState m (store s ++ copiesLeft c m (preConditions a))
                 (trace s ++ checkEntries l0 (preConditions a)
                          ++ [CommandPreConditions (cmd_ref command) cmd])
                 (ids s))).
Proof.
  intros Hcmd Hname Hget c m l0.
  assert (Hhandle :
            handle a cmd s
            = match checkPreConditions a cmd (gateClosed s) with
              | (Ok err, s1) =>
                  if truthy err then (Ok err, s1) else handle a cmd s
              | (Throw e, s1) => (Throw e, s1)
              end).
  { destruct (checkPreConditions_resolved a cmd (gateClosed s) command
                Hcmd Hname Hget) as (err1 & s1 & Hpre).
    rewrite Hpre. destruct (truthy err1) eqn:Herr1; [|reflexivity].
    unfold handle. unfold bind at 1, readObject at 1.
    fold (commandName a (deref (store s) cmd)).
    fold (commandVersion a (deref (store s) cmd)).
    rewrite Hname. cbn [negb]. unfold bind at 1, lift at 1. rewrite Hget.
    unfold bind at 1, updateModel at 1. fold (gateClosed s).
    unfold bind at 1. rewrite Hpre, Herr1. reflexivity. }
  pose proof (checkPreConditions_exact a cmd (gateClosed s) command
                Hcmd Hname Hget) as Hexact.
  cbv zeta in Hexact. cbn [gateClosed model store trace ids] in Hexact.
  fold c m l0 in Hexact. split.
  - intros pre pc post Hpcs Hpre Hpc.
    destruct (checked_first_error c m pre post pc Hpre Hpc) as [Hran Herr].
    rewrite <- Hpcs in Hran, Herr.
    assert (Ht : truthy (chainError c m (preConditions a)) = true).
    { rewrite Herr. unfold passes in Hpc.
      now destruct (truthy (snd (pc_check pc c m))). }
    rewrite Hhandle, Hexact, Ht, Ht, Hran, Herr. reflexivity.
  - intros Hall Hfail. destruct (checked_all_pass c m _ Hall) as [Hran Herr].
    assert (Ht : truthy (chainError c m (preConditions a)) = false)
      by now rewrite Herr.
    rewrite Hhandle, Hexact, Ht, Hfail, Hran, <- app_assoc. reflexivity.
Qed.

Lemma handle_stops_at_failed_precondition_witness :
  handle (Sample.guarded Sample.countingIds) 0%nat
    (Sample.start (AggregateModel.new "p1" []) Sample.enterJo)
  = (Ok (Error "rejected"),
     mkState (AggregateModel.withGate false (AggregateModel.new "p1" []))
             [Sample.enterJo; Sample.enterJo]
             [PreConditionCheck 31 1%nat] 0%nat).
Proof.
  refine (proj1 (handle_stops_at_failed_precondition
                   (Sample.guarded Sample.countingIds) 0%nat
                   (Sample.start (AggregateModel.new "p1" []) Sample.enterJo)
                   Sample.enterPerson _ eq_refl eq_refl)
                [] Sample.rejecting [Sample.wiping] eq_refl _ _).
  - simpl. lia.
  - constructor.
  - unfold passes. simpl. discriminate.
Defined.

(** ** Emitting and replaying events *)

Lemma truthy_get_object (o : value) (p : Dotty.path) :
  truthy (Dotty.get o p) = true -> exists fs, o = VObj fs.
Proof.
  unfold Dotty.get. destruct (Dotty.keys p) as [|k ks]; [discriminate|].
  destruct o; try discriminate. intros _. now eexists.
Qed.

(** X10: the apply function does its bookkeeping before it looks for the
    event's definition, and does not undo it.  When the event it has built
    carries a name for which, under the event's version, no definition is
    registered, the call throws the not-found error while the model
    already has the new revision and holds the event in its buffer, with
    the gate left open. *)
Theorem applyHelper_unregistered_event
    (a : Aggregate.t) (cmd : loc) (name payload evt : value) (s : State) :
  envelope a (deref (store s) cmd) (AggregateModel.id (model s))
           (AggregateModel.revision (model s) + 1) name payload = Ok evt ->
  truthy (Dotty.get evt (e_name (ep a))) = true ->
  getEvent a (Dotty.get evt (e_name (ep a))) (eventVersion a evt) = Ok None ->
  applyHelper a cmd name payload s
  = (Throw (eventNotFoundError a evt),
     mkState
       (AggregateModel.addUncommittedEvent evt
          (AggregateModel.setRevision (AggregateModel.revision (model s) + 1)
             (AggregateModel.withGate true (model s))))
       (store s) (trace s) (ids s)).
Proof.
  intros Henv Hname Hget. unfold envelope in Henv.
  unfold applyHelper.
  cbv beta iota delta [bind updateModel readObject getModel lift].
  cbn [model store trace ids]. cbn in Henv |- *. rewrite Henv.
  destruct (truthy_get_object _ _ Hname) as [fs ->].
  unfold apply. cbn [truthy negb forEach]. unfold bind at 1.
  unfold applyEvent. rewrite Hname. cbn [negb].
  unfold bind, lift. fold (eventVersion a (VObj fs)). rewrite Hget.
  reflexivity.
Qed.

Lemma applyHelper_unregistered_event_witness :
  applyHelper (Sample.person Sample.countingIds) 0%nat (VStr "personLeft")
    VUndefined (Sample.start (AggregateModel.new "p1" []) Sample.enterJo)
  = (Throw (eventNotFoundError (Sample.person Sample.countingIds)
              (VObj [("name", VStr "personLeft")])),
     mkState
       (AggregateModel.mk "p1" 1 []
          [VObj [("name", VStr "personLeft"); ("revision", VNum 1);
                 ("aggregate", VObj [("id", VStr "p1")]);
                 ("correlationId", VStr "c1")]]
          true)
       [Sample.enterJo] [] 0%nat).
Proof.
  apply (applyHelper_unregistered_event
           (Sample.person Sample.countingIds) 0%nat (VStr "personLeft")
           VUndefined
           (VObj [("name", VStr "personLeft"); ("revision", VNum 1);
                  ("aggregate", VObj [("id", VStr "p1")]);
                  ("correlationId", VStr "c1")])
           (Sample.start (AggregateModel.new "p1" []) Sample.enterJo)).
  - reflexivity.
  - reflexivity.
  - reflexivity.
Defined.

Lemma forEach_app {A : Type} (f : A -> M unit) (l1 l2 : list A) (s : State) :
  forEach (l1 ++ l2) f s = (forEach l1 f ;; forEach l2 f) s.
Proof.
  revert s. induction l1 as [|x l1 IH]; intros s; simpl.
  - reflexivity.
  - unfold bind in *. destruct (f x s) as [[[]|e] s1]; [|reflexivity].
    apply IH.
Qed.

(** X11: replay goes through the events in their order and is the same
    whether the events come at once or in parts.  Replaying an array is
    replaying its first part and then, unless that threw, the rest; and
    replaying a single event that is passed without an array is replaying
    the array of that one event. *)
Theorem apply_in_parts (a : Aggregate.t) (first rest : list value) (evt : value)
    (s : State) :
  apply a (VArr (first ++ rest)) s
  = (apply a (VArr first) ;; apply a (VArr rest)) s
  /\ (forall fields, evt = VObj fields ->
        apply a evt s = apply a (VArr [evt]) s).
Proof.
  split.
  - unfold apply. cbn [truthy negb]. apply forEach_app.
  - intros fields ->. reflexivity.
Qed.

Lemma apply_in_parts_witness :
  let evt := VObj [("name", VStr "personEntered");
                   ("payload", VObj [("name", VStr "Jo")])] in
  let s := Sample.start (AggregateModel.new "p1" []) Sample.enterJo in
  apply (Sample.person Sample.countingIds) evt s
  = apply (Sample.person Sample.countingIds) (VArr [evt]) s.
Proof.
  intros evt s.
  apply (proj2 (apply_in_parts (Sample.person Sample.countingIds) [] [] evt s)
               [("name", VStr "personEntered");
                ("payload", VObj [("name", VStr "Jo")])]).
  reflexivity.
Defined.

Lemma replayed_refl (s : State) : replayed s s.
Proof.
  unfold replayed. repeat split. exists []. now rewrite app_nil_r.
Qed.

Lemma replayed_trans (s1 s2 s3 : State) :
  replayed s1 s2 -> replayed s2 s3 -> replayed s1 s3.
Proof.
  unfold replayed.
  intros (H1 & H2 & H3 & H4 & H5 & H6 & tr & Ht & Hf)
         (K1 & K2 & K3 & K4 & K5 & K6 & tr' & Kt & Kf).
  repeat split; try congruence.
  exists (tr ++ tr'). split; [|now apply Forall_app].
  now rewrite Kt, Ht, app_assoc.
Qed.

Lemma forEach_replayed {A : Type} (f : A -> M unit) (items : list A) :
  (forall x s r s', f x s = (r, s') -> replayed s s') ->
  forall s r s', forEach items f s = (r, s') -> replayed s s'.
Proof.
  intros Hf. induction items as [|x items IH]; intros s r s' Hrun.
  - injection Hrun as _ <-. apply replayed_refl.
  - simpl in Hrun. unfold bind in Hrun.
    destruct (f x s) as [[[]|e] s1] eqn:Hx.
    + eapply replayed_trans; [exact (Hf _ _ _ _ Hx)|exact (IH _ _ _ Hrun)].
    + injection Hrun as _ <-. exact (Hf _ _ _ _ Hx).
Qed.

Lemma set_replayed (data : value) (s : State) (r : result unit) (s' : State) :
  set data s = (r, s') -> replayed s s'.
Proof.
  unfold set, bind, getModel.
  destruct (AggregateModel.gate (model s)) eqn:Hgate; intros H;
    injection H as _ <-.
  - unfold replayed. cbn. repeat split; try now rewrite ?Hgate.
    exists []. now rewrite app_nil_r.
  - apply replayed_refl.
Qed.

Lemma applyEvent_replayed (a : Aggregate.t) (evt : value) (s : State)
    (r : result unit) (s' : State) :
  applyEvent a evt s = (r, s') -> replayed s s'.
Proof.
  unfold applyEvent.
  destruct (negb (truthy (Dotty.get evt (e_name (ep a))))).
  - intros H. injection H as _ <-. apply replayed_refl.
  - unfold bind, lift.
    destruct (getEvent a _ _) as [[e|]|err].
    + unfold runEventApply, bind, record, getModel. cbn [model].
      intros H. apply (forEach_replayed set) in H; [|intros x; apply set_replayed].
      eapply replayed_trans; [|exact H].
      unfold replayed. cbn. repeat split.
      exists [EventApply (evt_ref e)]. split; [reflexivity|].
      constructor; [now exists (evt_ref e)|constructor].
    + intros H. injection H as _ <-. apply replayed_refl.
    + intros H. injection H as _ <-. apply replayed_refl.
Qed.

(** X12: what replay never does.  Whether [apply(events, model)] returns
    or throws, it has not changed the revision of the model, its buffer of
    uncommitted events, its id or its gate; it has requested no id and
    written to no command object; and the only calls it has made are
    calls of the apply operation of event definitions. *)
Theorem apply_only_replays (a : Aggregate.t) (events : value) (s s' : State)
    (r : result unit) :
  apply a events s = (r, s') -> replayed s s'.
Proof.
  unfold apply. destruct (negb (truthy events)).
  - intros H. injection H as _ <-. apply replayed_refl.
  - apply forEach_replayed. intros x. apply applyEvent_replayed.
Qed.

Lemma apply_only_replays_witness :
  let s := Sample.start (AggregateModel.new "p1" []) Sample.enterJo in
  replayed s
    (snd (apply (Sample.person Sample.countingIds)
            (VObj [("name", VStr "personEntered");
                   ("payload", VObj [("name", VStr "Jo")])]) s)).
Proof.
  cbv zeta.
  apply (apply_only_replays (Sample.person Sample.countingIds)
           (VObj [("name", VStr "personEntered");
                  ("payload", VObj [("name", VStr "Jo")])])
           _ _ (Ok tt)).
  vm_compute. reflexivity.
Defined.

(** ** History *)

Lemma maxRevision_fold (a : Aggregate.t) (items : list value) :
  forall res,
    let step := fun res evt =>
                  match Dotty.get evt (e_revision (ep a)) with
                  | VNum rev => if res <? rev then rev else res
                  | _ => res
                  end in
    res <= fold_left step items res
    /\ (forall evt rev, In evt items ->
          Dotty.get evt (e_revision (ep a)) = VNum rev ->
          rev <= fold_left step items res)
    /\ (fold_left step items res = res
        \/ exists evt, In evt items
                       /\ Dotty.get evt (e_revision (ep a))
                          = VNum (fold_left step items res)).
Proof.
  induction items as [|evt items IH]; intros res step; simpl.
  - split; [lia|]. split; [intros e r []|now left].
  - destruct (IH (step res evt)) as [Hle [Hub Hatt]]. fold step in Hle, Hub, Hatt.
    assert (Hstep : res <= step res evt
                    /\ (forall rev, Dotty.get evt (e_revision (ep a)) = VNum rev ->
                          rev <= step res evt)
                    /\ (step res evt = res
                        \/ Dotty.get evt (e_revision (ep a)) = VNum (step res evt))).
    { unfold step. destruct (Dotty.get evt (e_revision (ep a)));
        try (split; [lia|]; split; [discriminate|now left]).
      destruct (Z.ltb_spec res n).
      - split; [lia|]. split; [intros rev H0; injection H0 as <-; lia|now right].
      - split; [lia|]. split; [intros rev H0; injection H0 as <-; lia|now left]. }
    destruct Hstep as [Hs1 [Hs2 Hs3]].
    split; [lia|]. split.
    + intros e r [<-|Hin] Hr; [specialize (Hs2 _ Hr); lia|now apply (Hub e)].
    + destruct Hatt as [Heq|[e [Hin Heq]]].
      * rewrite Heq. destruct Hs3 as [->|Hs3]; [now left|].
        right. exists evt. split; [now left|exact Hs3].
      * right. exists e. split; [now right|exact Heq].
Qed.

(** X13: [loadFromHistory] with events whose revisions are numbers (an
    event may also have none).  When a non-empty array of such events has
    been replayed, the revision of the model is the largest revision
    found on the events, and 0 if none carries a greater number, whatever
    revision a snapshot had set before.  Without a snapshot the result is
    the answer of the snapshot policy to the loading time, the events and
    the fields of the loaded model. *)
Theorem loadFromHistory_events
    (a : Aggregate.t) (snapshot : option Snapshot) (items : list value)
    (loadingTime : Z) (s s' : State) (flag : bool) :
  items <> [] ->
  Forall (revisionNumbered a) items ->
  loadFromHistory a snapshot (VArr items) loadingTime s = (Ok flag, s') ->
  AggregateModel.revision (model s') = maxRevision a items
  /\ 0 <= maxRevision a items
  /\ (forall evt rev, In evt items ->
        Dotty.get evt (e_revision (ep a)) = VNum rev ->
        rev <= maxRevision a items)
  /\ (maxRevision a items = 0
      \/ exists evt, In evt items
                     /\ Dotty.get evt (e_revision (ep a))
                        = VNum (maxRevision a items))
  /\ (snapshot = None ->
      flag = snapshotNeeded a loadingTime (VArr items)
               (AggregateModel.attributes (model s'))).
Proof.
  intros Hne _ Hrun.
  destruct (maxRevision_fold a items 0) as [Hle [Hub Hatt]].
  cbv zeta in Hle, Hub, Hatt. fold (maxRevision a items) in Hle, Hub, Hatt.
  split; [|split; [exact Hle|split; [exact Hub|split; [exact Hatt|]]]].
  - unfold loadFromHistory in Hrun. unfold bind at 1 in Hrun.
    match type of Hrun with context [match ?branch s with _ => _ end] =>
      destruct (branch s) as [[flag0|e] s0] end; [|discriminate].
    assert (Hlen : (0 <? Z.of_nat (List.length items)) = true).
    { apply Z.ltb_lt. destruct items; [contradiction|simpl; lia]. }
    cbn [truthy length_of andb] in Hrun. rewrite Hlen in Hrun.
    unfold bind at 1 in Hrun.
    destruct (apply a (VArr items) s0) as [[[]|e] s1]; [|discriminate].
    unfold bind at 1, updateModel at 1 in Hrun.
    destruct (negb flag0); cbv beta iota delta [bind getModel ret] in Hrun;
      injection Hrun as _ <-; reflexivity.
  - intros ->. unfold loadFromHistory in Hrun.
    cbv beta iota delta [bind ret] in Hrun.
    assert (Hlen : (0 <? Z.of_nat (List.length items)) = true).
    { apply Z.ltb_lt. destruct items; [contradiction|simpl; lia]. }
    cbn [truthy length_of andb] in Hrun. rewrite Hlen in Hrun.
    destruct (apply a (VArr items) s) as [[[]|e] s1]; [|discriminate].
    cbv beta iota delta [updateModel getModel] in Hrun. cbn [negb model] in Hrun.
    injection Hrun as <- <-. reflexivity.
Qed.

Lemma loadFromHistory_events_witness :
  let items := [VObj [("name", VStr "personEntered");
                      ("payload", VObj [("name", VStr "Jo")]);
                      ("revision", VNum 3)];
                VObj [("name", VStr "personEntered");
                      ("payload", VObj [("name", VStr "Al")]);
                      ("revision", VNum 4)]] in
  let snapshot := Some {| snap_version := 0; snap_revision := 50;
                          snap_data := VObj [] |} in
  let s := Sample.start (AggregateModel.new "p1" []) Sample.enterJo in
  AggregateModel.revision
    (model (snd (loadFromHistory (Sample.person Sample.countingIds)
                   snapshot (VArr items) 10 s)))
  = maxRevision (Sample.person Sample.countingIds) items.
Proof.
  intros items snapshot s.
  refine (proj1 (loadFromHistory_events (Sample.person Sample.countingIds)
                   snapshot items 10 s
                   (snd (loadFromHistory (Sample.person Sample.countingIds)
                           snapshot (VArr items) 10 s))
                   false ltac:(discriminate) _ ltac:(vm_compute; reflexivity))).
  constructor; [now left|]. constructor; [now left|]. constructor.
Defined.

(** ** Snapshot conversions *)

Lemma conversionFor_setConversion_same (v : Z)
    (fn : value -> Model -> list value)
    (convs : list (Z * (value -> Model -> list value))) :
  conversionFor (setConversion v fn convs) v = Some fn.
Proof.
  induction convs as [|[v' fn'] convs IH]; simpl.
  - now rewrite Z.eqb_refl.
  - destruct (Z.eqb_spec v v') as [->|Hne]; simpl.
    + now rewrite Z.eqb_refl.
    + destruct (Z.eqb_spec v v'); [contradiction|exact IH].
Qed.

Lemma conversionFor_setConversion_other (v v' : Z)
    (fn : value -> Model -> list value)
    (convs : list (Z * (value -> Model -> list value))) :
  v' <> v ->
  conversionFor (setConversion v fn convs) v' = conversionFor convs v'.
Proof.
  intros Hne. induction convs as [|[v0 fn0] convs IH]; simpl.
  - destruct (Z.eqb_spec v' v); [contradiction|reflexivity].
  - destruct (Z.eqb_spec v v0) as [->|Hne0]; simpl.
    + destruct (Z.eqb_spec v' v0); [contradiction|reflexivity].
    + destruct (Z.eqb_spec v' v0); [reflexivity|exact IH].
Qed.

(** X14: [defineSnapshotConversion] and the loading of snapshots.  With a
    meta object whose version is a number the conversion is registered
    for that version, in the place of an earlier one, and the conversions
    of all other versions stay; from then on a snapshot of that version,
    if it is not the aggregate's own, is loaded into a model with an open
    gate by that conversion, and the snapshot branch flags a fresh
    snapshot.  A meta object without a version that is a number makes
    [defineSnapshotConversion] throw. *)
Theorem defineSnapshotConversion_registers
    (a : Aggregate.t) (fields : list (string * value))
    (fn : value -> Model -> list value) :
  (forall v, own "version" fields = Some (VNum v) ->
     exists a',
       defineSnapshotConversion (VObj fields) fn a = Ok a'
       /\ conversionFor (snapshotConversions a') v = Some fn
       /\ (forall v', v' <> v ->
             conversionFor (snapshotConversions a') v'
             = conversionFor (snapshotConversions a) v')
       /\ (forall snapshot s,
             snap_version snapshot = v -> v <> version a ->
             AggregateModel.gate (model s) = true ->
             loadSnapshot a' snapshot s
             = (Ok true,
                mkState
                  (AggregateModel.setRevision (snap_revision snapshot)
                     (afterSets (fn (snap_data snapshot) (model s)) (model s)))
                  (store s) (trace s ++ [SnapshotConversion v]) (ids s))))
  /\ ((forall v, own "version" fields <> Some (VNum v)) ->
      defineSnapshotConversion (VObj fields) fn a
      = Throw (Error "Please pass in a version")).
Proof.
  split.
  - intros v Hv. unfold defineSnapshotConversion. rewrite Hv.
    eexists. split; [reflexivity|]. cbn [snapshotConversions withSnapshotConversions].
    split; [apply conversionFor_setConversion_same|].
    split; [intros v' Hne; now apply conversionFor_setConversion_other|].
    intros snapshot s Hsv Hne Hgate. unfold loadSnapshot.
    cbn [version withSnapshotConversions snapshotConversions].
    rewrite Hsv. apply Z.eqb_neq in Hne. rewrite Hne.
    rewrite conversionFor_setConversion_same.
    cbv beta iota delta [bind record getModel]. cbn [model store trace ids].
    rewrite forEach_set_open by exact Hgate. reflexivity.
  - intros Hnone. unfold defineSnapshotConversion.
    destruct (own "version" fields) as [[]|]; try reflexivity.
    now contradiction (Hnone n).
Qed.

Lemma defineSnapshotConversion_registers_witness :
  exists a',
    defineSnapshotConversion (VObj [("version", VNum 1)]) (fun data _ => [data])
      (Sample.person Sample.countingIds) = Ok a'
    /\ conversionFor (snapshotConversions a') 1 = Some (fun data _ => [data]).
Proof.
  destruct (proj1 (defineSnapshotConversion_registers
                     (Sample.person Sample.countingIds)
                     [("version", VNum 1)] (fun data _ => [data]))
                  1 eq_refl) as (a' & Hdef & Hfor & _).
  exists a'. split; [exact Hdef|exact Hfor].
Defined.

(** ** The id generator *)

Lemma each_assignEventId_succeeds (a : Aggregate.t) (items : list value) :
  (forall n, truthy (fst (getNewId a n)) = false) ->
  forall s, exists items' s',
    each items (assignEventId a) s = (Ok (VNull, items'), s').
Proof.
  intros Hgen. induction items as [|evt items IH]; intros s.
  - now eexists _, _.
  - cbn [each]. unfold bind at 1, assignEventId at 1.
    destruct (truthy (Dotty.get evt (e_id (ep a)))).
    + cbv beta iota delta [ret]. cbn [fst snd truthy]. unfold bind at 1.
      destruct (IH s) as (items' & s' & ->). now eexists _, _.
    + unfold bind at 1, newId at 1. rewrite Hgen.
      cbv beta iota delta [ret]. cbn [fst snd truthy]. unfold bind at 1.
      match goal with |- context [each items _ ?s1] =>
        destruct (IH s1) as (items' & s' & ->) end.
      now eexists _, _.
Qed.

(** X15: an id generator without a callback never fails the handling.
    After [idGenerator(fn)] with a function that takes no parameter, the
    id-assignment step always ends without an error; it leaves the events
    with a truthy id as they are and writes a value that the function
    returned at the id path of every other event. *)
Theorem idGenerator_synchronous_never_fails
    (a0 : Aggregate.t) (func : nat -> value) (s : State) :
  let a := idGenerator (Synchronous func) a0 in
  exists s',
    assignEventIds a s = (Ok VNull, s')
    /\ Forall2
         (fun evt evt' =>
            (truthy (Dotty.get evt (e_id (ep a0))) = true -> evt' = evt)
            /\ (truthy (Dotty.get evt (e_id (ep a0))) = false ->
                exists n, evt' = Dotty.put evt (e_id (ep a0)) (func n)))
         (AggregateModel.uncommittedEvents (model s))
         (AggregateModel.uncommittedEvents (model s')).
Proof.
  intros a.
  assert (Hgen : forall n, truthy (fst (getNewId a n)) = false) by reflexivity.
  destruct (assignEventIds a s) as [r s'] eqn:Hrun. exists s'.
  pose proof Hrun as Hcb. apply assignEventIds_callback in Hcb.
  destruct Hcb as (err & -> & _ & Hfilled & _).
  assert (Herr : err = VNull).
  { unfold assignEventIds in Hrun. unfold bind at 1, getModel at 1 in Hrun.
    unfold bind at 1 in Hrun.
    destruct (each_assignEventId_succeeds a
                (AggregateModel.getUncommittedEvents (model s)) Hgen s)
      as (items' & s1 & Heach).
    rewrite Heach in Hrun. cbv beta iota delta [bind updateModel ret] in Hrun.
    cbn [fst] in Hrun. now injection Hrun as <- _. }
  subst err. split; [reflexivity|].
  eapply Forall2_impl; [|exact (Hfilled eq_refl)].
  intros evt evt' [Hkeep Hfill]. split; [exact Hkeep|].
  intros Hid. destruct (Hfill Hid) as (n & _ & Heq & _). now exists n.
Qed.

(** ** Business rules *)

Lemma bootstrapped_rules_sorted (a : Aggregate.t) :
  rulesBootstrapped a -> StronglySorted byRulePriority (businessRules a).
Proof.
  induction 1 as [a Hnil|rule a _ IH].
  - rewrite Hnil. constructor.
  - unfold addBusinessRule.
    destruct (absent br_ref rule (businessRules a)).
    + cbn [businessRules withBusinessRules]. apply (sortBy_sorted br_priority).
    + exact IH.
Qed.

Lemma eachSeries_businessRules (previous : Model) (events : list value)
    (cmd : loc) (s : State) (rules : list BusinessRule) :
  forall tr,
    let verdict := fun rule =>
      br_check rule (model s) previous events (deref (store s) cmd) in
    (forall pre rule post,
        rules = pre ++ rule :: post ->
        Forall (fun r => truthy (verdict r) = false) pre ->
        truthy (verdict rule) = true ->
        eachSeries rules
          (fun rule =>
             record (BusinessRuleCheck (br_ref rule) cmd) ;;
             changed <- getModel ;;
             c <- readObject cmd ;;
             ret (br_check rule changed previous events c))
          (mkState (model s) (store s) tr (ids s))
        = (Ok (verdict rule),
           mkState (model s) (store s) (tr ++ ruleEntries cmd (pre ++ [rule]))
                   (ids s)))
    /\ (Forall (fun r => truthy (verdict r) = false) rules ->
        eachSeries rules
          (fun rule =>
             record (BusinessRuleCheck (br_ref rule) cmd) ;;
             changed <- getModel ;;
             c <- readObject cmd ;;
             ret (br_check rule changed previous events c))
          (mkState (model s) (store s) tr (ids s))
        = (Ok VNull,
           mkState (model s) (store s) (tr ++ ruleEntries cmd rules) (ids s))).
Proof.
  set (iteratee := fun rule : BusinessRule =>
         record (BusinessRuleCheck (br_ref rule) cmd) ;;
         changed <- getModel ;;
         c <- readObject cmd ;;
         ret (br_check rule changed previous events c)).
  assert (Hstep : forall rule st,
            iteratee rule st
            = (Ok (br_check rule (model st) previous events (deref (store st) cmd)),
               mkState (model st) (store st)
                       (trace st ++ [BusinessRuleCheck (br_ref rule) cmd])
                       (ids st))) by reflexivity.
  induction rules as [|r rules IH]; intros tr verdict; split.
  - intros pre rule post Heq. now destruct pre.
  - intros _. cbn. unfold ret. now rewrite app_nil_r.
  - intros pre rule post Heq Hpre Hfail.
    cbn [eachSeries]. unfold bind at 1. rewrite Hstep.
    cbn [model store trace ids]. fold (verdict r).
    destruct pre as [|p pre]; cbn [app] in Heq; injection Heq as -> ->.
    + rewrite Hfail. reflexivity.
    + inversion Hpre as [|? ? Hp Hpre']; subst. rewrite Hp.
      destruct (IH (tr ++ [BusinessRuleCheck (br_ref p) cmd])) as [IH1 _].
      rewrite (IH1 pre rule post eq_refl Hpre' Hfail).
      cbn [ruleEntries map app]. now rewrite <- app_assoc.
  - intros Hall. inversion Hall as [|? ? Hr Hall']; subst.
    cbn [eachSeries]. unfold bind at 1. rewrite Hstep.
    cbn [model store trace ids]. fold (verdict r). rewrite Hr.
    destruct (IH (tr ++ [BusinessRuleCheck (br_ref r) cmd])) as [_ IH2].
    rewrite (IH2 Hall'). cbn [ruleEntries map]. now rewrite <- app_assoc.
Qed.

(** X16: [checkBusinessRules] walks the rules in ascending priority and
    stops at the first error.  For an aggregate whose rules were
    registered through [addBusinessRule] the list is sorted by priority;
    the rules are checked in that order on the same model, previous model,
    events and command; the first rule that answers with an error ends the
    chain with that error, the rules after it are not checked; and when
    all pass the chain ends without an error.  The checks change nothing
    in the model and the store. *)
Theorem checkBusinessRules_in_priority_order
    (a : Aggregate.t) (previous : Model) (events : list value) (cmd : loc)
    (s : State) :
  rulesBootstrapped a ->
  let verdict := fun rule =>
    br_check rule (model s) previous events (deref (store s) cmd) in
  StronglySorted byRulePriority (businessRules a)
  /\ (forall pre rule post,
        businessRules a = pre ++ rule :: post ->
        Forall (fun r => truthy (verdict r) = false) pre ->
        truthy (verdict rule) = true ->
        checkBusinessRules a previous events cmd s
        = (Ok (verdict rule),
           mkState (model s) (store s)
                   (trace s ++ ruleEntries cmd (pre ++ [rule])) (ids s)))
  /\ (Forall (fun r => truthy (verdict r) = false) (businessRules a) ->
      checkBusinessRules a previous events cmd s
      = (Ok VNull,
         mkState (model s) (store s)
                 (trace s ++ ruleEntries cmd (businessRules a)) (ids s))).
Proof.
  intros Hboot verdict. split; [now apply bootstrapped_rules_sorted|].
  destruct (eachSeries_businessRules previous events cmd s (businessRules a)
              (trace s)) as [Hfail Hpass].
  unfold checkBusinessRules. destruct s as [m h tr n]. split.
  - exact Hfail.
  - exact Hpass.
Qed.

Lemma checkBusinessRules_in_priority_order_witness :
  checkBusinessRules (Sample.ruled Sample.countingIds)
    (AggregateModel.new "p1" []) [] 0%nat
    (Sample.start (AggregateModel.new "p1" []) Sample.enterJo)
  = (Ok (Error "rule broken"),
     mkState (AggregateModel.new "p1" []) [Sample.enterJo]
             [BusinessRuleCheck 40 0%nat] 0%nat).
Proof.
  refine (proj1 (proj2 (checkBusinessRules_in_priority_order
                   (Sample.ruled Sample.countingIds)
                   (AggregateModel.new "p1" []) [] 0%nat
                   (Sample.start (AggregateModel.new "p1" []) Sample.enterJo)
                   (rules_addBusinessRule Sample.rejectingRule _
                      (rules_new (Sample.person Sample.countingIds) eq_refl))))
                [] Sample.rejectingRule [] eq_refl _ eq_refl).
  constructor.
Defined.

(** ** The identity of an emitted event *)

Section StampAt.
Variable a : Aggregate.t.
Variable p : Dotty.path.

Lemma newEvent_writable_at (name payload : value) :
  p <> None ->
  apart p (e_name (ep a)) = true ->
  apart p (e_payload (ep a)) = true ->
  isString name = true \/ (truthy payload = false /\ writable name p) ->
  writable (newEvent a name payload) p.
Proof.
  intros Hp Hname Hpayload Hcall.
  assert (Hempty : writable (VObj []) p) by now apply writable_empty_object.
  unfold newEvent. destruct Hcall as [Hstr|[Hfalsy Hw]].
  - rewrite Hstr. destruct (negb (truthy payload)).
    + now apply writable_put_apart.
    + now repeat apply writable_put_apart.
  - rewrite Hfalsy. cbn [negb].
    destruct (writable_is_object _ _ Hw) as [fs ->]. exact Hw.
Qed.

Lemma stampMeta_writable_at (c evt : value) :
  apart p (e_meta (ep a)) = true ->
  writable evt p -> writable (stampMeta a c evt) p.
Proof.
  intros Hmeta H. unfold stampMeta.
  destruct (Dotty.configured (e_meta (ep a)) && Dotty.configured (c_meta (cp a)));
    [|exact H].
  now apply writable_put_apart.
Qed.

Lemma later_stamps_keep (c evt evt' : value) :
  apart p (e_version (ep a)) = true ->
  apart p (e_aggregate (ep a)) = true ->
  apart p (e_context (ep a)) = true ->
  stampContext a c (stampAggregate a c (stampVersion a evt)) = Ok evt' ->
  Dotty.get evt' p = Dotty.get evt p.
Proof.
  intros Hv Ha Hc Hdone.
  assert (H1 : Dotty.get (stampVersion a evt) p = Dotty.get evt p).
  { unfold stampVersion.
    destruct (Dotty.configured (e_version (ep a))); [|reflexivity].
    destruct (negb (Dotty.exists_ evt (e_version (ep a)))); [|reflexivity].
    now apply get_put_apart. }
  assert (H2 : forall e, Dotty.get (stampAggregate a c e) p = Dotty.get e p).
  { intros e. unfold stampAggregate.
    destruct (Dotty.configured (e_aggregate (ep a))
              && Dotty.configured (c_aggregate (cp a))); [|reflexivity].
    now apply get_put_apart. }
  assert (H3 : Dotty.get evt' p
               = Dotty.get (stampAggregate a c (stampVersion a evt)) p).
  { revert Hdone. unfold stampContext.
    destruct (Dotty.configured (e_context (ep a))
              && Dotty.configured (c_context (cp a))).
    - destruct (truthy (Dotty.get c (c_context (cp a)))).
      + intros H. injection H as <-. now apply get_put_apart.
      + destruct (context a); [|discriminate].
        intros H. injection H as <-. now apply get_put_apart.
    - intros H. now injection H as <-. }
  now rewrite H3, H2, H1.
Qed.
End StampAt.

(** X17: every event that the apply function emits is tied to the model
    and to the command.  After a successful call the event appended to the
    buffer carries the id of the model at the aggregate-id path and the id
    of the command at the correlation-id path.  Each of the two paths is
    configured and clear of the other paths at which the call writes, and
    the call names the event or passes an event object in which both can
    be written. *)
Theorem applyHelper_identifies_event
    (a : Aggregate.t) (cmd : loc) (name payload : value) (s s' : State) :
  aggregateIdPathOwn a ->
  correlationIdPathOwn a ->
  emitsIdentified a name payload ->
  applyHelper a cmd name payload s = (Ok tt, s') ->
  exists evt,
    AggregateModel.uncommittedEvents (model s')
    = AggregateModel.uncommittedEvents (model s) ++ [evt]
    /\ Dotty.get evt (e_aggregateId (ep a))
       = VStr (AggregateModel.id (model s))
    /\ Dotty.get evt (e_correlationId (ep a))
       = Dotty.get (deref (store s) cmd) (c_id (cp a)).
Proof.
  intros [HpA HallA] [HpC HallC] Hcall Hrun.
  apply applyHelper_step in Hrun.
  destruct Hrun as (evt & Henv & _ & Hbuf & _). exists evt.
  split; [exact Hbuf|]. unfold envelope in Henv. cbv zeta in Henv.
  rewrite Forall_forall in HallA, HallC.
  assert (HA : forall q,
            In q [e_name (ep a); e_payload (ep a); e_meta (ep a);
                  e_revision (ep a); e_correlationId (ep a);
                  e_version (ep a); e_aggregate (ep a); e_context (ep a)] ->
            apart (e_aggregateId (ep a)) q = true) by exact HallA.
  assert (HC : forall q,
            In q [e_name (ep a); e_payload (ep a); e_meta (ep a);
                  e_revision (ep a); e_aggregateId (ep a);
                  e_version (ep a); e_aggregate (ep a); e_context (ep a)] ->
            apart (e_correlationId (ep a)) q = true) by exact HallC.
  split.
  - rewrite (later_stamps_keep a (e_aggregateId (ep a)) _ _ _
               (HA (e_version (ep a)) ltac:(simpl; auto 10))
               (HA (e_aggregate (ep a)) ltac:(simpl; auto 10))
               (HA (e_context (ep a)) ltac:(simpl; auto 10)) Henv).
    rewrite get_put_apart by (apply HA; simpl; auto 10).
    apply get_put_writable.
    apply writable_put_apart; [apply HA; simpl; auto 10|].
    apply stampMeta_writable_at; [apply HA; simpl; auto 10|].
    apply newEvent_writable_at;
      [exact HpA|apply HA; simpl; auto 10|apply HA; simpl; auto 10|].
    destruct Hcall as [Hstr|(Hf & Hw & _)]; [now left|now right].
  - rewrite (later_stamps_keep a (e_correlationId (ep a)) _ _ _
               (HC (e_version (ep a)) ltac:(simpl; auto 10))
               (HC (e_aggregate (ep a)) ltac:(simpl; auto 10))
               (HC (e_context (ep a)) ltac:(simpl; auto 10)) Henv).
    apply get_put_writable.
    apply writable_put_apart; [apply HC; simpl; auto 10|].
    apply writable_put_apart; [apply HC; simpl; auto 10|].
    apply stampMeta_writable_at; [apply HC; simpl; auto 10|].
    apply newEvent_writable_at;
      [exact HpC|apply HC; simpl; auto 10|apply HC; simpl; auto 10|].
    destruct Hcall as [Hstr|(Hf & _ & Hw)]; [now left|now right].
Qed.

Lemma applyHelper_identifies_event_witness :
  exists evt,
    AggregateModel.uncommittedEvents
      (model (snd (applyHelper (Sample.person Sample.countingIds) 0%nat
                     (VStr "personEntered") (VObj [("name", VStr "Jo")])
                     (Sample.start (AggregateModel.new "p1" []) Sample.enterJo))))
    = [] ++ [evt]
    /\ Dotty.get evt (Some "aggregate.id") = VStr "p1"
    /\ Dotty.get evt (Some "correlationId") = VStr "c1".
Proof.
  apply (applyHelper_identifies_event
           (Sample.person Sample.countingIds) 0%nat
           (VStr "personEntered") (VObj [("name", VStr "Jo")])
           (Sample.start (AggregateModel.new "p1" []) Sample.enterJo)).
  - split; [discriminate|]. repeat constructor.
  - split; [discriminate|]. repeat constructor.
  - now left.
  - vm_compute. reflexivity.
Defined.

(** ** The version of an emitted event *)

(** Whatever the replay of the event does, the call has appended the
    completed event to the buffer. *)
Lemma applyHelper_buffers (a : Aggregate.t) (cmd : loc) (name payload : value)
    (s s' : State) (r : result unit) (evt : value) :
  envelope a (deref (store s) cmd) (AggregateModel.id (model s))
           (AggregateModel.revision (model s) + 1) name payload = Ok evt ->
  applyHelper a cmd name payload s = (r, s') ->
  AggregateModel.uncommittedEvents (model s')
  = AggregateModel.uncommittedEvents (model s) ++ [evt].
Proof.
  unfold applyHelper, envelope.
  cbv beta iota delta [bind updateModel readObject getModel lift].
  cbn [model store trace ids].
  destruct (stampContext a _ _) as [evt0|e]; [|discriminate].
  intros Heq. injection Heq as ->.
  match goal with |- context [apply a evt ?s1] =>
    destruct (apply a evt s1) as [[[]|e] s2] eqn:Happly end;
    intros H; injection H as _ <-; apply apply_kept in Happly;
    destruct Happly as (_ & H2 & _); simpl in *; exact H2.
Qed.

Section VersionStamp.
Variable a : Aggregate.t.
Hypothesis Hown : versionPathOwn a.

Let vp : Dotty.path := e_version (ep a).

Lemma version_apart (q : Dotty.path) :
  In q [e_name (ep a); e_payload (ep a); e_meta (ep a); e_revision (ep a);
        e_aggregateId (ep a); e_correlationId (ep a); e_aggregate (ep a);
        e_context (ep a)] ->
  apart vp q = true.
Proof.
  destruct Hown as [_ Hall]. rewrite Forall_forall in Hall. apply Hall.
Qed.

Lemma version_configured : vp <> None.
Proof.
  destruct Hown as [Hconf _]. unfold vp. intros Hnone.
  rewrite Hnone in Hconf. discriminate.
Qed.

Lemma constructedEvent_writable (c : value) (aggregateId : string)
    (revision : Z) (name payload : value) :
  emitsVersioned a name payload ->
  writable (constructedEvent a c aggregateId revision name payload) vp.
Proof.
  intros Hcall. unfold constructedEvent.
  apply writable_put_apart; [apply version_apart; simpl; auto 10|].
  apply writable_put_apart; [apply version_apart; simpl; auto 10|].
  apply writable_put_apart; [apply version_apart; simpl; auto 10|].
  apply stampMeta_writable_at; [apply version_apart; simpl; auto 10|].
  apply newEvent_writable_at;
    [exact version_configured|apply version_apart; simpl; auto 10
    |apply version_apart; simpl; auto 10|exact Hcall].
Qed.

Lemma later_stamps_keep_version (c evt evt' : value) :
  stampContext a c (stampAggregate a c evt) = Ok evt' ->
  Dotty.get evt' vp = Dotty.get evt vp.
Proof.
  assert (Hagg : apart vp (e_aggregate (ep a)) = true)
    by (apply version_apart; simpl; auto 10).
  assert (Hctx : apart vp (e_context (ep a)) = true)
    by (apply version_apart; simpl; auto 10).
  intros Hdone.
  assert (H2 : Dotty.get (stampAggregate a c evt) vp = Dotty.get evt vp).
  { unfold stampAggregate.
    destruct (Dotty.configured (e_aggregate (ep a))
              && Dotty.configured (c_aggregate (cp a))); [|reflexivity].
    now apply get_put_apart. }
  rewrite <- H2. revert Hdone. unfold stampContext.
  destruct (Dotty.configured (e_context (ep a))
            && Dotty.configured (c_context (cp a))).
  - destruct (truthy (Dotty.get c (c_context (cp a)))).
    + intros H. injection H as <-. now apply get_put_apart.
    + destruct (context a); [|discriminate].
      intros H. injection H as <-. now apply get_put_apart.
  - intros H. now injection H as <-.
Qed.
End VersionStamp.

Lemma maxVersion_latest (a : Aggregate.t) (evt : value) :
  latestVersion a evt (maxVersion a (Dotty.get evt (e_name (ep a)))).
Proof.
  pose proof (maxVersion_fold (Dotty.get evt (e_name (ep a))) (events a) 0) as H.
  change (fold_left _ (events a) 0)
    with (maxVersion a (Dotty.get evt (e_name (ep a)))) in H.
  destruct H as (Hle & Hub & Hatt). unfold latestVersion, named.
  split; [exact Hle|]. split; [exact Hub|].
  destruct Hatt as [Hzero|(e & Hin & Hn & Heq)]; [now left|].
  right. exists e. auto.
Qed.

(** C8, as the code has it: where the field mapping has an event version
    path, the event that a call of the apply function appends to the
    buffer keeps the value that the constructed event already had at that
    path; when the constructed event had no property there, the appended
    event carries, at that path, the largest of 0 and the versions of the
    registered event definitions that carry the event's name, so 0 when
    no definition carries that name.  This holds whether or not the
    replay of the event then succeeds.  The version has a path of its own
    in the field mapping, and the call names the event or passes an event
    object in which the version can be written. *)
Theorem applyHelper_infers_version
    (a : Aggregate.t) (cmd : loc) (name payload : value) (s s' : State)
    (r : result unit) (evt : value) :
  versionPathOwn a ->
  emitsVersioned a name payload ->
  envelope a (deref (store s) cmd) (AggregateModel.id (model s))
           (AggregateModel.revision (model s) + 1) name payload = Ok evt ->
  applyHelper a cmd name payload s = (r, s') ->
  let built :=
    constructedEvent a (deref (store s) cmd) (AggregateModel.id (model s))
                     (AggregateModel.revision (model s) + 1) name payload in
  AggregateModel.uncommittedEvents (model s')
  = AggregateModel.uncommittedEvents (model s) ++ [evt]
  /\ (Dotty.exists_ built (e_version (ep a)) = true ->
      Dotty.get evt (e_version (ep a)) = Dotty.get built (e_version (ep a)))
  /\ (Dotty.exists_ built (e_version (ep a)) = false ->
      exists v : Z,
        Dotty.get evt (e_version (ep a)) = VNum v
        /\ latestVersion a built v
        /\ ((forall e, In e (events a) -> ~ named a built e) -> v = 0)).
Proof.
  intros Hown Hcall Henv Hrun built.
  split; [exact (applyHelper_buffers _ _ _ _ _ _ _ _ Henv Hrun)|].
  unfold envelope in Henv. cbv zeta in Henv.
  change (stampContext a (deref (store s) cmd)
            (stampAggregate a (deref (store s) cmd) (stampVersion a built))
          = Ok evt) in Henv.
  apply (later_stamps_keep_version a Hown) in Henv. rewrite Henv.
  unfold stampVersion. destruct Hown as [Hconf Hall]. rewrite Hconf.
  split.
  - intros ->. reflexivity.
  - intros ->. cbn [negb].
    exists (maxVersion a (Dotty.get built (e_name (ep a)))).
    split; [|split].
    + apply get_put_writable.
      now apply (constructedEvent_writable a (conj Hconf Hall)).
    + apply maxVersion_latest.
    + intros Hnone.
      destruct (maxVersion_latest a built) as (_ & _ & [Hzero|(e & Hin & Hn & _)]);
        [exact Hzero|now destruct (Hnone e Hin)].
Qed.

Lemma applyHelper_infers_version_witness :
  let s := Sample.start (AggregateModel.new "p1" []) Sample.enterJo in
  let s' := snd (applyHelper Sample.versioned 0%nat (VStr "personEntered")
                   (VObj [("name", VStr "Jo")]) s) in
  exists (evt : value) (v : Z),
    AggregateModel.uncommittedEvents (model s') = [] ++ [evt]
    /\ Dotty.get evt (Some "version") = VNum v
    /\ 2 <= v.
Proof.
  intros s s'.
  destruct (applyHelper_infers_version
              Sample.versioned 0%nat (VStr "personEntered")
              (VObj [("name", VStr "Jo")]) s s' (Ok tt)
              (VObj [("name", VStr "personEntered");
                     ("payload", VObj [("name", VStr "Jo")]);
                     ("revision", VNum 1);
                     ("aggregate", VObj [("id", VStr "p1")]);
                     ("correlationId", VStr "c1");
                     ("version", VNum 2)]))
    as (Hbuf & _ & Hinferred).
  - split; [reflexivity|]. repeat constructor.
  - now left.
  - vm_compute. reflexivity.
  - vm_compute. reflexivity.
  - destruct (Hinferred eq_refl) as (v & Hv & (_ & Hmax & _) & _).
    eexists _, v. split; [exact Hbuf|]. split; [exact Hv|].
    apply (Hmax Sample.personEnteredV2); [simpl; auto|reflexivity].
Defined.

(** C8 as the claim has it fails where all the definitions that carry the
    event's name have negative versions: the reduction starts at 0, so
    the event is stamped with version 0, which is the version of no
    registered definition (the replay of the event then finds no
    definition and throws, with the event left in the buffer). *)
Lemma applyHelper_infers_version_counterexample :
  let s := Sample.start (AggregateModel.new "p1" []) Sample.enterJo in
  let r := applyHelper Sample.outdated 0%nat (VStr "personEntered")
             (VObj [("name", VStr "Jo")]) s in
  (exists evt,
     AggregateModel.uncommittedEvents (model (snd r)) = [evt]
     /\ Dotty.get evt (Some "name") = VStr "personEntered"
     /\ Dotty.get evt (Some "version") = VNum 0)
  /\ (forall e, In e (events Sample.outdated) ->
        evt_name e = "personEntered"%string /\ evt_version e = -1)
  /\ maxVersion Sample.outdated (VStr "personEntered") = 0.
Proof.
  cbv zeta. split; [|split].
  - eexists. vm_compute. repeat split.
  - intros e [<-|[]]. split; reflexivity.
  - reflexivity.
Qed.

(** ** More on registration and on the snapshot policy *)

(** X18: [addBusinessRule] registers an object once.  A rule that is not
    yet registered joins the list, which otherwise keeps exactly the rules
    it had; a rule that is registered already leaves the aggregate as it
    is, so that registering twice is the same as registering once. *)
Theorem addBusinessRule_registers_once (a : Aggregate.t) (rule : BusinessRule) :
  (absent br_ref rule (businessRules a) = true ->
     Permutation (businessRules (addBusinessRule rule a))
                 (rule :: businessRules a))
  /\ (absent br_ref rule (businessRules a) = false ->
      addBusinessRule rule a = a)
  /\ addBusinessRule rule (addBusinessRule rule a) = addBusinessRule rule a.
Proof.
  unfold addBusinessRule at 1 2 4.
  destruct (absent br_ref rule (businessRules a)) eqn:Habs.
  - split; [intros _|split; [discriminate|]].
    + cbn [businessRules withBusinessRules].
      rewrite sortBy_permutation. apply Permutation_sym, Permutation_cons_append.
    + unfold addBusinessRule.
      set (a' := withBusinessRules _ a).
      assert (Hin : absent br_ref rule (businessRules a') = false).
      { apply absent_false_iff. exists rule. split; [|reflexivity].
        subst a'. cbn [businessRules withBusinessRules].
        apply (Permutation_in _ (Permutation_sym (sortBy_permutation _ _))).
        apply in_or_app. right. now left. }
      rewrite Hin, ?Habs. reflexivity.
  - split; [discriminate|]. split; [reflexivity|].
    unfold addBusinessRule. now rewrite ?Habs.
Qed.

Lemma addBusinessRule_registers_once_witness :
  Permutation
    (businessRules (addBusinessRule Sample.rejectingRule
                      (Sample.person Sample.countingIds)))
    [Sample.rejectingRule].
Proof.
  apply (proj1 (addBusinessRule_registers_once
                  (Sample.person Sample.countingIds) Sample.rejectingRule)).
  reflexivity.
Defined.

(** X19: a policy installed with [defineSnapshotNeed] decides in the place
    of the default one, and only where the default one would be asked.
    Loading a non-empty array of events without a snapshot returns what
    the installed function answers to the loading time, the events and
    the fields of the loaded model; loading a snapshot that had to be
    converted returns true without regard to the function. *)
Theorem defineSnapshotNeed_decides
    (a : Aggregate.t) (fn : Z -> value -> list (string * value) -> bool)
    (items : list value) (loadingTime : Z) (s s' : State) (flag : bool) :
  items <> [] ->
  (loadFromHistory (defineSnapshotNeed fn a) None (VArr items) loadingTime s
   = (Ok flag, s') ->
   flag = fn loadingTime (VArr items) (AggregateModel.attributes (model s')))
  /\ (forall snapshot,
        snap_version snapshot <> version a ->
        loadFromHistory (defineSnapshotNeed fn a) (Some snapshot) (VArr items)
                        loadingTime s = (Ok flag, s') ->
        flag = true).
Proof.
  intros Hne.
  assert (Hlen : (0 <? Z.of_nat (List.length items)) = true).
  { apply Z.ltb_lt. destruct items; [contradiction|simpl; lia]. }
  split.
  - unfold loadFromHistory. cbv beta iota delta [bind ret].
    cbn [truthy length_of andb]. rewrite Hlen.
    destruct (apply _ (VArr items) s) as [[[]|e] s1]; [|discriminate].
    cbv beta iota delta [updateModel getModel]. cbn [negb model].
    intros H. injection H as <- <-. reflexivity.
  - intros snapshot Hv. apply Z.eqb_neq in Hv.
    unfold loadFromHistory, loadSnapshot.
    cbn [version defineSnapshotNeed withSnapshotNeed snapshotConversions].
    rewrite Hv. unfold bind at 1. unfold bind at 1.
    destruct (conversionFor (snapshotConversions a) (snap_version snapshot))
      as [conversion|]; [|discriminate].
    unfold bind at 1, record at 1. unfold bind at 1, getModel at 1.
    unfold bind at 1.
    match goal with |- context [forEach ?l set ?s0] =>
      destruct (forEach l set s0) as [[[]|e] s1] end; [|discriminate].
    cbv beta iota delta [ret bind updateModel]. cbn [negb].
    cbn [truthy length_of andb]. rewrite Hlen.
    match goal with |- context [apply ?b (VArr items) ?s0] =>
      destruct (apply b (VArr items) s0) as [[[]|e] s2] end; [|discriminate].
    intros H. now injection H as <- _.
Qed.

Lemma defineSnapshotNeed_decides_witness :
  let fn := fun (_ : Z) (_ : value) (_ : list (string * value)) => true in
  let items := [VObj [("name", VStr "personEntered");
                      ("payload", VObj [("name", VStr "Jo")]);
                      ("revision", VNum 1)]] in
  let s := Sample.start (AggregateModel.new "p1" []) Sample.enterJo in
  let run := loadFromHistory
               (defineSnapshotNeed fn (Sample.person Sample.countingIds))
               None (VArr items) 0 s in
  true = fn 0 (VArr items) (AggregateModel.attributes (model (snd run))).
Proof.
  intros fn items s run.
  apply (proj1 (defineSnapshotNeed_decides
                  (Sample.person Sample.countingIds) fn items 0 s (snd run)
                  true ltac:(discriminate))).
  vm_compute. reflexivity.
Defined.

(** ** The order of the calls of one handling *)

Lemma applyHelper_calls (a : Aggregate.t) (cmd : loc) (name payload : value)
    (s s' : State) :
  applyHelper a cmd name payload s = (Ok tt, s') ->
  exists calls, trace s' = trace s ++ calls /\ Forall isEventApply calls.
Proof.
  unfold applyHelper.
  cbv beta iota delta [bind updateModel readObject getModel lift].
  cbn [model store trace ids].
  destruct (stampContext a _ _) as [evt|e]; [|discriminate].
  match goal with |- context [apply a evt ?s1] =>
    destruct (apply a evt s1) as [[[]|e] s2] eqn:Happly end; [|discriminate].
  intros H. injection H as <-. cbn [trace].
  unfold apply in Happly. destruct (negb (truthy evt)).
  - injection Happly as <-. exists []. now rewrite app_nil_r.
  - apply (forEach_replayed (applyEvent a)) in Happly;
      [|intros x; apply applyEvent_replayed].
    destruct Happly as (_ & _ & _ & _ & _ & _ & Hcalls). exact Hcalls.
Qed.

Lemma runScript_trace (a : Aggregate.t) (cmd : loc) (script : script) :
  forall s s',
    runScript a cmd script s = (Ok tt, s') ->
    exists calls, trace s' = trace s ++ calls /\ Forall isEventApply calls.
Proof.
  induction script as [|name payload next IH]; intros s s' Hrun.
  - injection Hrun as <-. exists []. now rewrite app_nil_r.
  - cbn [runScript] in Hrun. unfold bind at 1 in Hrun.
    destruct (applyHelper a cmd name payload s) as [[[]|e] s1] eqn:Hstep;
      [|discriminate].
    unfold bind at 1, getModel at 1 in Hrun.
    apply applyHelper_calls in Hstep. destruct Hstep as (c1 & Ht1 & Hf1).
    apply IH in Hrun. destruct Hrun as (c2 & Ht2 & Hf2).
    exists (c1 ++ c2). split; [|now apply Forall_app].
    now rewrite Ht2, Ht1, app_assoc.
Qed.

Lemma each_assignEventId_trace (a : Aggregate.t) (items : list value) :
  forall s r s',
    each items (assignEventId a) s = (r, s') ->
    exists calls, trace s' = trace s ++ calls /\ Forall isNewId calls.
Proof.
  induction items as [|evt items IH]; intros s r s' Hrun.
  - injection Hrun as _ <-. exists []. now rewrite app_nil_r.
  - cbn [each] in Hrun. unfold bind at 1, assignEventId at 1 in Hrun.
    destruct (truthy (Dotty.get evt (e_id (ep a)))).
    + cbv beta iota delta [ret] in Hrun. cbn [fst snd truthy] in Hrun.
      unfold bind at 1 in Hrun.
      destruct (each items (assignEventId a) s) as [[r1|e] s1] eqn:Hrest;
        apply IH in Hrest; injection Hrun as _ <-; exact Hrest.
    + unfold bind at 1, newId at 1 in Hrun.
      destruct (truthy (fst (getNewId a (ids s)))) eqn:Hgen.
      * cbv beta iota delta [ret] in Hrun. cbn [fst snd] in Hrun.
        rewrite Hgen in Hrun. injection Hrun as _ <-. cbn [trace].
        exists [NewId (ids s)]. split; [reflexivity|].
        constructor; [now exists (ids s)|constructor].
      * cbv beta iota delta [ret] in Hrun. cbn [fst snd truthy] in Hrun.
        unfold bind at 1 in Hrun.
        match type of Hrun with context [each items _ ?s1] =>
          destruct (each items (assignEventId a) s1) as [[r1|e] s2] eqn:Hrest end;
          apply IH in Hrest; destruct Hrest as (calls & Ht & Hf);
          injection Hrun as _ <-; cbn [trace] in Ht;
          (exists (NewId (ids s) :: calls); split;
           [now rewrite Ht, <- app_assoc
           |constructor; [now exists (ids s)|exact Hf]]).
Qed.

Lemma assignEventIds_trace (a : Aggregate.t) (s s' : State) (r : result value) :
  assignEventIds a s = (r, s') ->
  exists calls, trace s' = trace s ++ calls /\ Forall isNewId calls.
Proof.
  unfold assignEventIds. unfold bind at 1, getModel at 1. unfold bind at 1.
  destruct (each _ (assignEventId a) s) as [[r1|e] s1] eqn:Heach;
    apply each_assignEventId_trace in Heach.
  - cbv beta iota delta [bind updateModel ret].
    intros H. injection H as _ <-. exact Heach.
  - intros H. injection H as _ <-. exact Heach.
Qed.

Lemma checkBusinessRules_trace (a : Aggregate.t) (previous : Model)
    (events : list value) (cmd : loc) (s s' : State) (r : result value) :
  checkBusinessRules a previous events cmd s = (r, s') ->
  exists calls, trace s' = trace s ++ calls /\ Forall isBusinessRuleCheck calls.
Proof.
  unfold checkBusinessRules. revert s.
  induction (businessRules a) as [|rule rules IH]; intros s Hrun.
  - injection Hrun as _ <-. exists []. now rewrite app_nil_r.
  - cbn [eachSeries] in Hrun.
    cbv beta iota delta [bind record getModel readObject ret] in Hrun.
    cbn [model store trace ids] in Hrun.
    destruct (truthy (br_check rule (model s) previous events (deref (store s) cmd))).
    + injection Hrun as _ <-. cbn [trace]. eexists. split; [reflexivity|].
      constructor; [now exists (br_ref rule), cmd|constructor].
    + apply IH in Hrun. destruct Hrun as (calls & Ht & Hf). cbn [trace] in Ht.
      exists (BusinessRuleCheck (br_ref rule) cmd :: calls).
      split; [now rewrite Ht, <- app_assoc|].
      constructor; [now exists (br_ref rule), cmd|exact Hf].
Qed.

Lemma checkEntries_kind (l : loc) (pcs : list PreCondition) :
  Forall isPreConditionCall (checkEntries l pcs).
Proof.
  revert l. induction pcs as [|pc pcs IH]; intros l; simpl; constructor.
  - exists (pc_ref pc), l. now left.
  - apply IH.
Qed.

Lemma checkPreConditions_trace (a : Aggregate.t) (cmd : loc) (s s1 : State)
    (err : value) :
  (cmd < List.length (store s))%nat ->
  checkPreConditions a cmd s = (Ok err, s1) ->
  exists calls, trace s1 = trace s ++ calls /\ Forall isPreConditionCall calls.
Proof.
  intros Hcmd Hrun.
  destruct (checkPreConditions_run a cmd s Hcmd) as [Hfail Hpass].
  destruct (truthy (chainError (deref (store s) cmd) (model s) (preConditions a))).
  - rewrite (Hfail eq_refl) in Hrun. injection Hrun as _ <-. cbn [trace].
    eexists. split; [reflexivity|apply checkEntries_kind].
  - destruct (Hpass eq_refl) as [[e He]|(command & _ & He)];
      rewrite He in Hrun; [discriminate|].
    injection Hrun as _ <-. cbn [trace]. rewrite <- app_assoc.
    eexists. split; [reflexivity|]. apply Forall_app.
    split; [apply checkEntries_kind|].
    constructor; [|constructor]. exists (cmd_ref command), cmd. now right.
Qed.

(** X20: the calls that [handle] makes come in the order of its stages.
    Up to the call of the callback [handle] first checks preconditions,
    then calls the command's handle at most once, during which only
    event definitions are applied, then requests ids, then checks business
    rules; and without the call of the command's handle no event is
    applied, no id requested and no rule checked. *)
Theorem handle_calls_in_stage_order
    (a : Aggregate.t) (cmd : loc) (s s' : State) (err : value) :
  (cmd < List.length (store s))%nat ->
  handle a cmd s = (Ok err, s') ->
  exists calls, trace s' = trace s ++ calls /\ inStageOrder calls.
Proof.
  intros Hcmd Hrun. apply handle_callback in Hrun.
  destruct Hrun as [[-> _]|(command & s1 & err1 & Hpre & Hrun)].
  { exists []. split; [now rewrite app_nil_r|].
    exists [], [], [], [], []. repeat split; auto. }
  apply checkPreConditions_trace in Hpre; [|exact Hcmd].
  destruct Hpre as (checks & Ht1 & Hchecks). cbn [gateClosed trace] in Ht1.
  destruct Hrun as [(_ & _ & ->)|(_ & s3 & s4 & err4 & Hscript & Hids & Hrun)].
  { exists checks. split; [exact Ht1|].
    exists checks, [], [], [], []. rewrite app_nil_r. repeat split; auto. }
  apply runScript_trace in Hscript. destruct Hscript as (applies & Ht3 & Happlies).
  cbn [handling trace] in Ht3.
  apply assignEventIds_trace in Hids. destruct Hids as (requests & Ht4 & Hreq).
  assert (Hhandle : Forall isCommandHandle [CommandHandle (cmd_ref command) cmd])
    by (constructor; [now exists (cmd_ref command), cmd|constructor]).
  destruct Hrun as [(_ & _ & ->)|(_ & s5 & err5 & Hrules & Hrun)].
  { exists (checks ++ [CommandHandle (cmd_ref command) cmd] ++ applies
                   ++ requests ++ []).
    split; [rewrite Ht4, Ht3, Ht1, app_nil_r, <- !app_assoc; reflexivity|].
    exists checks, [CommandHandle (cmd_ref command) cmd], applies, requests, [].
    repeat split; auto; discriminate. }
  apply checkBusinessRules_trace in Hrules.
  destruct Hrules as (rules & Ht5 & Hrules).
  exists (checks ++ [CommandHandle (cmd_ref command) cmd] ++ applies
                 ++ requests ++ rules).
  split.
  - destruct Hrun as [(_ & _ & ->)|(_ & _ & ->)]; cbn [rolledBack trace];
      rewrite Ht5, Ht4, Ht3, Ht1, <- !app_assoc; reflexivity.
  - exists checks, [CommandHandle (cmd_ref command) cmd], applies, requests, rules.
    repeat split; auto; discriminate.
Qed.

Lemma handle_calls_in_stage_order_witness :
  exists calls,
    trace (snd (handle (Sample.ruled Sample.countingIds) 0%nat
                  (Sample.start (AggregateModel.new "p1" []) Sample.enterJo)))
    = [] ++ calls
    /\ inStageOrder calls.
Proof.
  apply (handle_calls_in_stage_order
           (Sample.ruled Sample.countingIds) 0%nat
           (Sample.start (AggregateModel.new "p1" []) Sample.enterJo)
           _ (Error "rule broken")).
  - simpl. lia.
  - vm_compute. reflexivity.
Defined.

(** ** Preconditions of a command that cannot be resolved *)

(** X21: [checkPreConditions] runs the aggregate-level preconditions
    before it looks at the name of the command.  For a command without a
    name the chain is run all the same: if one of the preconditions
    answers with an error, that error is passed to the callback; if all
    pass, [checkPreConditions] throws the missing-name error instead of
    calling back.  Either way the model is untouched. *)
Theorem checkPreConditions_unnamed_command
    (a : Aggregate.t) (cmd : loc) (s : State) :
  (cmd < List.length (store s))%nat ->
  truthy (commandName a (deref (store s) cmd)) = false ->
  let c := deref (store s) cmd in
  let m := model s in
  let ran := checked c m (preConditions a) in
  let after := mkState m (store s ++ copiesLeft c m ran)
                 (trace s ++ checkEntries (List.length (store s)) ran) (ids s) in
  (truthy (chainError c m (preConditions a)) = true ->
     checkPreConditions a cmd s = (Ok (chainError c m (preConditions a)), after))
  /\ (truthy (chainError c m (preConditions a)) = false ->
      checkPreConditions a cmd s = (Throw (noNameError a), after)).
Proof.
  intros Hcmd Hname c m ran after.
  pose proof (checkAggregatePreConditions_run a cmd s Hcmd) as Hrun.
  fold c m ran in Hrun. fold (copiesLeft c m ran) in Hrun. fold after in Hrun.
  split; intros Herr; unfold checkPreConditions, bind; rewrite Hrun, Herr.
  - reflexivity.
  - unfold readObject. subst after. cbn [store].
    rewrite deref_app_old by exact Hcmd.
    fold (commandName a (deref (store s) cmd)). rewrite Hname. reflexivity.
Qed.

Lemma checkPreConditions_unnamed_command_witness :
  checkPreConditions (Sample.wiped Sample.countingIds) 0%nat
    (Sample.start (AggregateModel.new "p1" []) (VObj [("id", VStr "c1")]))
  = (Throw (noNameError (Sample.wiped Sample.countingIds)),
     mkState (AggregateModel.new "p1" [])
             [VObj [("id", VStr "c1")]; VObj []]
             [PreConditionCheck 30 1%nat] 0%nat).
Proof.
  apply (proj2 (checkPreConditions_unnamed_command
                  (Sample.wiped Sample.countingIds) 0%nat
                  (Sample.start (AggregateModel.new "p1" [])
                                (VObj [("id", VStr "c1")]))
                  ltac:(simpl; lia) eq_refl)).
  reflexivity.
Defined.
